(** * easyad: a shallow embedding of [easyad.py] and its specification

    The module is a thin layer over a directory (LDAP) client library.  The
    embedding follows the source function by function:

    - Python values, exceptions and the string primitives the module calls
      ([split], [lower], [in], [rstrip], [format], [decode], [b64encode],
      [int], [sorted]);
    - the timestamp codec ([convert_ad_timestamp], [_get_last_logon]);
    - the result normalizer ([decode_ldap_results]);
    - the connection wrapper ([ADConnection]) and the client ([EasyAD]),
      written in a small exception-and-trace monad whose trace records every
      call made to the directory library. *)

From Stdlib Require Import ZArith Lia Ascii String List Permutation Sorted.
From stdpp Require Import base option list strings gmap fin_maps.

Local Open Scope string_scope.
Local Open Scope list_scope.
Local Open Scope Z_scope.

(** ** Exceptions and fallible results *)

(** The directory library's error classes.  [INVALID_CREDENTIALS] is the one
    class [authenticate_user] names in its [except] clause; the others stand
    for the rest of the [ldap.LDAPError] hierarchy. *)
Inductive ldap_error : Type :=
  | INVALID_CREDENTIALS
  | SERVER_DOWN
  | NO_SUCH_OBJECT
  | FILTER_ERROR
  | OTHER_LDAP_ERROR (desc : string).

Inductive exn : Type :=
  | ValueError (msg : string)
  | KeyError (key : string)
  | TypeError
  | AttributeError
  | OverflowError
  | IndexError
  | LDAPError (e : ldap_error).

Inductive result (A : Type) : Type :=
  | Ok (a : A)
  | Raise (e : exn).
Arguments Ok {A} a.
Arguments Raise {A} e.

Definition rbind {A B} (r : result A) (f : A -> result B) : result B :=
  match r with
  | Ok a => f a
  | Raise e => Raise e
  end.

Notation "x <- r ;; k" := (rbind r (fun x => k))
  (at level 100, r at next level, right associativity).

(** ** Text and bytes

    Python [bytes] and [str] are both carried by [string]: a byte string is
    its bytes, a text string is its UTF-8 encoding.  Comparing UTF-8
    encodings byte by byte is comparing the texts code point by code point,
    which is Python's order on [str]. *)

Definition byte_val (c : ascii) : Z := Z.of_N (N_of_ascii c).

Definition in_range (lo hi : Z) (c : ascii) : bool :=
  (lo <=? byte_val c) && (byte_val c <=? hi).

Definition is_cont (c : ascii) : bool := in_range 128 191 c.

(** [bytes.decode("UTF-8")] in strict mode: [Some] of the text when the bytes
    are well-formed UTF-8 (no overlong forms, no surrogates, nothing above
    U+10FFFF), [None] where Python raises [UnicodeDecodeError]. *)
Fixpoint utf8_valid (b : string) : bool :=
  match b with
  | EmptyString => true
  | String c0 r0 =>
    if byte_val c0 <? 128 then utf8_valid r0
    else match r0 with
    | EmptyString => false
    | String c1 r1 =>
      if in_range 194 223 c0 then is_cont c1 && utf8_valid r1
      else match r1 with
      | EmptyString => false
      | String c2 r2 =>
        if in_range 224 239 c0 then
          (if byte_val c0 =? 224 then in_range 160 191 c1
           else if byte_val c0 =? 237 then in_range 128 159 c1
           else is_cont c1)
          && is_cont c2 && utf8_valid r2
        else match r2 with
        | EmptyString => false
        | String c3 r3 =>
          if in_range 240 244 c0 then
            (if byte_val c0 =? 240 then in_range 144 191 c1
             else if byte_val c0 =? 244 then in_range 128 143 c1
             else is_cont c1)
            && is_cont c2 && is_cont c3 && utf8_valid r3
          else false
        end
      end
    end
  end.

Definition utf8_decode (b : string) : option string :=
  if utf8_valid b then Some b else None.

Definition starts_with_cont (s : string) : bool :=
  match s with
  | String c _ => is_cont c
  | EmptyString => false
  end.

(** The characters of a text, as iterating over a [str] yields them: each
    lead byte with the continuation bytes that follow it. *)
Fixpoint chars (s : string) : list string :=
  match s with
  | EmptyString => []
  | String c rest =>
    match chars rest with
    | g :: gs =>
      if starts_with_cont rest then String c g :: gs
      else String c EmptyString :: g :: gs
    | [] => [String c EmptyString]
    end
  end.

(** Every byte is below 128: the text is ASCII. *)
Fixpoint ascii_only (s : string) : bool :=
  match s with
  | EmptyString => true
  | String c r => (byte_val c <? 128) && ascii_only r
  end.

(** The ASCII fold: the letters [A]-[Z] are lowered, every other byte is
    left as it is.  This is [bytes.lower()].  On text it is used for the two
    tests the module makes on a lowered name, ["cn=" in s.lower()] and
    [s.lower().startswith("cn=")]: no code point outside ASCII lowers to
    [c], [n] or [=], so the tests come out as with [str.lower()].  Where
    lowered texts are compared with each other (the key of [sorted]) the
    fold of the interpreter, [str_lower] below, is used instead. *)
Definition lower_char (c : ascii) : ascii :=
  if in_range 65 90 c then ascii_of_N (N_of_ascii c + 32) else c.

Fixpoint lower (s : string) : string :=
  match s with
  | EmptyString => EmptyString
  | String c r => String (lower_char c) (lower r)
  end.

(** [needle in hay] for strings. *)
Fixpoint contains (needle hay : string) : bool :=
  String.prefix needle hay ||
  match hay with
  | EmptyString => false
  | String _ r => contains needle r
  end.

(** [s.split(sep)] for a one-character separator: never empty. *)
Fixpoint split (sep : ascii) (s : string) : list string :=
  match s with
  | EmptyString => [EmptyString]
  | String c r =>
    if Ascii.eqb c sep then EmptyString :: split sep r
    else match split sep r with
         | w :: ws => String c w :: ws
         | [] => [String c EmptyString]
         end
  end.

(** [xs[-1]] on a list known to be non-empty; [d] is never reached from
    [split]. *)
Definition last_item (xs : list string) (d : string) : string := List.last xs d.

(** [s.rstrip(",")]: every trailing occurrence is removed. *)
Fixpoint rstrip (c : ascii) (s : string) : string :=
  match s with
  | EmptyString => EmptyString
  | String a r =>
    match rstrip c r with
    | EmptyString => if Ascii.eqb a c then EmptyString else String a EmptyString
    | r' => String a r'
    end
  end.

(** [ldap.filter.escape_filter_chars] in its default mode. *)
Fixpoint escape_filter_chars (s : string) : string :=
  match s with
  | EmptyString => EmptyString
  | String c r =>
    let r' := escape_filter_chars r in
    if Ascii.eqb c "\" then "\5c" +:+ r'
    else if Ascii.eqb c "*" then "\2a" +:+ r'
    else if Ascii.eqb c "(" then "\28" +:+ r'
    else if Ascii.eqb c ")" then "\29" +:+ r'
    else if Ascii.eqb c "000" then "\00" +:+ r'
    else String c r'
  end.

(** [base64.b64encode]: the standard alphabet, padded with [=]. *)
Definition b64_alphabet : string :=
  "ABCDEFGHIJKLMNOPQRSTUVWXYZabcdefghijklmnopqrstuvwxyz0123456789+/".

Definition b64_char (n : Z) : ascii :=
  match String.get (Z.to_nat (n mod 64)) b64_alphabet with
  | Some c => c
  | None => "="%char
  end.

Fixpoint b64encode (b : string) : string :=
  match b with
  | EmptyString => EmptyString
  | String x EmptyString =>
    let n := byte_val x * 65536 in
    String (b64_char (n / 262144)) (String (b64_char (n / 4096)) "==")
  | String x (String y EmptyString) =>
    let n := byte_val x * 65536 + byte_val y * 256 in
    String (b64_char (n / 262144)) (String (b64_char (n / 4096))
      (String (b64_char (n / 64)) "="))
  | String x (String y (String z r)) =>
    let n := byte_val x * 65536 + byte_val y * 256 + byte_val z in
    String (b64_char (n / 262144)) (String (b64_char (n / 4096))
      (String (b64_char (n / 64)) (String (b64_char n) (b64encode r))))
  end.

(** [int(s)] on text: surrounding ASCII whitespace is dropped, then an
    optional sign and one or more ASCII digits are read.  ([int] also takes
    digit-group underscores and non-ASCII digits; directory integers use
    neither.) *)
Definition is_space (c : ascii) : bool :=
  in_range 9 13 c || (byte_val c =? 32).

Fixpoint lstrip_space (s : string) : string :=
  match s with
  | String c r => if is_space c then lstrip_space r else s
  | EmptyString => EmptyString
  end.

Fixpoint rstrip_space (s : string) : string :=
  match s with
  | EmptyString => EmptyString
  | String a r =>
    match rstrip_space r with
    | EmptyString => if is_space a then EmptyString else String a EmptyString
    | r' => String a r'
    end
  end.

Fixpoint parse_digits (s : string) (acc : Z) : option Z :=
  match s with
  | EmptyString => Some acc
  | String c r =>
    if in_range 48 57 c then parse_digits r (10 * acc + (byte_val c - 48))
    else None
  end.

Definition parse_unsigned (s : string) : option Z :=
  match s with
  | EmptyString => None
  | _ => parse_digits s 0
  end.

Definition parse_int (s : string) : option Z :=
  match rstrip_space (lstrip_space s) with
  | String "-" r => Z.opp <$> parse_unsigned r
  | String "+" r => parse_unsigned r
  | t => parse_unsigned t
  end.

(** ** Python values *)

(** One attribute value: decoded text, or bytes that did not decode. *)
Inductive atom : Type :=
  | Str (s : string)
  | Bytes (b : string).

(** What an entry of a result dictionary can hold.  A [datetime] is the
    number of microseconds between 1601-01-01T00:00:00 and it. *)
Inductive pyval : Type :=
  | VNone
  | VBool (b : bool)
  | VInt (n : Z)
  | VAtom (a : atom)
  | VDatetime (t : Z)
  | VList (l : list atom).

(** A configuration or credentials value. *)
Inductive cfgval : Type :=
  | CNone
  | CBool (b : bool)
  | CStr (s : string).

(** [str(v)], as ["{0}".format(v)] renders a configuration value. *)
Definition py_format (v : cfgval) : string :=
  match v with
  | CNone => "None"
  | CBool true => "True"
  | CBool false => "False"
  | CStr s => s
  end.

Definition truthy (v : cfgval) : bool :=
  match v with
  | CNone => false
  | CBool b => b
  | CStr s => negb (String.eqb s "")
  end.

(** Calling a [str] method on a configuration value: only text has one. *)
Definition cfg_text (v : cfgval) : result string :=
  match v with
  | CStr s => Ok s
  | _ => Raise AttributeError
  end.

Definition int_literal_error : exn :=
  ValueError "invalid literal for int() with base 10".

(** [int(v)]. *)
Definition py_int (v : pyval) : result Z :=
  match v with
  | VInt n => Ok n
  | VBool b => Ok (if b then 1 else 0)
  | VAtom (Str s) | VAtom (Bytes s) =>
    match parse_int s with
    | Some n => Ok n
    | None => Raise int_literal_error
    end
  | VNone | VDatetime _ | VList _ => Raise TypeError
  end.

(** ** The interpreter and its library

    Three things the module leaves to Python are kept abstract.

    - [timestamp / 10 ** 7] followed by [timedelta(seconds=...)]: the module
      does not import [division], so the quotient is the floor under
      Python 2 and a binary64 number under Python 3, which [timedelta] then
      rounds to a microsecond.  [seconds_quotient a b] is the number of
      microseconds in [timedelta(seconds=a / b)]; either way it grows with
      [a] and lies within the second that holds the exact quotient.  A
      quotient too large for [timedelta] is one that places the sum outside
      the calendar, where [datetime_add] raises the same [OverflowError].
    - [datetime.strftime], whose [%x] and [%X] follow the process locale;
      it is taken to format every time of the calendar, as Python 3 does.
    - [str.lower()], which follows the case mappings of the Unicode
      database the interpreter was built with.  [str_lower s] is the
      lowered text; all that is used of it is that on ASCII text it lowers
      the letters [A]-[Z] and nothing else. *)
Class PyRuntime : Type := {
  seconds_quotient : Z -> Z -> Z;
  strftime : string -> Z -> string;
  str_lower : string -> string;
  seconds_quotient_mono :
    forall a a' b, 0 < b -> a <= a' ->
    seconds_quotient a b <= seconds_quotient a' b;
  seconds_quotient_floor :
    forall a b, 0 < b ->
    a / b * 1000000 <= seconds_quotient a b <= (a / b + 1) * 1000000;
  str_lower_ascii :
    forall s, ascii_only s = true -> str_lower s = lower s
}.

(** ** [sorted(xs, key=lambda s: s.lower())]

    Python's sort is stable: elements with equal keys keep their order.  The
    keys are compared as Python compares [str] with [str] and [bytes] with
    [bytes]: code point by code point, which on UTF-8 encodings is byte by
    byte. *)
Fixpoint insert_by {A} (key : A -> string) (x : A) (l : list A) : list A :=
  match l with
  | [] => [x]
  | y :: l' =>
    if String.leb (key x) (key y) then x :: y :: l'
    else y :: insert_by key x l'
  end.

Definition sorted_by {A} (key : A -> string) (l : list A) : list A :=
  foldr (insert_by key) [] l.

Definition atom_payload (a : atom) : string :=
  match a with Str s => s | Bytes b => b end.

(** [a.lower()]: [str.lower] on text, [bytes.lower] on bytes. *)
Definition atom_key {rt : PyRuntime} (a : atom) : string :=
  match a with
  | Str s => str_lower s
  | Bytes b => lower b
  end.

Definition is_str (a : atom) : bool :=
  match a with Str _ => true | Bytes _ => false end.

(** Text and bytes do not compare with each other: a list can be sorted when
    it holds one kind only. *)
Definition homogeneous (l : list atom) : bool :=
  forallb is_str l || forallb (fun a => negb (is_str a)) l.

Definition sort_atoms {rt : PyRuntime} (l : list atom) : result (list atom) :=
  if homogeneous l then Ok (sorted_by atom_key l) else Raise TypeError.

(** [sorted(v, key=lambda dn: dn.lower())] on an attribute value.  A list is
    sorted; a text is iterated character by character; iterating bytes
    yields integers, which have no [lower]; the other values are not
    iterable. *)
Definition sorted_lower {rt : PyRuntime} (v : pyval) : result (list atom) :=
  match v with
  | VList l => sort_atoms l
  | VAtom (Str s) => Ok (sorted_by atom_key (map Str (chars s)))
  | VAtom (Bytes EmptyString) => Ok []
  | VAtom (Bytes _) => Raise AttributeError
  | VNone | VBool _ | VInt _ | VDatetime _ => Raise TypeError
  end.

(** ** Timestamp codec *)

Definition us_per_second : Z := 1000000.
Definition us_per_day : Z := 86400 * us_per_second.

(** [datetime.min] is 0001-01-01T00:00:00, 584388 days before 1601-01-01;
    [datetime.max] is 9999-12-31T23:59:59.999999, the last microsecond of
    the 3067671 days that start on 1601-01-01. *)
Definition datetime_min : Z := - (584388 * us_per_day).
Definition datetime_max : Z := 3067671 * us_per_day - 1.

(** [d + delta] on a [datetime]: a result outside the calendar is an
    [OverflowError]. *)
Definition datetime_add (d delta : Z) : result Z :=
  let t := d + delta in
  if (datetime_min <=? t) && (t <=? datetime_max) then Ok t
  else Raise OverflowError.

(** [datetime(year=1601, month=1, day=1)]. *)
Definition epoch_start : Z := 0.

Section Codec.
Context {rt : PyRuntime}.

Definition convert_ad_timestamp (timestamp : pyval) (json_safe : bool)
    (str_format : string) : result pyval :=
  timestamp <- py_int timestamp ;;
  if timestamp =? 0 then Ok VNone
  else
    let seconds_since_epoch := seconds_quotient timestamp (10 ^ 7) in
    converted_timestamp <- datetime_add epoch_start seconds_since_epoch ;;
    if json_safe then
      Ok (VAtom (Str (strftime str_format converted_timestamp)))
    else Ok (VDatetime converted_timestamp).

(** [now] is what [datetime.now()] returns.  With [json_safe=False] the
    converter yields [None] or a [datetime]; calling [days] on anything
    else would be an [AttributeError].  The [elif json_safe] branch calls
    [strftime] and drops its result. *)
Definition _get_last_logon (now : Z) (timestamp : pyval) (json_safe : bool)
    : result pyval :=
  timestamp <- convert_ad_timestamp timestamp false "%x %X" ;;
  match timestamp with
  | VNone => Ok (VInt (-1))
  | VDatetime t =>
    let delta := now - t in
    let days := delta / us_per_day in
    if days <=? 14 then Ok (VAtom (Str "<= 14 days"))
    else if json_safe then
      let _ := strftime "%x %X" t in Ok (VDatetime t)
    else Ok (VDatetime t)
  | _ => Raise AttributeError
  end.
End Codec.

(** *** A concrete runtime

    The quotient is the floor, whole seconds, which is how Python 2 divides
    integers; [strftime] is that of the C locale, where [%x] is [%m/%d/%y]
    and [%X] is [%H:%M:%S], for the directives below (any other directive
    is copied as it is); text is lowered on its ASCII letters, which is
    [str.lower()] on the ASCII texts of the sample data. *)

Definition digit (n : Z) : ascii := ascii_of_N (48 + Z.to_N (n mod 10)).

Definition pad2 (n : Z) : string :=
  String (digit (n / 10)) (String (digit n) EmptyString).

Definition pad4 (n : Z) : string :=
  String (digit (n / 1000)) (String (digit (n / 100)) (pad2 n)).

(** The calendar date of the day [z] days after 1970-01-01, by counting in
    400-year eras that start on 1 March. *)
Definition civil_from_days (z : Z) : Z * Z * Z :=
  let z := z + 719468 in
  let era := z / 146097 in
  let doe := z - era * 146097 in
  let yoe := (doe - doe / 1460 + doe / 36524 - doe / 146096) / 365 in
  let doy := doe - (365 * yoe + yoe / 4 - yoe / 100) in
  let mp := (5 * doy + 2) / 153 in
  let d := doy - (153 * mp + 2) / 5 + 1 in
  let m := if mp <? 10 then mp + 3 else mp - 9 in
  let y := yoe + era * 400 + (if m <=? 2 then 1 else 0) in
  (y, m, d).

Definition c_directive (t : Z) (c : ascii) : option string :=
  let '(y, m, d) := civil_from_days (t / us_per_day - 134774) in
  let s := (t mod us_per_day) / us_per_second in
  let hms := pad2 (s / 3600) +:+ ":" +:+ pad2 (s / 60 mod 60) +:+ ":"
             +:+ pad2 (s mod 60) in
  if Ascii.eqb c "x" then Some (pad2 m +:+ "/" +:+ pad2 d +:+ "/" +:+ pad2 y)
  else if Ascii.eqb c "X" then Some hms
  else if Ascii.eqb c "Y" then Some (pad4 y)
  else if Ascii.eqb c "y" then Some (pad2 y)
  else if Ascii.eqb c "m" then Some (pad2 m)
  else if Ascii.eqb c "d" then Some (pad2 d)
  else if Ascii.eqb c "H" then Some (pad2 (s / 3600))
  else if Ascii.eqb c "M" then Some (pad2 (s / 60 mod 60))
  else if Ascii.eqb c "S" then Some (pad2 (s mod 60))
  else if Ascii.eqb c "%" then Some "%"
  else None.

Fixpoint c_strftime (fmt : string) (t : Z) : string :=
  match fmt with
  | EmptyString => EmptyString
  | String "%" (String c r) =>
    match c_directive t c with
    | Some s => s +:+ c_strftime r t
    | None => String "%" (String c (c_strftime r t))
    end
  | String a r => String a (c_strftime r t)
  end.

Definition floor_seconds_quotient (a b : Z) : Z := a / b * us_per_second.

Definition floor_runtime : PyRuntime :=
  {| seconds_quotient := floor_seconds_quotient;
     strftime := c_strftime;
     str_lower := lower;
     seconds_quotient_mono := fun a a' b Hb Ha =>
       Z.mul_le_mono_nonneg_r _ _ 1000000 ltac:(lia) (Z.div_le_mono a a' b Hb Ha);
     seconds_quotient_floor := fun a b _ =>
       ltac:(unfold floor_seconds_quotient, us_per_second; lia);
     str_lower_ascii := fun s _ => eq_refl |}.

(** ** Result normalizer *)

(** What [search_s] pairs with an identifier: an attribute dictionary whose
    values are lists of bytes, or, for a referral, a list of URLs. *)
Inductive raw_payload : Type :=
  | RawDict (attrs : gmap string (list string))
  | RawReferral (urls : list string).

Definition raw_result : Type := option string * raw_payload.

(** [isinstance(entry, dict)], for the comprehension's filter. *)
Definition as_dict (r : raw_result) : option (gmap string (list string)) :=
  match r.2 with
  | RawDict d => Some d
  | RawReferral _ => None
  end.

(** The body of the loop over [i]: a value that decodes is replaced by its
    text; one that does not is replaced by its base64 text when [json_safe]
    is set and is left alone otherwise. *)
Definition decode_value (json_safe : bool) (v : string) : atom :=
  match utf8_decode v with
  | Some s => Str s
  | None => if json_safe then Str (b64encode v) else Bytes v
  end.

(** One attribute: every value is decoded in place, then a list of length
    one is replaced by its element. *)
Definition decode_attribute (json_safe : bool) (values : list string) : pyval :=
  let values := map (decode_value json_safe) values in
  match values with
  | [a] => VAtom a
  | _ => VList values
  end.

Definition decode_ldap_results (results : list raw_result) (json_safe : bool)
    : list (gmap string pyval) :=
  let results := omap as_dict results in
  map (fun ldap_object => decode_attribute json_safe <$> ldap_object) results.

(** ** The directory library and the trace of calls made to it *)

Inductive ldap_option : Type :=
  | OPT_PROTOCOL_VERSION
  | OPT_REFERRALS
  | OPT_X_TLS_CACERTFILE
  | OPT_X_TLS_DEMAND.

(** An argument handed to the library: a configuration value, a value taken
    from a result dictionary, or an integer constant. *)
Inductive libarg : Type :=
  | ArgCfg (v : cfgval)
  | ArgVal (v : pyval)
  | ArgInt (n : Z).

(** One call on the library.  Connections are numbered in the order
    [ldap.initialize] creates them.  [bind_s] records the error the library
    raised, if any; [search_s] records that error or the results it
    returned. *)
Inductive event : Type :=
  | EInitialize (conn : nat) (url : string)
  | ESetOption (conn : nat) (opt : ldap_option) (value : libarg)
  | EBind (conn : nat) (who : string) (cred : cfgval)
      (outcome : option ldap_error)
  | ESearch (conn : nat) (base : libarg) (filterstr : string)
      (attrlist : list string) (outcome : ldap_error + list raw_result)
  | EUnbind (conn : nat).

(** The world outside the module: what the library answers to a bind and to
    a search, given everything that happened before, and the clock.
    Creating a connection, setting its options and unbinding it are taken
    to succeed; only [bind_s] and [search_s] raise. *)
Record World : Type := {
  ldap_bind_s : list event -> nat -> string -> cfgval -> option ldap_error;
  ldap_search_s : list event -> nat -> libarg -> string -> list string ->
                  ldap_error + list raw_result;
  datetime_now : list event -> Z
}.

(** A computation reads the calls made so far and returns a value or an
    exception together with the calls it made itself. *)
Definition M (A : Type) : Type := list event -> result A * list event.

Definition ret {A} (a : A) : M A := fun _ => (Ok a, []).

Definition lift {A} (r : result A) : M A := fun _ => (r, []).

Definition raise {A} (e : exn) : M A := fun _ => (Raise e, []).

Definition and_then {A B} (m : M A) (f : A -> M B) : M B :=
  fun h =>
    let '(r, e1) := m h in
    match r with
    | Ok a => let '(r2, e2) := f a (h ++ e1) in (r2, e1 ++ e2)
    | Raise x => (Raise x, e1)
    end.

Definition emit (ev : event) : M unit := fun _ => (Ok tt, [ev]).

Definition past : M (list event) := fun h => (Ok h, []).

(** [try: m finally: cleanup]: the cleanup runs on every exit of [m]; the
    outcome of [m] stands unless the cleanup itself raises. *)
Definition try_finally {A} (m : M A) (cleanup : M unit) : M A :=
  fun h =>
    let '(r, e1) := m h in
    let '(c, e2) := cleanup (h ++ e1) in
    (match c with Ok _ => r | Raise x => Raise x end, e1 ++ e2).

(** [try: m except ldap.INVALID_CREDENTIALS: handler]. *)
Definition except_invalid_credentials {A} (m : M A) (handler : M A) : M A :=
  fun h =>
    let '(r, e1) := m h in
    match r with
    | Raise (LDAPError INVALID_CREDENTIALS) =>
      let '(r2, e2) := handler (h ++ e1) in (r2, e1 ++ e2)
    | _ => (r, e1)
    end.

Notation "x <~ m ;; k" := (and_then m (fun x => k))
  (at level 100, m at next level, right associativity).
Notation "m ;;; k" := (and_then m (fun _ => k))
  (at level 100, right associativity).

Definition is_initialize (ev : event) : bool :=
  match ev with EInitialize _ _ => true | _ => false end.

(** Number of connections created so far. *)
Definition connections (h : list event) : nat :=
  length (filter (fun ev => is_initialize ev = true) h).

(** [d[k]] on a dictionary. *)
Definition getitem {V} (d : gmap string V) (k : string) : result V :=
  match d !! k with
  | Some v => Ok v
  | None => Raise (KeyError k)
  end.

(** [k in d]. *)
Definition has_key {V} (d : gmap string V) (k : string) : bool :=
  bool_decide (is_Some (d !! k)).

Definition is_none (v : cfgval) : bool :=
  match v with CNone => true | _ => false end.

Definition missing_or_none (d : gmap string cfgval) (k : string) : bool :=
  match d !! k with
  | Some v => is_none v
  | None => true
  end.

(** ** Connection wrapper *)

Module ADConnection.

Record t : Type := { config : gmap string cfgval; ad : nat }.

(** [ADConnection(config)]. *)
Definition init (config : gmap string cfgval) : M t :=
  server <~ lift (getitem config "AD_SERVER") ;;
  let ad_server_url := "ldap://" +:+ py_format server in
  h <~ past ;;
  let ad := connections h in
  emit (EInitialize ad ad_server_url) ;;;
  emit (ESetOption ad OPT_PROTOCOL_VERSION (ArgInt 3)) ;;;
  emit (ESetOption ad OPT_REFERRALS (ArgInt 0)) ;;;
  match config !! "AD_CA_CERT_FILE" with
  | Some file =>
    if truthy file then emit (ESetOption ad OPT_X_TLS_CACERTFILE (ArgCfg file))
    else ret tt
  | None => ret tt
  end ;;;
  match config !! "AD_REQUIRE_TLS" with
  | Some v =>
    if negb (truthy v) then emit (ESetOption ad OPT_X_TLS_DEMAND (ArgInt 0))
    else emit (ESetOption ad OPT_X_TLS_DEMAND (ArgInt 1))
  | None => emit (ESetOption ad OPT_X_TLS_DEMAND (ArgInt 1))
  end ;;;
  ret {| config := config; ad := ad |}.

(** The test that opens [bind]: no credentials, or a dictionary without a
    ["username"] or without a ["password"]. *)
Definition needs_defaults (credentials : option (gmap string cfgval)) : bool :=
  match credentials with
  | None => true
  | Some c => negb (has_key c "username") || negb (has_key c "password")
  end.

(** The credentials [bind] goes on with. *)
Definition effective_credentials (config : gmap string cfgval)
    (credentials : option (gmap string cfgval))
    : result (gmap string cfgval) :=
  if needs_defaults credentials then
    if missing_or_none config "AD_BIND_USERNAME" then
      Raise (ValueError "AD_BIND_USERNAME must be set")
    else if missing_or_none config "AD_BIND_PASSWORD" then
      Raise (ValueError "AD_BIND_PASSWORD must be set")
    else
      username <- getitem config "AD_BIND_USERNAME" ;;
      password <- getitem config "AD_BIND_PASSWORD" ;;
      Ok (<["password" := password]> (<["username" := username]> ∅))
  else Ok (default ∅ credentials).

(** The identity handed to [bind_s]. *)
Definition bind_username (config credentials : gmap string cfgval)
    : result string :=
  username <- getitem credentials "username" ;;
  username <- cfg_text username ;;
  let username := last_item (split "\" username) "" in
  if negb (contains "@" username) && negb (contains "cn=" (lower username))
  then
    domain <- getitem config "AD_DOMAIN" ;;
    Ok (username +:+ "@" +:+ py_format domain)
  else Ok username.

Section Calls.
Context (W : World).

Definition bind (self : t) (credentials : option (gmap string cfgval))
    : M bool :=
  credentials <~ lift (effective_credentials (config self) credentials) ;;
  username <~ lift (bind_username (config self) credentials) ;;
  password <~ lift (getitem credentials "password") ;;
  h <~ past ;;
  let outcome := ldap_bind_s W h (ad self) username password in
  emit (EBind (ad self) username password outcome) ;;;
  match outcome with
  | Some e => raise (LDAPError e)
  | None => ret true
  end.

Definition unbind (self : t) : M unit := emit (EUnbind (ad self)).

(** [self.ad.search_s(base, ldap.SCOPE_SUBTREE, filterstr, attrlist)];
    every search of the module uses that one scope. *)
Definition search_s (self : t) (base : libarg) (filterstr : string)
    (attrlist : list string) : M (list raw_result) :=
  h <~ past ;;
  let outcome := ldap_search_s W h (ad self) base filterstr attrlist in
  emit (ESearch (ad self) base filterstr attrlist outcome) ;;;
  match outcome with
  | inl e => raise (LDAPError e)
  | inr results => ret results
  end.
End Calls.

End ADConnection.

(** ** Directory client *)

Fixpoint mapM {A B} (f : A -> result B) (l : list A) : result (list B) :=
  match l with
  | [] => Ok []
  | x :: l' => y <- f x ;; ys <- mapM f l' ;; Ok (y :: ys)
  end.

(** [sorted(values, key=lambda s: s.lower())] on a list of dictionary
    values: the keys are computed first, and only text and bytes have a
    [lower]. *)
Definition sort_values {rt : PyRuntime} (values : list pyval)
    : result (list atom) :=
  atoms <- mapM (fun v => match v with
                          | VAtom a => Ok a
                          | _ => Raise AttributeError
                          end) values ;;
  sort_atoms atoms.

(** [escape_filter_chars(v)] on a dictionary value: it calls [v.replace]
    with text arguments. *)
Definition escape_value (v : pyval) : result string :=
  match v with
  | VAtom (Str s) => Ok (escape_filter_chars s)
  | VAtom (Bytes _) => Raise TypeError
  | _ => Raise AttributeError
  end.

(** [if k in d.keys(): d[k] = f(d[k])]. *)
Definition update_if_present (k : string) (f : pyval -> result pyval)
    (d : gmap string pyval) : result (gmap string pyval) :=
  match d !! k with
  | Some v => v' <- f v ;; Ok (<[k := v']> d)
  | None => Ok d
  end.

Definition sort_if_present {rt : PyRuntime} (k : string)
    (d : gmap string pyval) : result (gmap string pyval) :=
  update_if_present k (fun v => l <- sorted_lower v ;; Ok (VList l)) d.

(** What a caller may pass where a user or a group is expected: a result
    dictionary, a string, or something else. *)
Inductive ref : Type :=
  | RefDict (d : gmap string pyval)
  | RefStr (s : string)
  | RefOther.

(** A value taken from a result dictionary, seen through the [isinstance]
    tests of the resolvers: only text is a [str]. *)
Definition ref_of_value (v : pyval) : ref :=
  match v with
  | VAtom (Str s) => RefStr s
  | _ => RefOther
  end.

(** The result of [authenticate_user]: the user, or [False]. *)
Inductive auth_result : Type :=
  | AuthUser (user : gmap string pyval)
  | AuthFalse.

Module EasyAD.

Record t : Type := {
  config : gmap string cfgval;
  user_attributes : list string;
  group_attributes : list string
}.

(** The class attribute; the source has no comma between
    ["businessUnitDescription"] and ["c"], which Python joins. *)
Definition default_user_attributes : list string :=
  [ "businessCategory"; "businessSegment"; "businessSegmentDescription";
    "businessUnitDescriptionc"; "cn"; "co"; "company"; "costCenter";
    "countryCode"; "department"; "departmentNumber"; "displayName";
    "distinguishedName"; "employeeClass"; "employeeNumber";
    "employeeStatus"; "employeeType"; "enterpriseBusinessUnitDescription";
    "givenName"; "hireDate"; "homeDirectory"; "homeDrive"; "iamFullName";
    "ipPhone"; "jobFamilyDescription"; "jobFunctionDescription";
    "jobTrack"; "l"; "LastLogonTimestamp"; "lockoutTime"; "mail";
    "mailNickname"; "manager"; "memberOf"; "phonebookVisibility";
    "physicalDeliveryOfficeName"; "postalCode"; "prefFirstName";
    "pwdLastSet"; "rehireDate"; "roomNumber"; "sAMAccountName";
    "scriptPath"; "showInAddressBook"; "siteCode"; "siteName"; "sn"; "st";
    "streetAddress"; "telephoneNumber"; "thumbnailPhoto"; "title"; "uid";
    "userAccountControl"; "userPrincipalName" ].

Definition default_group_attributes : list string :=
  [ "cn"; "distinguishedName"; "managedBy"; "member"; "name" ].

(** The loop of [__init__] followed by [rstrip(",")]. *)
Definition derive_base_dn (domain : string) : string :=
  rstrip ","
    (foldl (fun base_dn part => base_dn +:+ "dc=" +:+ part +:+ ",")
           "" (split "." domain)).

(** [EasyAD(config)].  The dictionary is the caller's; the object keeps it
    with the derived base DN stored in it.  The second test of the [if]
    reads the key ["BASE_DN"]. *)
Definition init (config : gmap string cfgval) : result t :=
  domain <- getitem config "AD_DOMAIN" ;;
  domain <- cfg_text domain ;;
  let base_dn := derive_base_dn domain in
  replace <-
    (if negb (has_key config "AD_BASE_DN") then Ok true
     else v <- getitem config "BASE_DN" ;; Ok (is_none v)) ;;
  let config :=
    if (replace : bool) then <["AD_BASE_DN" := CStr base_dn]> config
    else config in
  Ok {| config := config;
        user_attributes := default_user_attributes;
        group_attributes := default_group_attributes |}.

Definition user_filter (user_string : string) : string :=
  let e := escape_filter_chars user_string in
  "(&(objectClass=user)(|(userPrincipalName=" +:+ e +:+ ")(sAMAccountName="
  +:+ e +:+ ")(mail=" +:+ e +:+ ")(distinguishedName=" +:+ e +:+ ")))".

Definition group_filter (group_string : string) : string :=
  let e := escape_filter_chars group_string in
  "(&(objectClass=Group)(|(cn=" +:+ e +:+ ")(distinguishedName=" +:+ e
  +:+ ")))".

(** [if base is None: base = self.config["AD_BASE_DN"]]. *)
Definition base_or_default (self : t) (base : option libarg) : result libarg :=
  match base with
  | Some b => Ok b
  | None => v <- getitem (config self) "AD_BASE_DN" ;; Ok (ArgCfg v)
  end.

(** The account flags read off [userAccountControl]. *)
Definition decode_account_control (user : gmap string pyval)
    : result (gmap string pyval) :=
  match user !! "userAccountControl" with
  | Some v =>
    uac <- py_int v ;;
    let user := <["userAccountControl" := VInt uac]> user in
    let user := <["disabled" := VBool (negb (Z.land uac 2 =? 0))]> user in
    let user :=
      <["passwordExpired" := VBool (negb (Z.land uac 8388608 =? 0))]> user in
    let user :=
      <["passwordNeverExpires" := VBool (negb (Z.land uac 65536 =? 0))]> user in
    Ok (<["smartcardRequired" := VBool (negb (Z.land uac 262144 =? 0))]> user)
  | None => Ok user
  end.

Section Operations.
Context {rt : PyRuntime} (W : World).

(** The post-processing of [get_user], between [user = results[0]] and
    the end of the [try] block.  [_get_last_logon] is called without
    [json_safe], which then has its default. *)
Definition process_user (now : Z) (json_safe : bool)
    (user : gmap string pyval) : result (gmap string pyval) :=
  user <- sort_if_present "memberOf" user ;;
  user <- sort_if_present "showInAddressBook" user ;;
  user <- update_if_present "lastLogonTimestamp"
            (fun v => _get_last_logon now v false) user ;;
  user <- update_if_present "lockoutTime"
            (fun v => convert_ad_timestamp v json_safe "%x %X") user ;;
  user <- update_if_present "pwdLastSet"
            (fun v => convert_ad_timestamp v json_safe "%x %X") user ;;
  decode_account_control user.

(** The test on [len(results)] shared by [get_user] and [get_group]. *)
Definition unique {A} (what : string) (results : list A) : result unit :=
  if (length results =? 0)%nat then Raise (ValueError ("No such " +:+ what))
  else if (1 <? length results)%nat then
    Raise (ValueError "The query returned more than one result")
  else Ok tt.

(** [results[0]]. *)
Definition first {A} (results : list A) : result A :=
  match results with
  | x :: _ => Ok x
  | [] => Raise IndexError
  end.

Definition get_user (self : t) (user_string : string)
    (base : option libarg) (credentials : option (gmap string cfgval))
    (attributes : option (list string)) (json_safe : bool)
    : M (gmap string pyval) :=
  base <~ lift (base_or_default self base) ;;
  let attributes := default (user_attributes self) attributes in
  let filter_string := user_filter user_string in
  connection <~ ADConnection.init (config self) ;;
  try_finally
    (ADConnection.bind W connection credentials ;;;
     results <~ ADConnection.search_s W connection base filter_string
                  attributes ;;
     let results := decode_ldap_results results json_safe in
     lift (unique "user" results) ;;;
     user <~ lift (first results) ;;
     h <~ past ;;
     lift (process_user (datetime_now W h) json_safe user))
    (ADConnection.unbind connection).

Definition authenticate_user (self : t) (username password : string)
    (base : option libarg) (attributes : option (list string))
    (json_safe : bool) : M auth_result :=
  let credentials : gmap string cfgval :=
    <["password" := CStr password]> (<["username" := CStr username]> ∅) in
  except_invalid_credentials
    (user <~ get_user self username base (Some credentials) attributes
               json_safe ;;
     ret (AuthUser user))
    (ret AuthFalse).

Definition get_group (self : t) (group_string : string)
    (base : option libarg) (credentials : option (gmap string cfgval))
    (attributes : option (list string)) (json_safe : bool)
    : M (gmap string pyval) :=
  base <~ lift (base_or_default self base) ;;
  let attributes := default (group_attributes self) attributes in
  let group_filter := group_filter group_string in
  results <~
    (connection <~ ADConnection.init (config self) ;;
     try_finally
       (ADConnection.bind W connection credentials ;;;
        results <~ ADConnection.search_s W connection base group_filter
                     attributes ;;
        let results := decode_ldap_results results json_safe in
        lift (unique "group" results) ;;;
        ret results)
       (ADConnection.unbind connection)) ;;
  group <~ lift (first results) ;;
  lift (sort_if_present "member" group).

Definition resolve_user_dn (self : t) (user : ref) (base : option libarg)
    (credentials : option (gmap string cfgval)) (json_safe : bool)
    : M pyval :=
  match user with
  | RefDict d => lift (getitem d "distinguishedName")
  | RefStr s =>
    if negb (String.prefix "cn=" (lower s)) then
      u <~ get_user self s base credentials None json_safe ;;
      lift (getitem u "distinguishedName")
    else ret (VAtom (Str s))
  | RefOther => raise (ValueError "User passed as an unsupported data type")
  end.

Definition resolve_group_dn (self : t) (group : ref) (base : option libarg)
    (credentials : option (gmap string cfgval)) (json_safe : bool)
    : M pyval :=
  match group with
  | RefDict d => lift (getitem d "distinguishedName")
  | RefStr s =>
    if negb (String.prefix "cn=" (lower s)) then
      g <~ get_group self s base credentials None json_safe ;;
      lift (getitem g "distinguishedName")
    else ret (VAtom (Str s))
  | RefOther => raise (ValueError "Group passed as an unsupported data type")
  end.

(** The tail shared by the two transitive searches: the
    [distinguishedName] of every decoded entry, sorted. *)
Definition sorted_dns (results : list raw_result) (json_safe : bool)
    : result (list atom) :=
  dns <- mapM (fun x => getitem x "distinguishedName")
           (decode_ldap_results results json_safe) ;;
  sort_values dns.

Definition get_all_user_groups (self : t) (user : ref)
    (base : option libarg) (credentials : option (gmap string cfgval))
    (json_safe : bool) : M (list atom) :=
  user_dn <~ resolve_user_dn self user None None false ;;
  base <~ lift (base_or_default self base) ;;
  escaped <~ lift (escape_value user_dn) ;;
  let filter_string :=
    "(member:1.2.840.113556.1.4.1941:=" +:+ escaped +:+ ")" in
  connection <~ ADConnection.init (config self) ;;
  try_finally
    (ADConnection.bind W connection credentials ;;;
     results <~ ADConnection.search_s W connection base filter_string
                  ["distinguishedName"] ;;
     lift (sorted_dns results json_safe))
    (ADConnection.unbind connection).

Definition get_all_users_in_group (self : t) (group : ref)
    (base : option libarg) (credentials : option (gmap string cfgval))
    (json_safe : bool) : M (list atom) :=
  group <~ resolve_group_dn self group None None false ;;
  base <~ lift (base_or_default self base) ;;
  escaped <~ lift (escape_value group) ;;
  let filter_string :=
    "(&(objectClass=user)(memberof:1.2.840.113556.1.4.1941:=" +:+ escaped
    +:+ "))" in
  connection <~ ADConnection.init (config self) ;;
  try_finally
    (ADConnection.bind W connection credentials ;;;
     results <~ ADConnection.search_s W connection base filter_string
                  ["distinguishedName"] ;;
     lift (sorted_dns results json_safe))
    (ADConnection.unbind connection).

(** The resolved user is passed as [base]; a name that is [None] leaves
    the base to [if base is None] in [get_all_users_in_group]. *)
Definition user_is_member_of_group (self : t) (user group : ref)
    (base : option libarg) (credentials : option (gmap string cfgval))
    : M bool :=
  user <~ resolve_user_dn self user base credentials false ;;
  group <~ resolve_group_dn self group base credentials false ;;
  let base := match user with
              | VNone => None
              | _ => Some (ArgVal user)
              end in
  users <~ get_all_users_in_group self (ref_of_value group) base credentials
             false ;;
  ret (0 <? length users)%nat.
End Operations.

End EasyAD.

(** ** Vocabulary of the statements *)

(** A time the calendar of [datetime] can hold. *)
Definition in_calendar (t : Z) : Prop := datetime_min <= t <= datetime_max.

(** [isinstance(entry, dict)] on the second component of a raw result. *)
Definition is_dict (r : raw_result) : bool :=
  match r.2 with RawDict _ => true | RawReferral _ => false end.

(** What the normalizer makes of one attribute: a list of one value becomes
    that value, decoded; any other list keeps its length and its order,
    every value decoded in its place. *)
Definition normalized_attribute (json_safe : bool) (values : list string)
    (v : pyval) : Prop :=
  match values with
  | [x] => v = VAtom (decode_value json_safe x)
  | _ =>
    exists l, v = VList l /\ length l = length values /\
      forall (i : nat) x, values !! i = Some x ->
                          l !! i = Some (decode_value json_safe x)
  end.

(** An entry is the normalized form of a raw attribute dictionary. *)
Definition normalized_entry (json_safe : bool) (r : raw_result)
    (e : gmap string pyval) : Prop :=
  exists d, r.2 = RawDict d /\
    forall k, match d !! k with
              | Some values =>
                exists v, e !! k = Some v /\
                          normalized_attribute json_safe values v
              | None => e !! k = None
              end.

(** *** Traces *)

(** The connections a list of calls creates, in order. *)
Definition opened (evs : list event) : list nat :=
  omap (fun ev => match ev with EInitialize c _ => Some c | _ => None end) evs.

Definition is_unbind (c : nat) (ev : event) : bool :=
  match ev with EUnbind c' => Nat.eqb c c' | _ => false end.

(** How many times a list of calls unbinds connection [c]. *)
Definition unbinds (c : nat) (evs : list event) : nat :=
  length (List.filter (is_unbind c) evs).

(** The error a call made the library raise. *)
Definition failure (ev : event) : option ldap_error :=
  match ev with
  | EBind _ _ _ (Some e) => Some e
  | ESearch _ _ _ _ (inl e) => Some e
  | _ => None
  end.

(** The errors the library raised during a list of calls. *)
Definition failures (evs : list event) : list ldap_error := omap failure evs.

(** A search among the calls returned [results]. *)
Definition searched (evs : list event) (results : list raw_result) : Prop :=
  exists c base filterstr attrlist,
    In (ESearch c base filterstr attrlist (inr results)) evs.

(** The connection a call is made on. *)
Definition conn_of (ev : event) : nat :=
  match ev with
  | EInitialize c _ | ESetOption c _ _ | EBind c _ _ _ | ESearch c _ _ _ _
  | EUnbind c => c
  end.

(** A bind or a search on connection [c]. *)
Definition is_call_on (c : nat) (ev : event) : Prop :=
  match ev with
  | EBind c' _ _ _ | ESearch c' _ _ _ _ => c' = c
  | _ => False
  end.

(** The calls [evs], made after the calls [h], release what they open: the
    connections they create are the next unused numbers, each of them is
    unbound exactly once, no other connection is unbound, and every call is
    made on one of them. *)
Definition released (h evs : list event) : Prop :=
  opened evs = seq (connections h) (length (opened evs)) /\
  (forall c, unbinds c evs
             = if bool_decide (c ∈ opened evs) then 1%nat else 0%nat) /\
  Forall (fun ev => conn_of ev ∈ opened evs) evs.

(** The outcome [r] hides no library error and invents none: either the
    library raised nothing and [r] is no library error, or it raised once
    and [r] is that error. *)
Definition faithful {A} (r : result A) (evs : list event) : Prop :=
  match failures evs with
  | [] => forall e, r <> Raise (LDAPError e)
  | [e] => r = Raise (LDAPError e)
  | _ => False
  end.

(** A result that is no library error. *)
Definition builtin {A} (r : result A) : Prop :=
  forall e, r <> Raise (LDAPError e).

(** A computation that only binds and searches, on connection [c], and
    reports what the library raised. *)
Definition calm {A} (c : nat) (m : M A) : Prop :=
  forall h r evs, m h = (r, evs) ->
    Forall (is_call_on c) evs /\ faithful r evs.

(** A computation that releases what it opens and reports what the library
    raised. *)
Definition sound {A} (m : M A) : Prop :=
  forall h r evs, m h = (r, evs) -> released h evs /\ faithful r evs.

(** *** Sorted values *)

(** [a] does not come after [b] when both are compared by their keys. *)
Definition key_ordered {A} (key : A -> string) (a b : A) : Prop :=
  String.leb (key a) (key b) = true.

(** Case-insensitive ascending order: the lowered values, as [sorted]
    computes its keys, do not decrease. *)
Definition sorted_ci {rt : PyRuntime} (l : list atom) : Prop :=
  Sorted (key_ordered atom_key) l.

(** What [sorted] iterates over when it succeeds on an attribute value. *)
Definition items (v : pyval) : list atom :=
  match v with
  | VList l => l
  | VAtom (Str s) => map Str (chars s)
  | _ => []
  end.

(** An attribute value that [sorted] with the [lower] key accepts. *)
Definition sortable (v : pyval) : Prop :=
  match v with
  | VList l => homogeneous l = true
  | VAtom (Str _) => True
  | _ => False
  end.

(** [k] is absent from the result or is a list, the items of the entry's
    value in case-insensitive ascending order. *)
Definition sorted_attribute {rt : PyRuntime} (k : string)
    (entry result : gmap string pyval) : Prop :=
  match entry !! k with
  | Some v => exists l, result !! k = Some (VList l) /\ sorted_ci l /\
                        Permutation (items v) l
  | None => result !! k = None
  end.

(** *** Entries the directory's schema allows *)

(** The attributes [get_user] rewrites or adds. *)
Definition processed_keys : list string :=
  [ "memberOf"; "showInAddressBook"; "lastLogonTimestamp"; "lockoutTime";
    "pwdLastSet"; "userAccountControl"; "disabled"; "passwordExpired";
    "passwordNeverExpires"; "smartcardRequired" ].

(** [P] holds of the value under [k], if there is one. *)
Definition attribute_is (P : pyval -> Prop) (k : string)
    (entry : gmap string pyval) : Prop :=
  forall v, entry !! k = Some v -> P v.

Definition integer_value (v : pyval) : Prop := exists n, py_int v = Ok n.

Section Schema.
Context {rt : PyRuntime}.

(** An interval timestamp: an integer that is 0 or falls inside the
    calendar. *)
Definition timestamp_value (v : pyval) : Prop :=
  exists raw, py_int v = Ok raw /\
    (raw = 0 \/ in_calendar (epoch_start + seconds_quotient raw (10 ^ 7))).

(** A user entry as the directory's schema types it: distinguished names
    for the two list attributes, interval timestamps, an integer for the
    account control. *)
Definition user_schema (entry : gmap string pyval) : Prop :=
  attribute_is sortable "memberOf" entry /\
  attribute_is sortable "showInAddressBook" entry /\
  attribute_is timestamp_value "lastLogonTimestamp" entry /\
  attribute_is timestamp_value "lockoutTime" entry /\
  attribute_is timestamp_value "pwdLastSet" entry /\
  attribute_is integer_value "userAccountControl" entry.

End Schema.

(** [needle] occurs somewhere in [hay]. *)
Definition occurs (needle hay : string) : Prop :=
  exists a b, hay = a +:+ needle +:+ b.

(** [sep.join(words)]. *)
Fixpoint join (sep : ascii) (words : list string) : string :=
  match words with
  | [] => EmptyString
  | [w] => w
  | w :: ws => w +:+ String sep (join sep ws)
  end.

(** [u] is what follows the last [sep] of [s], or all of [s] when it has
    none. *)
Definition after_last (sep : ascii) (s u : string) : Prop :=
  ~ occurs (String sep EmptyString) u /\
  (s = u \/ exists p, s = p +:+ String sep u).

(** A dictionary lacks the key or holds [None] under it. *)
Definition unset (d : gmap string cfgval) (k : string) : Prop :=
  d !! k = None \/ d !! k = Some CNone.

(** *** Sample data *)

Definition example_config : gmap string cfgval :=
  <["AD_SERVER" := CStr "dc1.example.com"]>
    (<["AD_DOMAIN" := CStr "example.com"]> ∅).

(** The same configuration with a base DN supplied. *)
Definition override_config : gmap string cfgval :=
  <["AD_BASE_DN" := CStr "ou=Staff,dc=example,dc=com"]> example_config.

(** [dict(username=..., password=...)]. *)
Definition credentials_of (username password : string) : gmap string cfgval :=
  <["password" := CStr password]> (<["username" := CStr username]> ∅).


(** A client on [example_config], as [EasyAD(example_config)] builds it. *)
Definition example_client : EasyAD.t :=
  {| EasyAD.config := <["AD_BASE_DN" := CStr "dc=example,dc=com"]> example_config;
     EasyAD.user_attributes := EasyAD.default_user_attributes;
     EasyAD.group_attributes := EasyAD.default_group_attributes |}.

(** A user whose last logon is 1970-01-01, in two groups, never locked out,
    disabled. *)
Definition example_user : gmap string (list string) :=
  list_to_map
    [ ("distinguishedName", ["CN=bob,OU=Staff,DC=example,DC=com"]);
      ("memberOf", ["CN=staff,DC=example,DC=com"; "cn=Admins,DC=example,DC=com"]);
      ("lastLogonTimestamp", ["116444736000000000"]);
      ("lockoutTime", ["0"]);
      ("pwdLastSet", ["131000000000000000"]);
      ("userAccountControl", ["514"]) ].

Definition example_group : gmap string (list string) :=
  list_to_map
    [ ("distinguishedName", ["CN=staff,DC=example,DC=com"]);
      ("member", ["CN=bob,OU=Staff,DC=example,DC=com";
                  "CN=alice,OU=Staff,DC=example,DC=com"]) ].

Definition example_user_results : list raw_result :=
  [ (Some "CN=bob,OU=Staff,DC=example,DC=com", RawDict example_user);
    (None, RawReferral ["ldap://forest.example.com/DC=example,DC=com"]) ].

Definition example_group_results : list raw_result :=
  [ (Some "CN=staff,DC=example,DC=com", RawDict example_group) ].

(** A directory that accepts the password ["secret"] only and answers a
    search for groups with the group and any other search with the user and
    a referral; the clock reads 2016-02-15T08:53:20. *)
Definition example_world : World :=
  {| ldap_bind_s := fun _ _ _ cred =>
       match cred with
       | CStr "secret" => None
       | _ => Some INVALID_CREDENTIALS
       end;
     ldap_search_s := fun _ _ _ filterstr _ =>
       if String.prefix "(&(objectClass=Group)" filterstr
       then inr example_group_results else inr example_user_results;
     datetime_now := fun _ => 13100000000000000 |}.

(** A user who is in one group only, and a group that has one member only. *)
Definition lone_user : gmap string (list string) :=
  list_to_map
    [ ("distinguishedName", ["CN=bob,OU=Staff,DC=example,DC=com"]);
      ("memberOf", ["CN=Staff,DC=x"]) ].

Definition lone_group : gmap string (list string) :=
  list_to_map
    [ ("distinguishedName", ["CN=Staff,DC=x"]);
      ("member", ["CN=bob,DC=x"]) ].

(** The directory of [example_world] holding these two. *)
Definition lone_world : World :=
  {| ldap_bind_s := ldap_bind_s example_world;
     ldap_search_s := fun _ _ _ filterstr _ =>
       if String.prefix "(&(objectClass=Group)" filterstr
       then inr [(Some "CN=Staff,DC=x", RawDict lone_group)]
       else inr [(Some "CN=bob,OU=Staff,DC=example,DC=com", RawDict lone_user)];
     datetime_now := datetime_now example_world |}.

(** The same directory with the server going down at every search. *)
Definition failing_world : World :=
  {| ldap_bind_s := ldap_bind_s example_world;
     ldap_search_s := fun _ _ _ _ _ => inl SERVER_DOWN;
     datetime_now := datetime_now example_world |}.

(** *** Vocabulary of the further properties *)

(** The identity and the password [bind] hands to [bind_s], for a
    configuration and the credentials the caller passed. *)
Definition bound_as (config : gmap string cfgval)
    (credentials : option (gmap string cfgval)) (who : string) (cred : cfgval)
    : Prop :=
  exists c, ADConnection.effective_credentials config credentials = Ok c /\
            ADConnection.bind_username config c = Ok who /\
            c !! "password" = Some cred.

(** An option set on connection [c]. *)
Definition is_option_on (c : nat) (ev : event) : Prop :=
  match ev with ESetOption c' _ _ => c' = c | _ => False end.

(** The calls of one session opened after the calls [h]: none when no
    connection could be created; otherwise the creation of the connection and
    its options, then nothing, or a bind that failed, or a bind that
    succeeded followed by one search with the given arguments, and the
    unbind last. *)
Definition session_calls (h : list event) (config : gmap string cfgval)
    (credentials : option (gmap string cfgval)) (base : libarg)
    (filterstr : string) (attrlist : list string) (evs : list event) : Prop :=
  evs = [] \/
  exists url options calls,
    let c := connections h in
    evs = EInitialize c url :: options ++ calls ++ [EUnbind c] /\
    Forall (is_option_on c) options /\
    (calls = [] \/
     (exists who cred e,
        bound_as config credentials who cred /\
        calls = [EBind c who cred (Some e)]) \/
     (exists who cred out,
        bound_as config credentials who cred /\
        calls = [EBind c who cred None;
                 ESearch c base filterstr attrlist out])).
(** The calls of one session opened after the calls [h] on the directory
    [W], as they must be: none when the configuration has no [AD_SERVER];
    otherwise [ldap.initialize] on the server's URL and the options of the
    new connection, then the calls of the bind and the search, and [unbind]
    last.  No bind is made when [bind] finds no identity or password to bind
    with; a bind the directory refuses is the only call; a bind it accepts
    is followed by the one search, which records the directory's answer. *)
Definition session_of (W : World) (h : list event)
    (config : gmap string cfgval) (credentials : option (gmap string cfgval))
    (base : libarg) (filterstr : string) (attrlist : list string)
    (evs : list event) : Prop :=
  match config !! "AD_SERVER" with
  | None => evs = []
  | Some server =>
    let c := connections h in
    let created := EInitialize c ("ldap://" +:+ py_format server) in
    exists options calls,
      Forall (is_option_on c) options /\
      evs = created :: options ++ calls ++ [EUnbind c] /\
      let h1 := h ++ created :: options in
      (((forall who cred, ~ bound_as config credentials who cred) /\
        calls = []) \/
       (exists who cred,
          bound_as config credentials who cred /\
          match ldap_bind_s W h1 c who cred with
          | Some e => calls = [EBind c who cred (Some e)]
          | None =>
            let bound := EBind c who cred None in
            calls = [bound;
                     ESearch c base filterstr attrlist
                       (ldap_search_s W (h1 ++ [bound]) c base filterstr
                          attrlist)]
          end))
  end.

(** Where the entry holds a list under [k], the result holds under [k] the
    same values in case-insensitive ascending order. *)
Definition sorted_list_attribute {rt : PyRuntime} (k : string)
    (entry result : gmap string pyval) : Prop :=
  forall l, entry !! k = Some (VList l) ->
    exists l', result !! k = Some (VList l') /\ sorted_ci l' /\
               Permutation l l'.

(** The values of an attribute of a decoded entry: the value itself when the
    normalizer unwrapped a list of one, the list otherwise. *)
Definition values_of (v : pyval) : list atom :=
  match v with
  | VAtom a => [a]
  | VList l => l
  | _ => []
  end.


(** [s.endswith(c)] for one character. *)
Fixpoint ends_with (c : ascii) (s : string) : bool :=
  match s with
  | EmptyString => false
  | String a EmptyString => Ascii.eqb a c
  | String _ r => ends_with c r
  end.

(** [s.count(c)] for one character. *)
Fixpoint count_char (c : ascii) (s : string) : nat :=
  match s with
  | EmptyString => 0%nat
  | String a r => ((if Ascii.eqb a c then 1 else 0) + count_char c r)%nat
  end.

(** The characters that have a meaning of their own in a search filter, the
    backslash apart: the parentheses, the asterisk and NUL. *)
Definition filter_specials : list ascii := ["("; ")"; "*"; "000"]%char.

(** The distinguished name a reference carries by itself, for which the
    resolvers make no lookup: the [distinguishedName] of a dictionary, or a
    string that starts with [cn=] in any case. *)
Definition given_dn (r : ref) : option pyval :=
  match r with
  | RefDict d => d !! "distinguishedName"
  | RefStr s => if String.prefix "cn=" (lower s) then Some (VAtom (Str s)) else None
  | RefOther => None
  end.
(** A reference that carries no distinguished name and cannot be looked up:
    neither a dictionary nor a string, or a dictionary without a
    [distinguishedName]. *)
Definition dead_reference (r : ref) : Prop :=
  match r with
  | RefDict d => d !! "distinguishedName" = None
  | RefStr _ => False
  | RefOther => True
  end.

(** What resolving such a reference raises, [what] being ["User"] or
    ["Group"]. *)
Definition reference_error (what : string) (r : ref) : exn :=
  match r with
  | RefDict _ => KeyError "distinguishedName"
  | _ => ValueError (what +:+ " passed as an unsupported data type")
  end.
(** *** Further sample data *)



(** Two groups, as a directory may return them: not in the order of their
    lowered names. *)
Definition example_membership_results : list raw_result :=
  [ (Some "CN=Staff,DC=example,DC=com",
     RawDict {["distinguishedName" := ["CN=Staff,DC=example,DC=com"]]});
    (Some "cn=admins,DC=example,DC=com",
     RawDict {["distinguishedName" := ["cn=admins,DC=example,DC=com"]]}) ].

(** The directory of [example_world] answering a search on the chained
    [member] rule with the two groups. *)
Definition membership_world : World :=
  {| ldap_bind_s := ldap_bind_s example_world;
     ldap_search_s := fun h c base filterstr attrlist =>
       if String.prefix "(member:" filterstr
       then inr example_membership_results
       else ldap_search_s example_world h c base filterstr attrlist;
     datetime_now := datetime_now example_world |}.

Definition bob_dn : string := "CN=bob,OU=Staff,DC=example,DC=com".

Definition staff_dn : string := "CN=staff,DC=example,DC=com".

(** * Properties *)

(** ** Timestamp codec *)

Lemma datetime_add_in_calendar d delta :
  in_calendar (d + delta) -> datetime_add d delta = Ok (d + delta).
Proof.
  intros [Hlo Hhi]. unfold datetime_add.
  destruct (Z.leb_spec datetime_min (d + delta)); [|lia].
  destruct (Z.leb_spec (d + delta) datetime_max); [|lia].
  reflexivity.
Qed.

Lemma datetime_add_overflow d delta :
  ~ in_calendar (d + delta) -> datetime_add d delta = Raise OverflowError.
Proof.
  intros Hout. unfold datetime_add, in_calendar in *.
  destruct (Z.leb_spec datetime_min (d + delta));
    destruct (Z.leb_spec (d + delta) datetime_max); simpl; try reflexivity.
  lia.
Qed.

Lemma datetime_add_inv d delta t :
  datetime_add d delta = Ok t -> t = d + delta /\ in_calendar t.
Proof.
  unfold datetime_add, in_calendar.
  destruct (Z.leb_spec datetime_min (d + delta));
    destruct (Z.leb_spec (d + delta) datetime_max); simpl;
    intros [= <-]; lia.
Qed.

Section CodecFacts.
Context {rt : PyRuntime}.

Lemma convert_ad_timestamp_unset timestamp json_safe str_format :
  py_int timestamp = Ok 0 ->
  convert_ad_timestamp timestamp json_safe str_format = Ok VNone.
Proof. intros H. unfold convert_ad_timestamp. rewrite H. reflexivity. Qed.

Lemma convert_ad_timestamp_set timestamp raw json_safe str_format :
  py_int timestamp = Ok raw -> raw <> 0 ->
  convert_ad_timestamp timestamp json_safe str_format =
  (t <- datetime_add epoch_start (seconds_quotient raw (10 ^ 7)) ;;
   if json_safe then Ok (VAtom (Str (strftime str_format t)))
   else Ok (VDatetime t)).
Proof.
  intros H Hnz. unfold convert_ad_timestamp. rewrite H. simpl.
  destruct (Z.eqb_spec raw 0); [contradiction|reflexivity].
Qed.

(** With [json_safe=False] the converter yields [None] or a [datetime]. *)
Lemma convert_ad_timestamp_native timestamp str_format v :
  convert_ad_timestamp timestamp false str_format = Ok v ->
  v = VNone \/ exists t, v = VDatetime t.
Proof.
  unfold convert_ad_timestamp.
  destruct (py_int timestamp) as [raw|]; simpl; [|discriminate].
  destruct (raw =? 0); [intros [= <-]; by left|].
  destruct (datetime_add _ _); simpl; [|discriminate].
  intros [= <-]. right. eauto.
Qed.

Lemma convert_ad_timestamp_datetime_inv timestamp str_format t :
  convert_ad_timestamp timestamp false str_format = Ok (VDatetime t) ->
  exists raw, py_int timestamp = Ok raw /\ raw <> 0 /\
              t = epoch_start + seconds_quotient raw (10 ^ 7) /\
              in_calendar t.
Proof.
  unfold convert_ad_timestamp.
  destruct (py_int timestamp) as [raw|]; simpl; [|discriminate].
  destruct (Z.eqb_spec raw 0); [discriminate|].
  destruct (datetime_add _ _) as [t'|] eqn:Hadd; simpl; [|discriminate].
  intros [= <-]. apply datetime_add_inv in Hadd as [-> Hcal].
  exists raw. repeat split; auto; apply Hcal.
Qed.

(** The value [2^63 - 1], which the directory uses for "never", is past the
    calendar under every runtime. *)
Lemma convert_ad_timestamp_never json_safe str_format :
  convert_ad_timestamp (VInt 9223372036854775807) json_safe str_format =
  Raise OverflowError.
Proof.
  rewrite (convert_ad_timestamp_set _ 9223372036854775807) by done.
  rewrite datetime_add_overflow; [reflexivity|].
  pose proof (seconds_quotient_floor 9223372036854775807 (10 ^ 7)
                ltac:(reflexivity)) as [Hlo _].
  unfold in_calendar, epoch_start, datetime_max, us_per_day, us_per_second.
  change (9223372036854775807 / 10 ^ 7 * 1000000) with 922337203685000000 in Hlo.
  lia.
Qed.

(** C9, amended.  [convert_ad_timestamp] returns [None] for the input 0.
    For a non-zero input whose quotient by 10,000,000, taken as seconds
    after 1601-01-01T00:00:00, falls inside the calendar of [datetime]
    (years 1 to 9999) it returns that time, as a [datetime] or, when
    [json_safe] is set, formatted; the time lies within the second that holds
    the exact quotient.  For a non-zero input outside the calendar it raises
    [OverflowError].  Over the non-zero inputs that decode, the result is
    monotonic. *)
Theorem convert_ad_timestamp_spec (str_format : string) :
  (forall timestamp json_safe,
     py_int timestamp = Ok 0 ->
     convert_ad_timestamp timestamp json_safe str_format = Ok VNone) /\
  (forall timestamp raw,
     py_int timestamp = Ok raw -> raw <> 0 ->
     in_calendar (epoch_start + seconds_quotient raw (10 ^ 7)) ->
     convert_ad_timestamp timestamp false str_format =
       Ok (VDatetime (epoch_start + seconds_quotient raw (10 ^ 7))) /\
     convert_ad_timestamp timestamp true str_format =
       Ok (VAtom (Str (strftime str_format
                         (epoch_start + seconds_quotient raw (10 ^ 7))))) /\
     raw / 10000000 * us_per_second <= seconds_quotient raw (10 ^ 7)
       <= (raw / 10000000 + 1) * us_per_second) /\
  (forall timestamp raw json_safe,
     py_int timestamp = Ok raw -> raw <> 0 ->
     ~ in_calendar (epoch_start + seconds_quotient raw (10 ^ 7)) ->
     convert_ad_timestamp timestamp json_safe str_format = Raise OverflowError) /\
  (forall ts1 ts2 raw1 raw2 t1 t2,
     py_int ts1 = Ok raw1 -> py_int ts2 = Ok raw2 ->
     raw1 <> 0 -> raw2 <> 0 -> raw1 <= raw2 ->
     convert_ad_timestamp ts1 false str_format = Ok (VDatetime t1) ->
     convert_ad_timestamp ts2 false str_format = Ok (VDatetime t2) ->
     t1 <= t2).
Proof.
  split; [|split; [|split]].
  - intros. by apply convert_ad_timestamp_unset.
  - intros timestamp raw Hint Hnz Hcal.
    rewrite !(convert_ad_timestamp_set _ raw) by done.
    rewrite datetime_add_in_calendar by done. simpl.
    repeat split; try apply (seconds_quotient_floor raw (10 ^ 7));
      reflexivity.
  - intros timestamp raw json_safe Hint Hnz Hout.
    rewrite (convert_ad_timestamp_set _ raw) by done.
    by rewrite datetime_add_overflow.
  - intros ts1 ts2 raw1 raw2 t1 t2 H1 H2 Hnz1 Hnz2 Hle Hc1 Hc2.
    apply convert_ad_timestamp_datetime_inv in Hc1 as (r1 & Hr1 & _ & -> & _).
    apply convert_ad_timestamp_datetime_inv in Hc2 as (r2 & Hr2 & _ & -> & _).
    rewrite H1 in Hr1. rewrite H2 in Hr2.
    injection Hr1 as <-. injection Hr2 as <-.
    pose proof (seconds_quotient_mono raw1 raw2 (10 ^ 7)
                  ltac:(reflexivity) Hle).
    lia.
Qed.

(** C7.  [_get_last_logon] returns the sentinel [-1] when the raw timestamp
    is unset (it is 0, which decodes to [None]); and whenever the decoded
    time lies 14 days or less before [now], it returns the text
    ["<= 14 days"] in place of the time, whatever [json_safe] is. *)
Theorem get_last_logon_spec (now : Z) (timestamp : pyval) (json_safe : bool) :
  (py_int timestamp = Ok 0 ->
   convert_ad_timestamp timestamp false "%x %X" = Ok VNone /\
   _get_last_logon now timestamp json_safe = Ok (VInt (-1))) /\
  (forall t,
     convert_ad_timestamp timestamp false "%x %X" = Ok (VDatetime t) ->
     now - t <= 14 * us_per_day ->
     _get_last_logon now timestamp json_safe = Ok (VAtom (Str "<= 14 days"))).
Proof.
  split.
  - intros H. unfold _get_last_logon.
    rewrite (convert_ad_timestamp_unset _ _ _ H). by split.
  - intros t Hconv Hrecent. unfold _get_last_logon. rewrite Hconv. simpl.
    assert ((now - t) / us_per_day <= 14) as Hdays.
    { apply Z.lt_succ_r, Z.div_lt_upper_bound;
        unfold us_per_day, us_per_second in *; lia. }
    destruct (Z.leb_spec ((now - t) / us_per_day) 14); [reflexivity|lia].
Qed.

(** Past the fifteenth day the [datetime] itself is returned, with or
    without [json_safe]. *)
Lemma get_last_logon_old now timestamp json_safe t :
  convert_ad_timestamp timestamp false "%x %X" = Ok (VDatetime t) ->
  15 * us_per_day <= now - t ->
  _get_last_logon now timestamp json_safe = Ok (VDatetime t).
Proof.
  intros Hconv Hold. unfold _get_last_logon. rewrite Hconv. simpl.
  assert (15 <= (now - t) / us_per_day) as Hdays.
  { apply Z.div_le_lower_bound; unfold us_per_day, us_per_second in *; lia. }
  destruct (Z.leb_spec ((now - t) / us_per_day) 14); [lia|].
  by destruct json_safe.
Qed.

End CodecFacts.

(** ** Result normalizer *)

Lemma decode_attribute_normalized json_safe values :
  normalized_attribute json_safe values (decode_attribute json_safe values).
Proof.
  unfold normalized_attribute, decode_attribute.
  destruct values as [|x [|y values]]; simpl.
  - exists []. split; [done|]. split; [done|]. intros i x Hi. by destruct i.
  - reflexivity.
  - eexists. split; [reflexivity|]. split.
    + simpl. by rewrite length_map.
    + intros i z Hi.
      change (map (decode_value json_safe) (x :: y :: values) !! i =
              Some (decode_value json_safe z)).
      rewrite list_lookup_fmap. by rewrite Hi.
Qed.

Lemma decode_entry_normalized json_safe dn d :
  normalized_entry json_safe (dn, RawDict d) (decode_attribute json_safe <$> d).
Proof.
  exists d. split; [reflexivity|]. intros k. rewrite lookup_fmap.
  destruct (d !! k) as [values|]; simpl; [|done].
  eexists. split; [reflexivity|]. apply decode_attribute_normalized.
Qed.

(** C6.  [decode_ldap_results] keeps exactly the raw results whose second
    component is a dictionary, in their input order; every attribute of a
    kept entry is present in the result, where a single value has become a
    bare scalar and N values (N other than 1) are still a list of N values in
    the order the server returned them. *)
Theorem decode_ldap_results_spec (results : list raw_result)
    (json_safe : bool) :
  Forall2 (normalized_entry json_safe)
          (List.filter is_dict results)
          (decode_ldap_results results json_safe).
Proof.
  unfold decode_ldap_results.
  induction results as [|[dn payload] results IH]; simpl; [constructor|].
  destruct payload as [d|urls]; unfold is_dict, as_dict; simpl.
  - constructor; [apply decode_entry_normalized|apply IH].
  - apply IH.
Qed.

(** ** Strings *)

Lemma append_cons (x : ascii) (a b : string) :
  String x a +:+ b = String x (a +:+ b).
Proof. reflexivity. Qed.

Lemma append_empty_l (a : string) : "" +:+ a = a.
Proof. reflexivity. Qed.

Lemma append_assoc (a b c : string) : (a +:+ b) +:+ c = a +:+ b +:+ c.
Proof.
  induction a as [|x a IH]; [done|]. rewrite !append_cons. by f_equal.
Qed.

Lemma append_empty_r (a : string) : a +:+ "" = a.
Proof. induction a as [|x a IH]; [done|]. rewrite append_cons. by f_equal. Qed.

Lemma prefix_spec (s1 s2 : string) :
  String.prefix s1 s2 = true <-> exists r, s2 = s1 +:+ r.
Proof.
  revert s1. induction s2 as [|b s2 IH]; intros [|a s1]; simpl.
  - split; [by exists ""|done].
  - split; [done|]. by intros [r Hr].
  - split; [by eexists|done].
  - destruct (ascii_dec a b) as [->|Hne].
    + rewrite IH. split; intros [r Hr]; exists r.
      * rewrite append_cons. by f_equal.
      * rewrite append_cons in Hr. by injection Hr.
    + split; [done|]. intros [r Hr]. rewrite append_cons in Hr. congruence.
Qed.

Lemma contains_nil (needle : string) :
  contains needle "" = String.prefix needle "" || false.
Proof. reflexivity. Qed.

Lemma contains_cons (needle : string) (c : ascii) (hay : string) :
  contains needle (String c hay) =
  String.prefix needle (String c hay) || contains needle hay.
Proof. reflexivity. Qed.

Lemma contains_spec (needle hay : string) :
  contains needle hay = true <-> occurs needle hay.
Proof.
  unfold occurs. induction hay as [|c hay IH];
    [rewrite contains_nil|rewrite contains_cons].
  - rewrite orb_false_r, prefix_spec. split.
    + intros [r Hr]. by exists "", r.
    + intros ([|x a] & b & H); [by exists b|discriminate].
  - rewrite orb_true_iff, prefix_spec, IH. split.
    + intros [[r Hr]|(a & b & H)].
      * by exists "", r.
      * exists (String c a), b. rewrite append_cons. by f_equal.
    + intros ([|x a] & b & H).
      * left. by exists b.
      * right. rewrite append_cons in H. injection H as -> ->. by exists a, b.
Qed.

Lemma contains_false (needle hay : string) :
  contains needle hay = false <-> ~ occurs needle hay.
Proof.
  rewrite <- contains_spec. by destruct (contains needle hay).
Qed.

Lemma split_nonempty sep s : split sep s <> [].
Proof.
  destruct s as [|c s]; simpl; [done|].
  destruct (Ascii.eqb c sep); [done|]. by destruct (split sep s).
Qed.

Lemma split_join sep s : join sep (split sep s) = s.
Proof.
  induction s as [|c s IH]; simpl; [done|].
  pose proof (split_nonempty sep s) as Hne.
  destruct (Ascii.eqb_spec c sep) as [->|Hc].
  - destruct (split sep s) as [|w ws]; [done|].
    change (join sep ("" :: w :: ws)) with (String sep (join sep (w :: ws))).
    by rewrite IH.
  - destruct (split sep s) as [|w ws]; [done|].
    destruct ws as [|w' ws]; simpl in *; by rewrite <- IH.
Qed.

Lemma split_words sep s :
  Forall (fun w => ~ occurs (String sep "") w) (split sep s).
Proof.
  induction s as [|c s IH]; simpl.
  - constructor; [|constructor]. by intros ([|x a] & b & H).
  - destruct (Ascii.eqb_spec c sep) as [->|Hc].
    + constructor; [|done]. by intros ([|x a] & b & H).
    + pose proof (split_nonempty sep s) as Hne.
      destruct (split sep s) as [|w ws]; [done|].
      inversion IH as [|? ? Hw Hws]; subst. constructor; [|done].
      intros ([|x a] & b & H); simpl in H.
      * injection H as -> _. done.
      * injection H as -> ->. apply Hw. by exists a, b.
Qed.

Lemma join_last sep ws :
  ws <> [] ->
  join sep ws = List.last ws "" \/
  exists p, join sep ws = p +:+ String sep (List.last ws "").
Proof.
  induction ws as [|w ws IH]; [done|]. intros _.
  destruct ws as [|w' ws]; [by left|].
  right. destruct IH as [IH|[p IH]]; [done| |].
  - exists w. change (join sep (w :: w' :: ws))
        with (w +:+ String sep (join sep (w' :: ws))).
    by rewrite IH.
  - exists (w +:+ String sep p).
    change (join sep (w :: w' :: ws))
      with (w +:+ String sep (join sep (w' :: ws))).
    rewrite IH, append_assoc. reflexivity.
Qed.

Lemma last_Forall {A} (P : A -> Prop) (l : list A) d :
  l <> [] -> Forall P l -> P (List.last l d).
Proof.
  induction l as [|x l IH]; [done|]. intros _ Hall.
  inversion Hall; subst. destruct l as [|y l]; [done|].
  apply IH; done.
Qed.

(** [s.split(sep)[-1]] is what follows the last separator. *)
Lemma split_last_after_last sep s :
  after_last sep s (last_item (split sep s) "").
Proof.
  unfold after_last, last_item.
  pose proof (split_nonempty sep s) as Hne. split.
  - apply (last_Forall (fun w => ~ occurs (String sep "") w));
      [done|apply split_words].
  - pose proof (join_last sep (split sep s) Hne) as H.
    by rewrite split_join in H.
Qed.

(** ** Running a computation *)

Lemma and_then_lift_ok {A B} (a : A) (f : A -> M B) h :
  and_then (lift (Ok a)) f h = f a h.
Proof. unfold and_then, lift. rewrite app_nil_r. by destruct (f a h). Qed.

Lemma and_then_lift_raise {A B} (e : exn) (f : A -> M B) h :
  and_then (lift (Raise e)) f h = (Raise e, []).
Proof. reflexivity. Qed.

Lemma and_then_ret {A B} (a : A) (f : A -> M B) h :
  and_then (ret a) f h = f a h.
Proof. apply and_then_lift_ok. Qed.

Lemma and_then_past {B} (f : list event -> M B) h :
  and_then past f h = f h h.
Proof. unfold and_then, past. rewrite app_nil_r. by destruct (f h h). Qed.

Lemma and_then_emit {B} (ev : event) (f : unit -> M B) h :
  and_then (emit ev) f h =
  (let '(r, e) := f tt (h ++ [ev]) in (r, ev :: e)).
Proof. reflexivity. Qed.

(** ** Connection wrapper: credentials and the bind identity *)

Lemma bind_username_eq config credentials name domain :
  credentials !! "username" = Some (CStr name) ->
  config !! "AD_DOMAIN" = Some (CStr domain) ->
  ADConnection.bind_username config credentials =
  Ok (let u := last_item (split "\" name) "" in
      if negb (contains "@" u) && negb (contains "cn=" (lower u))
      then u +:+ "@" +:+ domain else u).
Proof.
  intros Hu Hd. unfold ADConnection.bind_username, getitem.
  rewrite Hu, Hd. simpl.
  by destruct (negb _ && negb _).
Qed.

(** C4, amended.  The bind identity is built from the part of the username
    after its last backslash.  When that part contains no ['@'] and does not
    contain ['cn='] anywhere (compared in lower case), ['@'] and the
    configured domain are appended; otherwise it is passed as it is.  With
    the domain [example.com], [DOMAIN\bob] binds as [bob@example.com], and
    [cn=admin,dc=example,dc=com] and [bob@example.com] are unchanged. *)
Theorem bind_username_spec :
  (forall (config credentials : gmap string cfgval) (name domain : string),
     credentials !! "username" = Some (CStr name) ->
     config !! "AD_DOMAIN" = Some (CStr domain) ->
     exists u, after_last "\" name u /\
       (occurs "@" u \/ occurs "cn=" (lower u) ->
        ADConnection.bind_username config credentials = Ok u) /\
       (~ occurs "@" u -> ~ occurs "cn=" (lower u) ->
        ADConnection.bind_username config credentials =
        Ok (u +:+ "@" +:+ domain))) /\
  (forall password,
     ADConnection.bind_username example_config
       (credentials_of "DOMAIN\bob" password) = Ok "bob@example.com" /\
     ADConnection.bind_username example_config
       (credentials_of "cn=admin,dc=example,dc=com" password) =
       Ok "cn=admin,dc=example,dc=com" /\
     ADConnection.bind_username example_config
       (credentials_of "bob@example.com" password) = Ok "bob@example.com").
Proof.
  split.
  - intros config credentials name domain Hu Hd.
    exists (last_item (split "\" name) ""). split; [|split].
    + apply split_last_after_last.
    + intros Hocc. rewrite (bind_username_eq _ _ name domain) by done.
      cbv zeta. rewrite <- !contains_spec in Hocc.
      destruct Hocc as [-> | ->]; [done|]. by rewrite andb_false_r.
    + intros H1 H2. rewrite (bind_username_eq _ _ name domain) by done.
      cbv zeta. apply contains_false in H1, H2. by rewrite H1, H2.
  - intros password. split; [|split]; reflexivity.
Qed.

(** The claim as first stated tests for a ['cn='] prefix.  A distinguished
    name that starts with another attribute has no such prefix and no
    ['@'], and is passed to the library without the domain. *)
Lemma bind_username_prefix_counterexample :
  ~ (forall (config credentials : gmap string cfgval) (name domain u : string),
       credentials !! "username" = Some (CStr name) ->
       config !! "AD_DOMAIN" = Some (CStr domain) ->
       after_last "\" name u ->
       ~ occurs "@" u ->
       String.prefix "cn=" (lower u) = false ->
       ADConnection.bind_username config credentials =
       Ok (u +:+ "@" +:+ domain)).
Proof.
  intros Hclaim.
  specialize (Hclaim example_config
                (credentials_of "uid=bob,cn=users,dc=example,dc=com" "pw")
                "uid=bob,cn=users,dc=example,dc=com" "example.com"
                "uid=bob,cn=users,dc=example,dc=com").
  rewrite (bind_username_eq _ _ "uid=bob,cn=users,dc=example,dc=com"
             "example.com") in Hclaim by done.
  assert (Ok "uid=bob,cn=users,dc=example,dc=com" =
          Ok ("uid=bob,cn=users,dc=example,dc=com" +:+ "@" +:+ "example.com"))
    as Habs; [|discriminate Habs].
  apply Hclaim; try done.
  - split; [by apply contains_false|by left].
  - by apply contains_false.
Qed.

Lemma has_key_true {V} (d : gmap string V) k v :
  d !! k = Some v -> has_key d k = true.
Proof. intros H. unfold has_key. apply bool_decide_eq_true. by rewrite H. Qed.

Lemma has_key_false {V} (d : gmap string V) k :
  d !! k = None -> has_key d k = false.
Proof.
  intros H. unfold has_key. apply bool_decide_eq_false. rewrite H.
  by intros [v Hv].
Qed.

Lemma missing_or_none_unset d k : missing_or_none d k = true <-> unset d k.
Proof.
  unfold missing_or_none, unset.
  destruct (d !! k) as [[| |]|]; simpl; split; intros H; auto;
    try discriminate; destruct H; congruence.
Qed.




(** ** Client construction *)

(** C5.  Without [AD_BASE_DN] in the configuration, [EasyAD(config)] stores
    the base DN derived from the domain, [dc=example,dc=com] for
    [example.com].  With [AD_BASE_DN] supplied, the constructor reads
    [config["BASE_DN"]]; a configuration that has no such key makes it raise
    [KeyError] instead of keeping the supplied value. *)
Theorem init_base_dn_override_raises (config : gmap string cfgval)
    (domain : string) :
  config !! "AD_DOMAIN" = Some (CStr domain) ->
  (config !! "AD_BASE_DN" = None ->
   exists self, EasyAD.init config = Ok self /\
     EasyAD.config self
     = <["AD_BASE_DN" := CStr (EasyAD.derive_base_dn domain)]> config) /\
  (forall v, config !! "AD_BASE_DN" = Some v -> config !! "BASE_DN" = None ->
             EasyAD.init config = Raise (KeyError "BASE_DN")) /\
  EasyAD.derive_base_dn "example.com" = "dc=example,dc=com".
Proof.
  intros Hd. unfold EasyAD.init, getitem. rewrite Hd. simpl.
  split; [|split].
  - intros Hnone. rewrite (has_key_false _ _ Hnone). simpl. by eexists.
  - intros v Hsome Hno. rewrite (has_key_true _ _ _ Hsome). simpl.
    by rewrite Hno.
  - reflexivity.
Qed.

(** ** Results that are no library error *)

Create HintDb builtin.

Lemma builtin_ok {A} (a : A) : builtin (Ok a).
Proof. intros e. discriminate. Qed.

Lemma builtin_rbind {A B} (r : result A) (f : A -> result B) :
  builtin r -> (forall a, builtin (f a)) -> builtin (rbind r f).
Proof.
  intros Hr Hf e. destruct r as [a|x]; simpl; [apply Hf|].
  intros [= Hx]. by apply (Hr e); rewrite Hx.
Qed.

Ltac builtin_step :=
  first [ apply builtin_ok
        | solve [eauto with builtin]
        | apply builtin_rbind; [|intros ?]
        | (intros ?; discriminate)
        | case_match ].

Ltac solve_builtin := intros; repeat builtin_step.

Lemma builtin_getitem {V} (d : gmap string V) k : builtin (getitem d k).
Proof. unfold getitem. solve_builtin. Qed.

Lemma builtin_cfg_text v : builtin (cfg_text v).
Proof. unfold cfg_text. solve_builtin. Qed.

Lemma builtin_py_int v : builtin (py_int v).
Proof. unfold py_int, int_literal_error. solve_builtin. Qed.

Lemma builtin_sort_atoms {rt : PyRuntime} l : builtin (sort_atoms l).
Proof. unfold sort_atoms. solve_builtin. Qed.

Lemma builtin_sorted_lower {rt : PyRuntime} v : builtin (sorted_lower v).
Proof. unfold sorted_lower. pose proof builtin_sort_atoms. solve_builtin. Qed.

Lemma builtin_datetime_add d delta : builtin (datetime_add d delta).
Proof. unfold datetime_add. solve_builtin. Qed.

#[global] Hint Resolve builtin_getitem builtin_cfg_text builtin_py_int
  builtin_sort_atoms builtin_sorted_lower builtin_datetime_add : builtin.

Lemma builtin_mapM {A B} (f : A -> result B) l :
  (forall x, builtin (f x)) -> builtin (mapM f l).
Proof. intros Hf. induction l as [|x l IH]; simpl; solve_builtin. Qed.

Lemma builtin_sort_values {rt : PyRuntime} l : builtin (sort_values l).
Proof.
  unfold sort_values. apply builtin_rbind; [|solve_builtin].
  apply builtin_mapM. solve_builtin.
Qed.

Lemma builtin_escape_value v : builtin (escape_value v).
Proof. unfold escape_value. solve_builtin. Qed.

Lemma builtin_update_if_present k f d :
  (forall v, builtin (f v)) -> builtin (update_if_present k f d).
Proof. intros Hf. unfold update_if_present. solve_builtin. Qed.

Lemma builtin_sort_if_present {rt : PyRuntime} k d :
  builtin (sort_if_present k d).
Proof.
  unfold sort_if_present. apply builtin_update_if_present. solve_builtin.
Qed.

Lemma builtin_effective_credentials config credentials :
  builtin (ADConnection.effective_credentials config credentials).
Proof. unfold ADConnection.effective_credentials. solve_builtin. Qed.

Lemma builtin_bind_username config credentials :
  builtin (ADConnection.bind_username config credentials).
Proof. unfold ADConnection.bind_username. solve_builtin. Qed.

Lemma builtin_base_or_default self base :
  builtin (EasyAD.base_or_default self base).
Proof. unfold EasyAD.base_or_default. solve_builtin. Qed.

Lemma builtin_decode_account_control user :
  builtin (EasyAD.decode_account_control user).
Proof. unfold EasyAD.decode_account_control. solve_builtin. Qed.

#[global] Hint Resolve builtin_sort_values builtin_escape_value
  builtin_sort_if_present builtin_effective_credentials
  builtin_bind_username builtin_base_or_default
  builtin_decode_account_control : builtin.

Section BuiltinCodec.
Context {rt : PyRuntime}.

Lemma builtin_convert_ad_timestamp v json_safe str_format :
  builtin (convert_ad_timestamp v json_safe str_format).
Proof. unfold convert_ad_timestamp. solve_builtin. Qed.

Lemma builtin_get_last_logon now v json_safe :
  builtin (_get_last_logon now v json_safe).
Proof.
  unfold _get_last_logon. pose proof builtin_convert_ad_timestamp.
  solve_builtin.
Qed.

Lemma builtin_process_user now json_safe user :
  builtin (EasyAD.process_user now json_safe user).
Proof.
  unfold EasyAD.process_user.
  pose proof builtin_convert_ad_timestamp. pose proof builtin_get_last_logon.
  repeat (apply builtin_rbind;
          [first [apply builtin_sort_if_present
                 |apply builtin_update_if_present; auto]|intros ?]).
  apply builtin_decode_account_control.
Qed.

Lemma builtin_unique {A} what (results : list A) :
  builtin (EasyAD.unique what results).
Proof. unfold EasyAD.unique. solve_builtin. Qed.

Lemma builtin_first {A} (results : list A) : builtin (EasyAD.first results).
Proof. unfold EasyAD.first. solve_builtin. Qed.

Lemma builtin_sorted_dns results json_safe :
  builtin (EasyAD.sorted_dns results json_safe).
Proof.
  unfold EasyAD.sorted_dns. apply builtin_rbind; [|solve_builtin].
  apply builtin_mapM. solve_builtin.
Qed.

End BuiltinCodec.

#[global] Hint Resolve builtin_convert_ad_timestamp builtin_get_last_logon
  builtin_process_user builtin_unique builtin_first builtin_sorted_dns
  : builtin.

(** ** Traces *)

Lemma opened_app a b : opened (a ++ b) = opened a ++ opened b.
Proof. apply omap_app. Qed.

Lemma unbinds_app c a b : unbinds c (a ++ b) = (unbinds c a + unbinds c b)%nat.
Proof. unfold unbinds. by rewrite List.filter_app, length_app. Qed.

Lemma failures_app a b : failures (a ++ b) = failures a ++ failures b.
Proof. apply omap_app. Qed.

Lemma connections_opened h : connections h = length (opened h).
Proof.
  unfold connections, opened. induction h as [|ev h IH]; [done|].
  rewrite filter_cons.
  destruct ev; simpl; try case_decide; try done; simpl; by rewrite ?IH.
Qed.

Lemma searched_app evs1 evs2 results :
  searched (evs1 ++ evs2) results <->
  searched evs1 results \/ searched evs2 results.
Proof.
  unfold searched. split.
  - intros (c & b & f & a & Hin). apply in_app_or in Hin as [Hin|Hin];
      [left|right]; eauto 6.
  - intros [(c & b & f & a & Hin)|(c & b & f & a & Hin)];
      exists c, b, f, a; apply in_or_app; auto.
Qed.

Lemma calls_opened c evs : Forall (is_call_on c) evs -> opened evs = [].
Proof.
  induction 1 as [|ev evs Hev _ IH]; [done|]. by destruct ev.
Qed.

Lemma calls_unbinds c c' evs :
  Forall (is_call_on c) evs -> unbinds c' evs = 0%nat.
Proof.
  unfold unbinds. induction 1 as [|ev evs Hev _ IH]; [done|]. by destruct ev.
Qed.

Lemma calls_conn_of c evs :
  Forall (is_call_on c) evs -> Forall (fun ev => conn_of ev = c) evs.
Proof. intros H. eapply Forall_impl; [exact H|]. by intros []. Qed.

Lemma released_app h e1 e2 :
  released h e1 -> released (h ++ e1) e2 -> released h (e1 ++ e2).
Proof.
  intros (Ho1 & Hu1 & Hc1) (Ho2 & Hu2 & Hc2).
  rewrite connections_opened, opened_app, length_app in Ho2.
  rewrite <- connections_opened in Ho2.
  split; [|split].
  - rewrite opened_app, length_app, seq_app. by rewrite <- Ho1, <- Ho2.
  - intros c. rewrite unbinds_app, Hu1, Hu2, opened_app.
    assert (c ∈ opened e1 -> c ∈ opened e2 -> False) as Hdisj.
    { rewrite Ho1, Ho2. rewrite !elem_of_seq. lia. }
    repeat case_bool_decide; try done; exfalso;
      rewrite elem_of_app in *; tauto.
  - rewrite opened_app. apply Forall_app. split.
    + eapply Forall_impl; [exact Hc1|]. intros ev Hev. apply elem_of_app. auto.
    + eapply Forall_impl; [exact Hc2|]. intros ev Hev. apply elem_of_app. auto.
Qed.

Lemma released_nil h : released h [].
Proof. repeat split. constructor. Qed.

Lemma faithful_builtin {A} (r : result A) : builtin r -> faithful r [].
Proof. intros H. exact H. Qed.

Lemma faithful_ok_inv {A} (a : A) evs : faithful (Ok a) evs -> failures evs = [].
Proof.
  unfold faithful. destruct (failures evs) as [|e [|e' l]]; try done.
Qed.

Lemma faithful_app_l {A} (r : result A) e1 e2 :
  failures e1 = [] -> faithful r e2 -> faithful r (e1 ++ e2).
Proof. intros H1 H2. unfold faithful. by rewrite failures_app, H1. Qed.

Lemma faithful_app_r {A} (r : result A) e1 e2 :
  failures e2 = [] -> faithful r e1 -> faithful r (e1 ++ e2).
Proof.
  intros H2 H1. unfold faithful. by rewrite failures_app, H2, app_nil_r.
Qed.

Lemma faithful_raise {A B} x evs :
  faithful (@Raise A x) evs -> faithful (@Raise B x) evs.
Proof.
  unfold faithful. destruct (failures evs) as [|e [|e' l]]; try done.
  - intros H e [= ->]. by apply (H e).
  - by intros [= ->].
Qed.

(** The library raised [e] and the outcome is faithful: the outcome is
    [e]. *)
Lemma faithful_failure {A} (r : result A) evs e :
  faithful r evs -> In e (failures evs) -> r = Raise (LDAPError e).
Proof.
  unfold faithful. destruct (failures evs) as [|e1 [|e2 l]]; try done.
  intros -> [->|[]]. reflexivity.
Qed.

(** ** A logic of computations *)

Lemma calm_lift {A} c (r : result A) : builtin r -> calm c (lift r).
Proof. intros Hr h r' evs [= <- <-]. by split. Qed.

Lemma calm_ret {A} c (a : A) : calm c (ret a).
Proof. apply (calm_lift c (Ok a)), builtin_ok. Qed.

Lemma calm_past c : calm c past.
Proof. intros h r evs [= <- <-]. split; [constructor|]. by intros e. Qed.

Lemma calm_and_then {A B} c (m : M A) (f : A -> M B) :
  calm c m -> (forall a, calm c (f a)) -> calm c (and_then m f).
Proof.
  intros Hm Hf h r evs. unfold and_then.
  destruct (m h) as [r1 e1] eqn:Em. apply Hm in Em as (Hc1 & Hf1).
  destruct r1 as [a|x].
  - destruct (f a (h ++ e1)) as [r2 e2] eqn:Ef.
    apply Hf in Ef as (Hc2 & Hf2). intros [= <- <-].
    split; [by apply Forall_app|].
    apply faithful_app_l; [by eapply faithful_ok_inv|done].
  - intros [= <- <-]. split; [done|]. by eapply faithful_raise.
Qed.

(** A computation that makes no call at all. *)
Lemma sound_lift {A} (r : result A) : builtin r -> sound (lift r).
Proof. intros Hr h r' evs [= <- <-]. split; [apply released_nil|done]. Qed.

Lemma sound_and_then {A B} (m : M A) (f : A -> M B) :
  sound m -> (forall a, sound (f a)) -> sound (and_then m f).
Proof.
  intros Hm Hf h r evs. unfold and_then.
  destruct (m h) as [r1 e1] eqn:Em. apply Hm in Em as (Hr1 & Hf1).
  destruct r1 as [a|x].
  - destruct (f a (h ++ e1)) as [r2 e2] eqn:Ef.
    apply Hf in Ef as (Hr2 & Hf2). intros [= <- <-]. split.
    + by apply released_app.
    + apply faithful_app_l; [by eapply faithful_ok_inv|done].
  - intros [= <- <-]. split; [done|]. by eapply faithful_raise.
Qed.

Section Calls.
Context (W : World).

Lemma calm_bind_s self credentials :
  calm (ADConnection.ad self) (ADConnection.bind W self credentials).
Proof.
  unfold ADConnection.bind.
  apply calm_and_then; [apply calm_lift; auto with builtin|intros c].
  apply calm_and_then; [apply calm_lift; auto with builtin|intros u].
  apply calm_and_then; [apply calm_lift; auto with builtin|intros p].
  intros h r evs. rewrite and_then_past, and_then_emit.
  destruct (ldap_bind_s W h _ u p) as [e|] eqn:Hout;
    intros [= <- <-]; (split; [by repeat constructor|]);
    unfold faithful, failures; simpl; try done.
Qed.

Lemma calm_search_s self base filterstr attrlist :
  calm (ADConnection.ad self)
       (ADConnection.search_s W self base filterstr attrlist).
Proof.
  unfold ADConnection.search_s.
  intros h r evs. rewrite and_then_past, and_then_emit.
  destruct (ldap_search_s W h _ base filterstr attrlist) as [e|results]
    eqn:Hout; intros [= <- <-]; (split; [by repeat constructor|]);
    unfold faithful, failures; simpl; try done.
Qed.

End Calls.

(** What creating a connection leaves in the trace. *)
Lemma init_run config h r e0 :
  ADConnection.init config h = (r, e0) ->
  (r = Raise (KeyError "AD_SERVER") /\ e0 = []) \/
  (exists conn, r = Ok conn /\ ADConnection.ad conn = connections h /\
     ADConnection.config conn = config /\
     opened e0 = [connections h] /\ (forall c, unbinds c e0 = 0%nat) /\
     Forall (fun ev => conn_of ev = connections h) e0 /\
     failures e0 = [] /\ (forall results, ~ searched e0 results)).
Proof.
  unfold ADConnection.init, getitem.
  destruct (config !! "AD_SERVER") as [server|]; simpl;
    [|intros [= <- <-]; by left].
  rewrite and_then_lift_ok, and_then_past.
  unfold and_then, emit, ret, lift. simpl.
  intros Hrun. right.
  repeat case_match; simplify_eq; eexists; (split; [reflexivity|]);
    repeat split; try done; try (by repeat constructor);
    intros results (? & ? & ? & ? & Hin); simpl in Hin;
    intuition discriminate.
Qed.

(** [connection = ADConnection(config)] followed by [try: body finally:
    connection.unbind()] releases the connection it creates. *)
Lemma sound_connection {A} config (body : ADConnection.t -> M A) :
  (forall conn, calm (ADConnection.ad conn) (body conn)) ->
  sound (conn <~ ADConnection.init config ;;
         try_finally (body conn) (ADConnection.unbind conn)).
Proof.
  intros Hbody h r evs. unfold and_then.
  destruct (ADConnection.init config h) as [r0 e0] eqn:Einit.
  apply init_run in Einit
    as [[-> ->]|(conn & -> & Had & _ & Ho & Hu & Hc & Hf & _)].
  - intros [= <- <-]. split; [apply released_nil|]. by intros e.
  - unfold try_finally, ADConnection.unbind, emit.
    destruct (body conn (h ++ e0)) as [rb eb] eqn:Eb.
    apply Hbody in Eb as (Hcb & Hfb). intros [= <- <-].
    pose proof (calls_opened _ _ Hcb) as Hob.
    assert (opened (e0 ++ eb ++ [EUnbind (ADConnection.ad conn)])
            = [connections h]) as Hopen.
    { by rewrite !opened_app, Ho, Hob. }
    split; [split; [|split]|].
    + by rewrite Hopen.
    + intros c.
      rewrite Hopen, !unbinds_app, Hu, (calls_unbinds _ _ _ Hcb), Had.
      unfold unbinds. simpl.
      destruct (Nat.eqb_spec c (connections h)) as [->|Hne]; simpl.
      * rewrite bool_decide_eq_true_2; [done|]. apply list_elem_of_singleton.
        done.
      * rewrite bool_decide_eq_false_2; [done|].
        by rewrite list_elem_of_singleton.
    + rewrite Hopen. apply calls_conn_of in Hcb. rewrite Had in Hcb.
      rewrite !Forall_app. repeat split.
      * eapply Forall_impl; [exact Hc|]. intros ev ->.
        by apply list_elem_of_singleton.
      * eapply Forall_impl; [exact Hcb|]. intros ev ->.
        by apply list_elem_of_singleton.
      * constructor; [|constructor]. simpl. rewrite Had.
        by apply list_elem_of_singleton.
    + apply faithful_app_l; [done|]. by apply faithful_app_r.
Qed.

(** ** The operations of the client *)

Ltac calm_step :=
  first [ apply calm_bind_s
        | apply calm_search_s
        | apply calm_past
        | apply calm_ret
        | apply calm_lift; solve [auto with builtin]
        | apply calm_and_then; [|intros ?] ].

Ltac sound_pure := apply sound_lift; solve [auto with builtin].

Section OperationFacts.
Context {rt : PyRuntime} (W : World).

Lemma sound_get_user self user_string base credentials attributes json_safe :
  sound (EasyAD.get_user W self user_string base credentials attributes
           json_safe).
Proof.
  unfold EasyAD.get_user.
  apply sound_and_then; [sound_pure|intros b].
  apply sound_connection. intros conn. repeat calm_step.
Qed.

Lemma sound_get_group self group_string base credentials attributes json_safe :
  sound (EasyAD.get_group W self group_string base credentials attributes
           json_safe).
Proof.
  unfold EasyAD.get_group.
  apply sound_and_then; [sound_pure|intros b].
  apply sound_and_then.
  { apply sound_connection. intros conn. repeat calm_step. }
  intros results. apply sound_and_then; [sound_pure|intros group].
  sound_pure.
Qed.

Lemma sound_resolve_user_dn self user base credentials json_safe :
  sound (EasyAD.resolve_user_dn W self user base credentials json_safe).
Proof.
  unfold EasyAD.resolve_user_dn. destruct user as [d|s|].
  - sound_pure.
  - destruct (negb _).
    + apply sound_and_then; [apply sound_get_user|intros u]. sound_pure.
    + apply (sound_lift (Ok _)), builtin_ok.
  - apply (sound_lift (Raise _)). by intros e.
Qed.

Lemma sound_resolve_group_dn self group base credentials json_safe :
  sound (EasyAD.resolve_group_dn W self group base credentials json_safe).
Proof.
  unfold EasyAD.resolve_group_dn. destruct group as [d|s|].
  - sound_pure.
  - destruct (negb _).
    + apply sound_and_then; [apply sound_get_group|intros g]. sound_pure.
    + apply (sound_lift (Ok _)), builtin_ok.
  - apply (sound_lift (Raise _)). by intros e.
Qed.

Lemma sound_get_all_user_groups self user base credentials json_safe :
  sound (EasyAD.get_all_user_groups W self user base credentials json_safe).
Proof.
  unfold EasyAD.get_all_user_groups.
  apply sound_and_then; [apply sound_resolve_user_dn|intros dn].
  apply sound_and_then; [sound_pure|intros b].
  apply sound_and_then; [sound_pure|intros escaped].
  apply sound_connection. intros conn. repeat calm_step.
Qed.

Lemma sound_get_all_users_in_group self group base credentials json_safe :
  sound (EasyAD.get_all_users_in_group W self group base credentials
           json_safe).
Proof.
  unfold EasyAD.get_all_users_in_group.
  apply sound_and_then; [apply sound_resolve_group_dn|intros dn].
  apply sound_and_then; [sound_pure|intros b].
  apply sound_and_then; [sound_pure|intros escaped].
  apply sound_connection. intros conn. repeat calm_step.
Qed.

Lemma sound_user_is_member_of_group self user group base credentials :
  sound (EasyAD.user_is_member_of_group W self user group base credentials).
Proof.
  unfold EasyAD.user_is_member_of_group.
  apply sound_and_then; [apply sound_resolve_user_dn|intros u].
  apply sound_and_then; [apply sound_resolve_group_dn|intros g].
  apply sound_and_then; [apply sound_get_all_users_in_group|intros users].
  apply (sound_lift (Ok _)), builtin_ok.
Qed.

(** Every connection a call of [evs] is made on is unbound exactly once in
    [evs]. *)
Lemma released_unbinds h evs ev :
  released h evs -> In ev evs -> unbinds (conn_of ev) evs = 1%nat.
Proof.
  intros (_ & Hu & Hc) Hin. rewrite Hu.
  rewrite Forall_forall in Hc. apply list_elem_of_In in Hin.
  by rewrite bool_decide_eq_true_2 by auto.
Qed.

(** C3.  In the calls that [get_user], [get_group], [get_all_user_groups]
    and [get_all_users_in_group] make on the library, on every exit path,
    every connection on which a call is made -- created, bound, searched --
    is unbound exactly once; this holds whatever the library answers, so
    also when the bind or the search raises. *)
Theorem connections_released (self : EasyAD.t) (h : list event) :
  (forall user_string base credentials attributes json_safe,
     let evs := (EasyAD.get_user W self user_string base credentials
                   attributes json_safe h).2 in
     released h evs /\
     forall ev, In ev evs -> unbinds (conn_of ev) evs = 1%nat) /\
  (forall group_string base credentials attributes json_safe,
     let evs := (EasyAD.get_group W self group_string base credentials
                   attributes json_safe h).2 in
     released h evs /\
     forall ev, In ev evs -> unbinds (conn_of ev) evs = 1%nat) /\
  (forall user base credentials json_safe,
     let evs := (EasyAD.get_all_user_groups W self user base credentials
                   json_safe h).2 in
     released h evs /\
     forall ev, In ev evs -> unbinds (conn_of ev) evs = 1%nat) /\
  (forall group base credentials json_safe,
     let evs := (EasyAD.get_all_users_in_group W self group base credentials
                   json_safe h).2 in
     released h evs /\
     forall ev, In ev evs -> unbinds (conn_of ev) evs = 1%nat).
Proof.
  split; [|split; [|split]]; intros; subst evs.
  - destruct (EasyAD.get_user _ _ _ _ _ _ _ _) as [r evs] eqn:E.
    apply sound_get_user in E as [Hrel _]. simpl.
    split; [done|]. intros ev. by apply (released_unbinds h).
  - destruct (EasyAD.get_group _ _ _ _ _ _ _ _) as [r evs] eqn:E.
    apply sound_get_group in E as [Hrel _]. simpl.
    split; [done|]. intros ev. by apply (released_unbinds h).
  - destruct (EasyAD.get_all_user_groups _ _ _ _ _ _ _) as [r evs] eqn:E.
    apply sound_get_all_user_groups in E as [Hrel _]. simpl.
    split; [done|]. intros ev. by apply (released_unbinds h).
  - destruct (EasyAD.get_all_users_in_group _ _ _ _ _ _ _) as [r evs] eqn:E.
    apply sound_get_all_users_in_group in E as [Hrel _]. simpl.
    split; [done|]. intros ev. by apply (released_unbinds h).
Qed.

(** C2.  [authenticate_user] makes the calls of [get_user] with the given
    username and password as credentials.  When [get_user] returns the user,
    so does [authenticate_user]; it returns [False] exactly when the library
    raised [INVALID_CREDENTIALS]; any other exception of [get_user] comes out
    unchanged.  In every other operation, a library error
    [INVALID_CREDENTIALS] is the outcome of the operation. *)
Theorem authenticate_user_spec (self : EasyAD.t) (h : list event) :
  (forall username password base attributes json_safe,
     let inner := EasyAD.get_user W self username base
                    (Some (credentials_of username password)) attributes
                    json_safe h in
     let outer := EasyAD.authenticate_user W self username password base
                    attributes json_safe h in
     outer.2 = inner.2 /\
     (forall user, inner.1 = Ok user -> outer.1 = Ok (AuthUser user)) /\
     (outer.1 = Ok AuthFalse <-> In INVALID_CREDENTIALS (failures outer.2)) /\
     (forall e, inner.1 = Raise e -> e <> LDAPError INVALID_CREDENTIALS ->
                outer.1 = Raise e)) /\
  (forall user_string base credentials attributes json_safe,
     let run := EasyAD.get_user W self user_string base credentials
                  attributes json_safe h in
     In INVALID_CREDENTIALS (failures run.2) ->
     run.1 = Raise (LDAPError INVALID_CREDENTIALS)) /\
  (forall group_string base credentials attributes json_safe,
     let run := EasyAD.get_group W self group_string base credentials
                  attributes json_safe h in
     In INVALID_CREDENTIALS (failures run.2) ->
     run.1 = Raise (LDAPError INVALID_CREDENTIALS)) /\
  (forall user base credentials json_safe,
     let run := EasyAD.resolve_user_dn W self user base credentials
                  json_safe h in
     In INVALID_CREDENTIALS (failures run.2) ->
     run.1 = Raise (LDAPError INVALID_CREDENTIALS)) /\
  (forall group base credentials json_safe,
     let run := EasyAD.resolve_group_dn W self group base credentials
                  json_safe h in
     In INVALID_CREDENTIALS (failures run.2) ->
     run.1 = Raise (LDAPError INVALID_CREDENTIALS)) /\
  (forall user base credentials json_safe,
     let run := EasyAD.get_all_user_groups W self user base credentials
                  json_safe h in
     In INVALID_CREDENTIALS (failures run.2) ->
     run.1 = Raise (LDAPError INVALID_CREDENTIALS)) /\
  (forall group base credentials json_safe,
     let run := EasyAD.get_all_users_in_group W self group base credentials
                  json_safe h in
     In INVALID_CREDENTIALS (failures run.2) ->
     run.1 = Raise (LDAPError INVALID_CREDENTIALS)) /\
  (forall user group base credentials,
     let run := EasyAD.user_is_member_of_group W self user group base
                  credentials h in
     In INVALID_CREDENTIALS (failures run.2) ->
     run.1 = Raise (LDAPError INVALID_CREDENTIALS)).
Proof.
  split.
  { intros username password base attributes json_safe inner outer.
    subst inner outer.
    unfold EasyAD.authenticate_user, except_invalid_credentials, and_then.
    change (<["password" := CStr password]> (<["username" := CStr username]> ∅))
      with (credentials_of username password).
    destruct (EasyAD.get_user _ _ _ _ _ _ _ _) as [r evs] eqn:E.
    apply sound_get_user in E as [_ Hf].
    destruct r as [user|x]; simpl.
    - rewrite app_nil_r. simpl. apply faithful_ok_inv in Hf.
      split; [done|]. split; [by intros user' [= ->]|].
      split; [|done]. rewrite Hf. by split.
    - assert (x <> LDAPError INVALID_CREDENTIALS ->
              (@Raise auth_result x = Ok AuthFalse <->
               In INVALID_CREDENTIALS (failures evs))) as Hother.
      { intros Hx. split; [done|]. intros Hin.
        apply (faithful_failure _ _ _ Hf) in Hin. by injection Hin as ->. }
      destruct x as [msg|k| | | | |e]; simpl;
        try (split; [done|]; split; [done|]; split;
             [by apply Hother|by intros e' [= ->]]).
      destruct e; simpl;
        try (split; [done|]; split; [done|]; split;
             [by apply Hother|by intros e' [= ->]]).
      rewrite app_nil_r.
      split; [done|]. split; [done|]. split; [|by intros e [= <-]].
      split; [|done]. intros _. unfold faithful in Hf.
      destruct (failures evs) as [|e [|e' l]]; [|injection Hf as <-|done].
      + by destruct (Hf INVALID_CREDENTIALS).
      + by left. }
  repeat split; intros; subst run.
  - destruct (EasyAD.get_user _ _ _ _ _ _ _ _) as [r evs] eqn:E.
    apply sound_get_user in E as [_ Hf]. by eapply faithful_failure.
  - destruct (EasyAD.get_group _ _ _ _ _ _ _ _) as [r evs] eqn:E.
    apply sound_get_group in E as [_ Hf]. by eapply faithful_failure.
  - destruct (EasyAD.resolve_user_dn _ _ _ _ _ _ _) as [r evs] eqn:E.
    apply sound_resolve_user_dn in E as [_ Hf]. by eapply faithful_failure.
  - destruct (EasyAD.resolve_group_dn _ _ _ _ _ _ _) as [r evs] eqn:E.
    apply sound_resolve_group_dn in E as [_ Hf]. by eapply faithful_failure.
  - destruct (EasyAD.get_all_user_groups _ _ _ _ _ _ _) as [r evs] eqn:E.
    apply sound_get_all_user_groups in E as [_ Hf].
    by eapply faithful_failure.
  - destruct (EasyAD.get_all_users_in_group _ _ _ _ _ _ _) as [r evs] eqn:E.
    apply sound_get_all_users_in_group in E as [_ Hf].
    by eapply faithful_failure.
  - destruct (EasyAD.user_is_member_of_group _ _ _ _ _ _ _) as [r evs] eqn:E.
    apply sound_user_is_member_of_group in E as [_ Hf].
    by eapply faithful_failure.
Qed.

End OperationFacts.

(** ** Sorting *)

Section SortedBy.
Context {A : Type} (key : A -> string).

Lemma insert_by_perm x l : Permutation (x :: l) (insert_by key x l).
Proof.
  induction l as [|y l IH]; simpl; [done|].
  destruct (String.leb (key x) (key y)); [done|].
  rewrite perm_swap. by constructor.
Qed.

Lemma insert_by_sorted x l :
  Sorted (key_ordered key) l -> Sorted (key_ordered key) (insert_by key x l).
Proof.
  induction l as [|y l IH]; simpl; intros Hs.
  - by repeat constructor.
  - destruct (String.leb (key x) (key y)) eqn:Hxy.
    + constructor; [done|]. by constructor.
    + apply Sorted_inv in Hs as [Hs Hhd]. constructor; [by apply IH|].
      assert (key_ordered key y x) as Hyx.
      { unfold key_ordered. destruct (String.leb_total (key x) (key y)); congruence. }
      destruct l as [|z l]; simpl; [by constructor|].
      destruct (String.leb (key x) (key z)); constructor; [done|].
      by inversion Hhd.
Qed.

Lemma sorted_by_perm l : Permutation l (sorted_by key l).
Proof.
  unfold sorted_by. induction l as [|x l IH]; simpl; [done|].
  rewrite <- insert_by_perm. by constructor.
Qed.

Lemma sorted_by_sorted l : Sorted (key_ordered key) (sorted_by key l).
Proof.
  unfold sorted_by. induction l as [|x l IH]; simpl; [constructor|].
  by apply insert_by_sorted.
Qed.

End SortedBy.

Lemma sort_atoms_inv {rt : PyRuntime} l l' :
  sort_atoms l = Ok l' -> sorted_ci l' /\ Permutation l l'.
Proof.
  unfold sort_atoms. destruct (homogeneous l); [|done]. intros [= <-].
  split; [apply sorted_by_sorted|apply sorted_by_perm].
Qed.

Lemma sorted_lower_inv {rt : PyRuntime} v l :
  sorted_lower v = Ok l -> sorted_ci l /\ Permutation (items v) l.
Proof.
  destruct v as [| | |[s|b]| |l0]; simpl; try done.
  - intros [= <-]. split; [apply sorted_by_sorted|apply sorted_by_perm].
  - destruct b; [|done]. intros [= <-]. split; [constructor|done].
  - apply sort_atoms_inv.
Qed.

Lemma sorted_lower_sortable {rt : PyRuntime} v :
  sortable v -> exists l, sorted_lower v = Ok l.
Proof.
  destruct v as [| | |[s|b]| |l0]; simpl; try done.
  - intros _. by eexists.
  - intros H. unfold sort_atoms. rewrite H. by eexists.
Qed.

(** ** Updating a dictionary *)

(** [k] is none of the listed keys, by a hypothesis that excludes more. *)
Ltac other_key :=
  match goal with
  | H : ?k ∉ _ |- ?k ∉ _ =>
    let Hin := fresh in
    intros Hin; apply H; revert Hin; rewrite ?elem_of_cons, ?elem_of_nil;
    tauto
  | H : ?k ∉ _ |- ?k <> _ =>
    intros ->; apply H; rewrite ?elem_of_cons; tauto
  | |- _ ∉ _ =>
    repeat (apply not_elem_of_cons; split; [discriminate|]);
    apply not_elem_of_nil
  end.

Lemma update_if_present_inv k f d d' :
  update_if_present k f d = Ok d' ->
  (d !! k = None /\ d' = d) \/
  (exists v v', d !! k = Some v /\ f v = Ok v' /\ d' = <[k := v']> d).
Proof.
  unfold update_if_present. destruct (d !! k) as [v|]; [|intros [= <-]; by left].
  destruct (f v) as [v'|] eqn:Hf; simpl; [|done].
  intros [= <-]. right. by exists v, v'.
Qed.

Lemma update_if_present_other k f d d' k' :
  update_if_present k f d = Ok d' -> k' <> k -> d' !! k' = d !! k'.
Proof.
  intros H Hne. apply update_if_present_inv in H
    as [[_ ->]|(v & v' & _ & _ & ->)]; [done|].
  by rewrite lookup_insert_ne.
Qed.

Lemma update_if_present_ok k f d :
  (forall v, d !! k = Some v -> exists v', f v = Ok v') ->
  exists d', update_if_present k f d = Ok d'.
Proof.
  intros Hf. unfold update_if_present.
  destruct (d !! k) as [v|]; [|by eexists].
  destruct (Hf v eq_refl) as [v' ->]. by eexists.
Qed.

Lemma sort_if_present_sorted {rt : PyRuntime} k d d' :
  sort_if_present k d = Ok d' -> sorted_attribute k d d'.
Proof.
  unfold sort_if_present, sorted_attribute. intros H.
  apply update_if_present_inv in H as [[Hk ->]|(v & v' & Hk & Hf & ->)];
    rewrite Hk; [done|].
  destruct (sorted_lower v) as [l|] eqn:Hs; simpl in Hf; [|done].
  injection Hf as <-. apply sorted_lower_inv in Hs as [Hsorted Hperm].
  exists l. by rewrite lookup_insert_eq.
Qed.

Lemma decode_account_control_other d d' k :
  EasyAD.decode_account_control d = Ok d' ->
  k ∉ ["userAccountControl"; "disabled"; "passwordExpired";
       "passwordNeverExpires"; "smartcardRequired"] ->
  d' !! k = d !! k.
Proof.
  unfold EasyAD.decode_account_control. intros H Hk.
  destruct (d !! "userAccountControl") as [v|]; [|by injection H as <-].
  destruct (py_int v) as [uac|]; simpl in H; [|done]. injection H as <-.
  rewrite !lookup_insert_ne; [done|..]; intros <-; apply Hk;
    repeat first [apply list_elem_of_here|apply list_elem_of_further].
Qed.

Lemma decode_account_control_ok d :
  attribute_is integer_value "userAccountControl" d ->
  exists d', EasyAD.decode_account_control d = Ok d'.
Proof.
  unfold EasyAD.decode_account_control, attribute_is. intros H.
  destruct (d !! "userAccountControl") as [v|]; [|by eexists].
  destruct (H v eq_refl) as [n ->]. by eexists.
Qed.

(** ** One bind and one search on a fresh connection *)

Lemma searched_nil results : ~ searched [] results.
Proof. by intros (c & b & f & a & Hin). Qed.

Lemma searched_unbind c results : ~ searched [EUnbind c] results.
Proof. intros (c' & b & f & a & [Hin|[]]). discriminate. Qed.

Section Session.
Context (W : World).

Lemma bind_run self credentials h r evs :
  ADConnection.bind W self credentials h = (r, evs) ->
  (evs = [] /\ forall b, r <> Ok b) \/
  (exists who cred outcome, evs = [EBind (ADConnection.ad self) who cred outcome] /\
     r = match outcome with
         | Some e => Raise (LDAPError e)
         | None => Ok true
         end).
Proof.
  unfold ADConnection.bind, and_then, lift, past, emit, ret, raise.
  intros Hrun. repeat case_match; simplify_eq; simpl; eauto 6.
Qed.

Lemma bind_not_searched self credentials h r evs results :
  ADConnection.bind W self credentials h = (r, evs) -> ~ searched evs results.
Proof.
  intros Hrun. apply bind_run in Hrun as [[-> _]|(u & p & o & -> & _)].
  - apply searched_nil.
  - intros (c' & b & f & a & [Hin|[]]). discriminate.
Qed.

Lemma search_run self base filterstr attrlist h :
  ADConnection.search_s W self base filterstr attrlist h =
  (match ldap_search_s W h (ADConnection.ad self) base filterstr attrlist with
   | inl e => Raise (LDAPError e)
   | inr results => Ok results
   end,
   [ESearch (ADConnection.ad self) base filterstr attrlist
      (ldap_search_s W h (ADConnection.ad self) base filterstr attrlist)]).
Proof.
  unfold ADConnection.search_s. rewrite and_then_past, and_then_emit.
  by destruct (ldap_search_s W h _ base filterstr attrlist).
Qed.

(** When the trace of a session shows a search that returned [results],
    the connection was created, the bind succeeded, and the outcome is that
    of the code that follows the search, run on [results]. *)
Lemma session_run {A} config credentials base filterstr attrlist
    (k : list raw_result -> M A) h r evs results :
  (forall rs h', (k rs h').2 = []) ->
  (conn <~ ADConnection.init config ;;
   try_finally
     (ADConnection.bind W conn credentials ;;;
      rs <~ ADConnection.search_s W conn base filterstr attrlist ;;
      k rs)
     (ADConnection.unbind conn)) h = (r, evs) ->
  searched evs results ->
  exists h', r = (k results h').1.
Proof.
  intros Hk. unfold and_then at 1.
  destruct (ADConnection.init config h) as [r0 e0] eqn:Einit.
  apply init_run in Einit
    as [[-> ->]|(conn & -> & _ & _ & _ & _ & _ & _ & Hns0)].
  { intros [= <- <-] Hs. by apply searched_nil in Hs. }
  unfold try_finally, ADConnection.unbind, emit.
  destruct (and_then _ _ (h ++ e0)) as [rb eb] eqn:Eb.
  intros [= <- <-] Hs.
  apply searched_app in Hs as [Hs|Hs]; [by apply Hns0 in Hs|].
  apply searched_app in Hs as [Hs|Hs]; [|by apply searched_unbind in Hs].
  unfold and_then at 1 in Eb.
  destruct (ADConnection.bind W conn credentials (h ++ e0)) as [r1 e1] eqn:E1.
  pose proof (bind_not_searched _ _ _ _ _ results E1) as Hns1.
  destruct r1 as [b|x]; [|injection Eb as <- <-; by apply Hns1 in Hs].
  unfold and_then in Eb. rewrite search_run in Eb.
  destruct (ldap_search_s W _ _ base filterstr attrlist) as [e|rs] eqn:Hout.
  - injection Eb as <- <-.
    apply searched_app in Hs as [Hs|Hs]; [by apply Hns1 in Hs|].
    destruct Hs as (c' & b' & f & a & [Hin|[]]). discriminate.
  - destruct (k rs _) as [rk ek] eqn:Ek.
    match type of Ek with k rs ?h' = _ => pose proof (Hk rs h') as Hek end.
    rewrite Ek in Hek. simpl in Hek. subst ek. injection Eb as <- <-.
    apply searched_app in Hs as [Hs|Hs]; [by apply Hns1 in Hs|].
    destruct Hs as (c' & b' & f & a & [Hin|[]]). simplify_eq.
    match type of Ek with k _ ?h' = _ => exists h' end. by rewrite Ek.
Qed.

End Session.

(** ** Unique lookups *)

Section Lookups.
Context {rt : PyRuntime} (W : World).

Lemma convert_ad_timestamp_ok v json_safe str_format :
  timestamp_value v ->
  exists v', convert_ad_timestamp v json_safe str_format = Ok v'.
Proof.
  intros (raw & Hint & Hraw).
  destruct (Z.eq_dec raw 0) as [->|Hnz].
  - rewrite (convert_ad_timestamp_unset _ _ _ Hint). by eexists.
  - destruct Hraw as [?|Hcal]; [done|].
    rewrite (convert_ad_timestamp_set _ raw) by done.
    rewrite datetime_add_in_calendar by done. simpl.
    destruct json_safe; by eexists.
Qed.

Lemma get_last_logon_ok now v json_safe :
  timestamp_value v -> exists v', _get_last_logon now v json_safe = Ok v'.
Proof.
  intros Hv. unfold _get_last_logon.
  destruct (convert_ad_timestamp_ok v false "%x %X" Hv) as [v' Hconv].
  rewrite Hconv. simpl.
  apply convert_ad_timestamp_native in Hconv as [->|[t ->]]; [by eexists|].
  destruct (_ <=? 14); [by eexists|]. destruct json_safe; by eexists.
Qed.

Lemma process_user_inv now json_safe entry user :
  EasyAD.process_user now json_safe entry = Ok user ->
  sorted_attribute "memberOf" entry user /\
  sorted_attribute "showInAddressBook" entry user /\
  (forall k, k ∉ processed_keys -> user !! k = entry !! k).
Proof.
  unfold EasyAD.process_user.
  destruct (sort_if_present "memberOf" entry) as [e1|] eqn:H1; [|done].
  simpl.
  destruct (sort_if_present "showInAddressBook" e1) as [e2|] eqn:H2; [|done].
  simpl.
  destruct (update_if_present "lastLogonTimestamp" _ e2) as [e3|] eqn:H3;
    [|done].
  simpl.
  destruct (update_if_present "lockoutTime" _ e3) as [e4|] eqn:H4; [|done].
  simpl.
  destruct (update_if_present "pwdLastSet" _ e4) as [e5|] eqn:H5; [|done].
  simpl. intros H6.
  assert (forall k,
            k ∉ ["lastLogonTimestamp"; "lockoutTime"; "pwdLastSet";
                 "userAccountControl"; "disabled"; "passwordExpired";
                 "passwordNeverExpires"; "smartcardRequired"] ->
            user !! k = e2 !! k) as Hlate.
  { intros k Hk.
    rewrite (decode_account_control_other _ _ k H6) by other_key.
    rewrite (update_if_present_other _ _ _ _ k H5) by other_key.
    rewrite (update_if_present_other _ _ _ _ k H4) by other_key.
    apply (update_if_present_other _ _ _ _ k H3). other_key. }
  split; [|split].
  - apply sort_if_present_sorted in H1. unfold sorted_attribute in *.
    rewrite Hlate by other_key.
    by rewrite (update_if_present_other _ _ _ _ "memberOf" H2).
  - apply sort_if_present_sorted in H2. unfold sorted_attribute in *.
    rewrite Hlate by other_key.
    by rewrite <- (update_if_present_other _ _ _ _ "showInAddressBook" H1).
  - intros k Hk. unfold processed_keys in Hk.
    rewrite Hlate by other_key.
    rewrite (update_if_present_other _ _ _ _ k H2) by other_key.
    apply (update_if_present_other _ _ _ _ k H1). other_key.
Qed.

Lemma process_user_ok now json_safe entry :
  user_schema entry ->
  exists user, EasyAD.process_user now json_safe entry = Ok user.
Proof.
  intros (Hm & Hs & Hl & Hk & Hp & Hu). unfold EasyAD.process_user.
  destruct (update_if_present_ok "memberOf"
              (fun v => l <- sorted_lower v ;; Ok (VList l)) entry)
    as [e1 H1].
  { intros v Hv. destruct (sorted_lower_sortable v (Hm v Hv)) as [l ->].
    by eexists. }
  unfold sort_if_present at 1. rewrite H1. simpl.
  destruct (update_if_present_ok "showInAddressBook"
              (fun v => l <- sorted_lower v ;; Ok (VList l)) e1)
    as [e2 H2].
  { intros v Hv. rewrite (update_if_present_other _ _ _ _ _ H1) in Hv by done.
    destruct (sorted_lower_sortable v (Hs v Hv)) as [l ->]. by eexists. }
  unfold sort_if_present. rewrite H2. simpl.
  destruct (update_if_present_ok "lastLogonTimestamp"
              (fun v => _get_last_logon now v false) e2) as [e3 H3].
  { intros v Hv. rewrite (update_if_present_other _ _ _ _ _ H2) in Hv by done.
    rewrite (update_if_present_other _ _ _ _ _ H1) in Hv by done.
    by apply get_last_logon_ok, Hl. }
  rewrite H3. simpl.
  destruct (update_if_present_ok "lockoutTime"
              (fun v => convert_ad_timestamp v json_safe "%x %X") e3)
    as [e4 H4].
  { intros v Hv. rewrite (update_if_present_other _ _ _ _ _ H3) in Hv by done.
    rewrite (update_if_present_other _ _ _ _ _ H2) in Hv by done.
    rewrite (update_if_present_other _ _ _ _ _ H1) in Hv by done.
    by apply convert_ad_timestamp_ok, Hk. }
  rewrite H4. simpl.
  destruct (update_if_present_ok "pwdLastSet"
              (fun v => convert_ad_timestamp v json_safe "%x %X") e4)
    as [e5 H5].
  { intros v Hv. rewrite (update_if_present_other _ _ _ _ _ H4) in Hv by done.
    rewrite (update_if_present_other _ _ _ _ _ H3) in Hv by done.
    rewrite (update_if_present_other _ _ _ _ _ H2) in Hv by done.
    rewrite (update_if_present_other _ _ _ _ _ H1) in Hv by done.
    by apply convert_ad_timestamp_ok, Hp. }
  rewrite H5. simpl.
  apply decode_account_control_ok. intros v Hv. apply Hu.
  rewrite (update_if_present_other _ _ _ _ _ H5) in Hv by done.
  rewrite (update_if_present_other _ _ _ _ _ H4) in Hv by done.
  rewrite (update_if_present_other _ _ _ _ _ H3) in Hv by done.
  rewrite (update_if_present_other _ _ _ _ _ H2) in Hv by done.
  by rewrite (update_if_present_other _ _ _ _ _ H1) in Hv.
Qed.

(** When its search returned [results], [get_user] ends as the code after
    the search does on them. *)
Lemma get_user_outcome self user_string base credentials attributes json_safe
    h r evs results :
  EasyAD.get_user W self user_string base credentials attributes json_safe h
    = (r, evs) ->
  searched evs results ->
  exists now,
    r = (let entries := decode_ldap_results results json_safe in
         _ <- EasyAD.unique "user" entries ;;
         user <- EasyAD.first entries ;;
         EasyAD.process_user now json_safe user).
Proof.
  unfold EasyAD.get_user.
  destruct (EasyAD.base_or_default self base) as [b|x];
    [|intros [= <- <-] Hs; by apply searched_nil in Hs].
  rewrite and_then_lift_ok. intros Hrun Hs.
  eapply (session_run W) in Hrun as [h' ->]; [|clear Hrun|exact Hs].
  - exists (datetime_now W h'). unfold and_then, lift, past. simpl.
    destruct (EasyAD.unique _ _); simpl; [|done].
    destruct (EasyAD.first _); simpl; [|done].
    rewrite !app_nil_r. by destruct (EasyAD.process_user _ _ _).
  - intros rs h'. unfold and_then, lift, past. simpl.
    repeat case_match; by simplify_eq.
Qed.

Lemma get_group_outcome self group_string base credentials attributes
    json_safe h r evs results :
  EasyAD.get_group W self group_string base credentials attributes json_safe h
    = (r, evs) ->
  searched evs results ->
  r = (let entries := decode_ldap_results results json_safe in
       _ <- EasyAD.unique "group" entries ;;
       group <- EasyAD.first entries ;;
       sort_if_present "member" group).
Proof.
  unfold EasyAD.get_group.
  destruct (EasyAD.base_or_default self base) as [b|x];
    [|intros [= <- <-] Hs; by apply searched_nil in Hs].
  rewrite and_then_lift_ok. unfold and_then at 1.
  destruct (and_then _ _ h) as [r1 e1] eqn:Hrun.
  assert (searched e1 results ->
          r1 = (_ <- EasyAD.unique "group"
                       (decode_ldap_results results json_safe) ;;
                Ok (decode_ldap_results results json_safe))) as Hsession.
  { intros Hs.
    eapply (session_run W) in Hrun as [h' ->]; [|clear Hrun|exact Hs].
    - unfold and_then, lift, ret. simpl. by destruct (EasyAD.unique _ _).
    - intros rs h'. unfold and_then, lift, ret. simpl.
      repeat case_match; by simplify_eq. }
  destruct r1 as [entries|x].
  - unfold and_then, lift. simpl.
    destruct (EasyAD.first entries) as [group|y] eqn:Hfirst; simpl.
    + destruct (sort_if_present "member" group) eqn:Hsort; simpl;
        rewrite !app_nil_r; intros [= <- <-] Hs;
        pose proof (Hsession Hs) as Hr1;
        destruct (EasyAD.unique _ _); simpl in *; simplify_eq;
        by rewrite Hfirst.
    + rewrite !app_nil_r. intros [= <- <-] Hs.
      pose proof (Hsession Hs) as Hr1.
      destruct (EasyAD.unique _ _); simpl in *; simplify_eq.
      by rewrite Hfirst.
  - intros [= <- <-] Hs. pose proof (Hsession Hs) as Hr1.
    destruct (EasyAD.unique _ _); simpl in *; by simplify_eq.
Qed.

End Lookups.

Section SingleValue.
Context {rt : PyRuntime} (W : World).

(** C1.  On exactly one match the membership attributes are not always
    returned as the sorted list of the memberships.  The normalizer replaces
    an attribute that has one value by that value, a bare text, and [sorted]
    then iterates over the text: whenever the entry of the one match holds a
    single [memberOf] or [showInAddressBook] ([member] for a group), what
    [get_user] ([get_group]) returns under that name is a list of the
    characters of the value.  For a user whose only group is
    [CN=Staff,DC=x] the list starts with the comma and the two equals signs;
    likewise for a group whose only member is [CN=bob,DC=x]. *)
Theorem single_value_is_split (self : EasyAD.t) (h : list event)
    (json_safe : bool) (results : list raw_result)
    (entry : gmap string pyval) :
  (decode_ldap_results results json_safe = [entry] ->
   forall user_string base credentials attributes user evs,
     EasyAD.get_user W self user_string base credentials attributes
       json_safe h = (Ok user, evs) ->
     searched evs results ->
     forall k s,
       k ∈ ["memberOf"; "showInAddressBook"] ->
       entry !! k = Some (VAtom (Str s)) ->
       exists l, user !! k = Some (VList l) /\
                 Permutation (map Str (chars s)) l) /\
  (decode_ldap_results results json_safe = [entry] ->
   forall group_string base credentials attributes group evs,
     EasyAD.get_group W self group_string base credentials attributes
       json_safe h = (Ok group, evs) ->
     searched evs results ->
     forall s,
       entry !! "member" = Some (VAtom (Str s)) ->
       exists l, group !! "member" = Some (VList l) /\
                 Permutation (map Str (chars s)) l) /\
  match (@EasyAD.get_user floor_runtime lone_world example_client "bob" None
           (Some (credentials_of "bob" "secret")) None false []).1 with
  | Ok user =>
    user !! "memberOf"
    = Some (VList [Str ","; Str "="; Str "="; Str "a"; Str "C"; Str "C";
                   Str "D"; Str "f"; Str "f"; Str "N"; Str "S"; Str "t";
                   Str "x"])
  | Raise _ => False
  end /\
  match (@EasyAD.get_group floor_runtime lone_world example_client "Staff"
           None (Some (credentials_of "bob" "secret")) None false []).1 with
  | Ok group =>
    group !! "member"
    = Some (VList [Str ","; Str "="; Str "="; Str "b"; Str "b"; Str "C";
                   Str "C"; Str "D"; Str "N"; Str "o"; Str "x"])
  | Raise _ => False
  end.
Proof.
  split; [|split; [|split]].
  - intros Hone user_string base credentials attributes user evs Hrun Hs
      k s Hk Hentry.
    destruct (get_user_outcome W _ _ _ _ _ _ _ _ _ _ Hrun Hs) as [now Hr].
    rewrite Hone in Hr. simpl in Hr. symmetry in Hr.
    apply process_user_inv in Hr as (Hmember & Hshow & _).
    unfold sorted_attribute in *.
    apply list_elem_of_In in Hk as [<-|[<-|[]]].
    + rewrite Hentry in Hmember. destruct Hmember as (l & Hl & _ & Hperm).
      by exists l.
    + rewrite Hentry in Hshow. destruct Hshow as (l & Hl & _ & Hperm).
      by exists l.
  - intros Hone group_string base credentials attributes group evs Hrun Hs
      s Hentry.
    pose proof (get_group_outcome W _ _ _ _ _ _ _ _ _ _ Hrun Hs) as Hr.
    rewrite Hone in Hr. simpl in Hr. symmetry in Hr.
    apply sort_if_present_sorted in Hr. unfold sorted_attribute in Hr.
    rewrite Hentry in Hr. destruct Hr as (l & Hl & _ & Hperm). by exists l.
  - vm_compute. reflexivity.
  - vm_compute. reflexivity.
Qed.

End SingleValue.

(** ** Serialization-safe mode *)

(** C8.  With [json_safe=True], [get_user] on a user whose last logon is more
    than 14 days old returns [lastLogonTimestamp] as a [datetime], not as
    text: [get_user] calls [_get_last_logon] without [json_safe], and
    [_get_last_logon] itself drops the text it formats.  [pwdLastSet], which
    goes through [convert_ad_timestamp], is text. *)
Theorem get_user_json_safe_last_logon :
  match (@EasyAD.get_user floor_runtime example_world example_client "bob" None
           (Some (credentials_of "bob" "secret")) None true []).1 with
  | Ok user =>
    user !! "lastLogonTimestamp" = Some (VDatetime 11644473600000000) /\
    user !! "pwdLastSet" = Some (VAtom (Str "02/15/16 08:53:20"))
  | Raise _ => False
  end /\
  @_get_last_logon floor_runtime 13100000000000000
    (VAtom (Str "116444736000000000")) true
  = Ok (VDatetime 11644473600000000).
Proof. vm_compute. by repeat split. Qed.

(** ** The statements on the sample data *)

Lemma init_example_client : EasyAD.init example_config = Ok example_client.
Proof. reflexivity. Qed.

(** The referral is dropped; the user's attributes with one value are
    scalars, [memberOf] keeps its two values in their order. *)
Lemma decode_example_user :
  decode_ldap_results example_user_results false
  = [decode_attribute false <$> example_user] /\
  (decode_attribute false <$> example_user) !! "memberOf"
  = Some (VList [Str "CN=staff,DC=example,DC=com";
                 Str "cn=Admins,DC=example,DC=com"]) /\
  (decode_attribute false <$> example_user) !! "userAccountControl"
  = Some (VAtom (Str "514")).
Proof. split; [reflexivity|]. by vm_compute. Qed.

(** The group whose only member is [CN=bob,DC=x]. *)
Lemma single_value_is_split_witness :
  let run := @EasyAD.get_group floor_runtime lone_world example_client "Staff"
               None (Some (credentials_of "bob" "secret")) None false [] in
  exists group l,
    run.1 = Ok group /\
    group !! "member" = Some (VList l) /\
    Permutation (map Str (chars "CN=bob,DC=x")) l.
Proof.
  intros run.
  set (group := match run.1 with Ok group => group | Raise _ => ∅ end).
  pose proof (eq_refl run <: run = (Ok group, run.2)) as Hrun.
  assert (searched run.2 [(Some "CN=Staff,DC=x", RawDict lone_group)]) as Hs.
  { exists 0%nat, (ArgCfg (CStr "dc=example,dc=com")),
           (EasyAD.group_filter "Staff"), EasyAD.default_group_attributes.
    vm_compute. do 5 right. left. reflexivity. }
  destruct (@single_value_is_split floor_runtime lone_world example_client []
              false [(Some "CN=Staff,DC=x", RawDict lone_group)]
              (decode_attribute false <$> lone_group))
    as (_ & Hgroup & _ & _).
  destruct (Hgroup eq_refl "Staff" None
              (Some (credentials_of "bob" "secret")) None group run.2 Hrun Hs
              "CN=bob,DC=x") as (l & Hl & Hperm).
  { vm_compute. reflexivity. }
  exists group, l. split; [by rewrite Hrun|]. by split.
Defined.

Lemma authenticate_user_spec_witness :
  (@EasyAD.authenticate_user floor_runtime example_world example_client "bob"
     "wrong" None None false []).1 = Ok AuthFalse.
Proof.
  destruct (@authenticate_user_spec floor_runtime example_world example_client
              []) as [Hauth _].
  destruct (Hauth "bob" "wrong" None None false) as (_ & _ & Hfalse & _).
  apply Hfalse. vm_compute. by left.
Defined.

Lemma connections_released_witness :
  let evs := (@EasyAD.get_user floor_runtime failing_world example_client "bob"
                None (Some (credentials_of "bob" "secret")) None false []).2 in
  failures evs = [SERVER_DOWN] /\ unbinds 0 evs = 1%nat.
Proof.
  intros evs.
  destruct (@connections_released floor_runtime failing_world example_client [])
    as [Huser _].
  destruct (Huser "bob" None (Some (credentials_of "bob" "secret")) None false)
    as [_ Honce].
  split; [reflexivity|].
  apply (Honce (EInitialize 0 "ldap://dc1.example.com")).
  vm_compute. by left.
Defined.

Lemma bind_username_spec_witness :
  ADConnection.bind_username example_config (credentials_of "DOMAIN\bob" "pw")
  = Ok "bob@example.com".
Proof.
  destruct bind_username_spec as [Hgeneral _].
  destruct (Hgeneral example_config (credentials_of "DOMAIN\bob" "pw")
              "DOMAIN\bob" "example.com" eq_refl eq_refl)
    as (u & _ & _ & _).
  reflexivity.
Defined.

Lemma init_base_dn_override_raises_witness :
  EasyAD.init override_config = Raise (KeyError "BASE_DN").
Proof.
  assert (override_config !! "AD_DOMAIN" = Some (CStr "example.com")) as Hd
    by (vm_compute; reflexivity).
  destruct (init_base_dn_override_raises override_config "example.com" Hd)
    as (_ & Hraise & _).
  apply (Hraise (CStr "ou=Staff,dc=example,dc=com")); vm_compute; reflexivity.
Defined.

Lemma get_last_logon_spec_witness :
  @_get_last_logon floor_runtime 13100000000000000 (VAtom (Str "0")) true
  = Ok (VInt (-1)) /\
  @_get_last_logon floor_runtime 13100000000000000
    (VAtom (Str "130990000000000000")) true
  = Ok (VAtom (Str "<= 14 days")).
Proof.
  split.
  - destruct (@get_last_logon_spec floor_runtime 13100000000000000
                (VAtom (Str "0")) true) as [Hunset _].
    apply Hunset. vm_compute. reflexivity.
  - destruct (@get_last_logon_spec floor_runtime 13100000000000000
                (VAtom (Str "130990000000000000")) true) as [_ Hrecent].
    apply (Hrecent 13099000000000000).
    + vm_compute. reflexivity.
    + vm_compute. discriminate.
Defined.

Lemma convert_ad_timestamp_spec_witness :
  @convert_ad_timestamp floor_runtime (VAtom (Str "0")) false "%x %X" = Ok VNone /\
  @convert_ad_timestamp floor_runtime (VAtom (Str "116444736000000000")) false
    "%x %X" = Ok (VDatetime 11644473600000000) /\
  @convert_ad_timestamp floor_runtime (VInt 9223372036854775807) false "%x %X"
  = Raise OverflowError /\
  11644473600000000 <= 13100000000000000.
Proof.
  destruct (@convert_ad_timestamp_spec floor_runtime "%x %X")
    as (Hzero & Hset & Hout & Hmono).
  split; [|split; [|split]].
  - apply Hzero. vm_compute. reflexivity.
  - apply (Hset (VAtom (Str "116444736000000000")) 116444736000000000).
    + vm_compute. reflexivity.
    + discriminate.
    + unfold in_calendar. vm_compute. split; discriminate.
  - apply (Hout (VInt 9223372036854775807) 9223372036854775807).
    + reflexivity.
    + discriminate.
    + unfold in_calendar. vm_compute. intros [_ H]. by apply H.
  - apply (Hmono (VInt 116444736000000000) (VInt 131000000000000000)
             116444736000000000 131000000000000000).
    + reflexivity.
    + reflexivity.
    + discriminate.
    + discriminate.
    + discriminate.
    + vm_compute. reflexivity.
    + vm_compute. reflexivity.
Defined.

(** The claim as first stated promises a time for every non-zero input.
    [2^63 - 1] is non-zero and the conversion raises. *)
Lemma convert_ad_timestamp_overflow_counterexample :
  9223372036854775807 <> 0 /\
  @convert_ad_timestamp floor_runtime (VInt 9223372036854775807) false "%x %X"
  = Raise OverflowError /\
  forall t,
    @convert_ad_timestamp floor_runtime (VInt 9223372036854775807) false "%x %X"
    <> Ok (VDatetime t).
Proof.
  split; [discriminate|]. rewrite convert_ad_timestamp_never. by split.
Qed.


(** * Further properties *)

(** ** The calls of one session *)

Section SessionTrace.
Context (W : World).

Lemma bind_trace self credentials h r evs :
  ADConnection.bind W self credentials h = (r, evs) ->
  (evs = [] /\ exists x, r = Raise x) \/
  (exists who cred,
     bound_as (ADConnection.config self) credentials who cred /\
     evs = [EBind (ADConnection.ad self) who cred
              (ldap_bind_s W h (ADConnection.ad self) who cred)] /\
     r = match ldap_bind_s W h (ADConnection.ad self) who cred with
         | Some e => Raise (LDAPError e)
         | None => Ok true
         end).
Proof.
  unfold ADConnection.bind, bound_as.
  destruct (ADConnection.effective_credentials _ _) as [c|x] eqn:Hc;
    [|intros [= <- <-]; left; eauto].
  rewrite and_then_lift_ok.
  destruct (ADConnection.bind_username _ c) as [who|x] eqn:Hw;
    [|intros [= <- <-]; left; eauto].
  rewrite and_then_lift_ok. unfold getitem.
  destruct (c !! "password") as [cred|] eqn:Hp;
    [|intros [= <- <-]; left; eauto].
  rewrite and_then_lift_ok, and_then_past, and_then_emit.
  intros Hrun. right. exists who, cred. split; [eauto|].
  destruct (ldap_bind_s W h _ who cred); by injection Hrun as <- <-.
Qed.

Lemma init_trace config h r e0 :
  ADConnection.init config h = (r, e0) ->
  (config !! "AD_SERVER" = None /\ r = Raise (KeyError "AD_SERVER") /\ e0 = []) \/
  (exists conn url options,
     r = Ok conn /\ ADConnection.ad conn = connections h /\
     ADConnection.config conn = config /\
     e0 = EInitialize (connections h) url :: options /\
     Forall (is_option_on (connections h)) options).
Proof.
  unfold ADConnection.init, getitem.
  destruct (config !! "AD_SERVER") as [server|]; simpl;
    [|intros [= <- <-]; by left].
  rewrite and_then_lift_ok, and_then_past.
  unfold and_then, emit, ret, lift. simpl.
  intros Hrun. right.
  repeat case_match; simplify_eq; eexists _, _, _;
    (split; [reflexivity|]); repeat split; by repeat constructor.
Qed.

(** The calls of [connection = ADConnection(config)] followed by [try:
    bind; search; rest finally: unbind], where the rest makes no call. *)
Lemma session_trace {A} config credentials base filterstr attrlist
    (k : list raw_result -> M A) h r evs :
  (forall rs h', (k rs h').2 = []) ->
  (conn <~ ADConnection.init config ;;
   try_finally
     (ADConnection.bind W conn credentials ;;;
      rs <~ ADConnection.search_s W conn base filterstr attrlist ;;
      k rs)
     (ADConnection.unbind conn)) h = (r, evs) ->
  (evs = [] /\ r = Raise (KeyError "AD_SERVER")) \/
  exists url options,
    Forall (is_option_on (connections h)) options /\
    let c := connections h in
    let setup := EInitialize c url :: options in
    (evs = setup ++ [EUnbind c] /\ exists x, r = Raise x) \/
    (exists who cred e,
       bound_as config credentials who cred /\
       evs = setup ++ [EBind c who cred (Some e); EUnbind c] /\
       r = Raise (LDAPError e)) \/
    (exists who cred out,
       bound_as config credentials who cred /\
       evs = setup ++ [EBind c who cred None;
                       ESearch c base filterstr attrlist out; EUnbind c] /\
       match out with
       | inl e => r = Raise (LDAPError e)
       | inr rs => exists h', r = (k rs h').1
       end).
Proof.
  intros Hk. unfold and_then at 1.
  destruct (ADConnection.init config h) as [r0 e0] eqn:Einit.
  apply init_trace in Einit
    as [(_ & -> & ->)|(conn & url & options & -> & Had & Hcfg & -> & Hopt)].
  { intros [= <- <-]. by left. }
  intros Hrun. right. exists url, options. split; [done|]. cbv zeta.
  revert Hrun. unfold try_finally, ADConnection.unbind, emit.
  destruct (and_then _ _ _) as [rb eb] eqn:Eb.
  intros [= <- <-]. rewrite Had.
  unfold and_then at 1 in Eb.
  destruct (ADConnection.bind W conn credentials _) as [r1 e1] eqn:E1.
  apply bind_trace in E1 as [[-> [x ->]]|(who & cred & Hb & -> & ->)].
  { injection Eb as <- <-. left. eauto. }
  rewrite Hcfg, Had in *.
  destruct (ldap_bind_s W _ _ who cred) as [e|].
  { injection Eb as <- <-. right. left. exists who, cred, e. by repeat split. }
  unfold and_then in Eb. rewrite search_run in Eb. rewrite Had in Eb.
  destruct (ldap_search_s W _ _ base filterstr attrlist) as [e|rs] eqn:Hout.
  - injection Eb as <- <-. right. right. exists who, cred, (inl e).
    by repeat split.
  - destruct (k rs _) as [rk ek] eqn:Ek.
    match type of Ek with k rs ?h' = _ => pose proof (Hk rs h') as Hek end.
    rewrite Ek in Hek. simpl in Hek. subst ek. injection Eb as <- <-.
    right. right. exists who, cred, (inr rs). repeat split; [done|].
    match type of Ek with k _ ?h' = _ => exists h' end. by rewrite Ek.
Qed.

End SessionTrace.

Lemma session_trace_calls {A} (W : World) config credentials base filterstr
    attrlist (k : list raw_result -> M A) h r evs :
  (forall rs h', (k rs h').2 = []) ->
  (conn <~ ADConnection.init config ;;
   try_finally
     (ADConnection.bind W conn credentials ;;;
      rs <~ ADConnection.search_s W conn base filterstr attrlist ;;
      k rs)
     (ADConnection.unbind conn)) h = (r, evs) ->
  session_calls h config credentials base filterstr attrlist evs.
Proof.
  intros Hk Hrun. apply (session_trace W) in Hrun; [|done].
  destruct Hrun as [[-> _]|(url & options & Hopt & Hcases)]; [by left|].
  right. exists url, options. cbv zeta in *.
  destruct Hcases as [[-> _]|[(who & cred & e & Hb & -> & _)
                             |(who & cred & out & Hb & -> & _)]].
  - exists []. repeat split; auto.
  - exists [EBind (connections h) who cred (Some e)].
    split; [reflexivity|]. split; [done|]. right. left. eauto.
  - exists [EBind (connections h) who cred None;
            ESearch (connections h) base filterstr attrlist out].
    split; [reflexivity|]. split; [done|]. right. right. eauto.
Qed.

Section SessionExact.
Context (W : World).

Lemma bind_exact self credentials h r evs :
  ADConnection.bind W self credentials h = (r, evs) ->
  (evs = [] /\
   forall who cred,
     ~ bound_as (ADConnection.config self) credentials who cred) \/
  (exists who cred,
     bound_as (ADConnection.config self) credentials who cred /\
     evs = [EBind (ADConnection.ad self) who cred
              (ldap_bind_s W h (ADConnection.ad self) who cred)] /\
     r = match ldap_bind_s W h (ADConnection.ad self) who cred with
         | Some e => Raise (LDAPError e)
         | None => Ok true
         end).
Proof.
  unfold ADConnection.bind, bound_as.
  destruct (ADConnection.effective_credentials _ _) as [c|x] eqn:Hc.
  2:{ intros [= <- <-]. left. split; [done|].
      intros who cred (c & Hc' & _). done. }
  rewrite and_then_lift_ok.
  destruct (ADConnection.bind_username _ c) as [who|x] eqn:Hw.
  2:{ intros [= <- <-]. left. split; [done|].
      intros who cred (c' & Hc' & Hw' & _). congruence. }
  rewrite and_then_lift_ok. unfold getitem.
  destruct (c !! "password") as [cred|] eqn:Hp.
  2:{ intros [= <- <-]. left. split; [done|].
      intros who' cred (c' & Hc' & _ & Hp'). congruence. }
  rewrite and_then_lift_ok, and_then_past, and_then_emit.
  intros Hrun. right. exists who, cred. split; [eauto|].
  destruct (ldap_bind_s W h _ who cred); by injection Hrun as <- <-.
Qed.

Lemma init_exact config h server :
  config !! "AD_SERVER" = Some server ->
  exists options,
    Forall (is_option_on (connections h)) options /\
    ADConnection.init config h
    = (Ok {| ADConnection.config := config;
             ADConnection.ad := connections h |},
       EInitialize (connections h) ("ldap://" +:+ py_format server)
       :: options).
Proof.
  intros Hs. unfold ADConnection.init, getitem. rewrite Hs.
  rewrite and_then_lift_ok, and_then_past.
  unfold and_then, emit, ret, lift. simpl.
  repeat case_match; simplify_eq; eexists;
    (split; [|reflexivity]); by repeat constructor.
Qed.

(** The calls of [connection = ADConnection(config)] followed by [try:
    bind; search; rest finally: unbind], where the rest makes no call. *)
Lemma session_exact {A} config credentials base filterstr attrlist
    (k : list raw_result -> M A) h r evs :
  (forall rs h', (k rs h').2 = []) ->
  (conn <~ ADConnection.init config ;;
   try_finally
     (ADConnection.bind W conn credentials ;;;
      rs <~ ADConnection.search_s W conn base filterstr attrlist ;;
      k rs)
     (ADConnection.unbind conn)) h = (r, evs) ->
  session_of W h config credentials base filterstr attrlist evs.
Proof.
  intros Hk. unfold session_of, and_then at 1.
  destruct (config !! "AD_SERVER") as [server|] eqn:Hs.
  2:{ unfold ADConnection.init, getitem. rewrite Hs. simpl.
      by intros [= <- <-]. }
  destruct (init_exact config h server Hs) as (options & Hopt & Hinit).
  rewrite Hinit. cbv zeta. unfold try_finally, ADConnection.unbind, emit.
  destruct (and_then _ _ _) as [rb eb] eqn:Eb. simpl.
  intros [= <- <-]. exists options, eb. split; [done|]. split; [done|].
  unfold and_then at 1 in Eb.
  destruct (ADConnection.bind W _ credentials _) as [r1 e1] eqn:E1.
  pose proof E1 as E1'.
  apply bind_exact in E1' as [[-> Hnone]|(who & cred & Hb & -> & ->)];
    simpl in *.
  { left. split; [done|]. destruct r1 as [ok|x]; [|by injection Eb as <- <-].
    exfalso. revert E1. unfold ADConnection.bind, bound_as in *. simpl.
    destruct (ADConnection.effective_credentials _ _) as [c|] eqn:Hc; [|done].
    rewrite and_then_lift_ok.
    destruct (ADConnection.bind_username _ c) as [who|] eqn:Hw; [|done].
    rewrite and_then_lift_ok. unfold getitem.
    destruct (c !! "password") as [cred|] eqn:Hp; [|done].
    exfalso. apply (Hnone who cred). eauto. }
  right. exists who, cred. split; [done|].
  destruct (ldap_bind_s W _ _ who cred) as [e|]; [by injection Eb as <- <-|].
  unfold and_then in Eb. rewrite search_run in Eb. simpl in Eb.
  destruct (ldap_search_s W _ _ base filterstr attrlist) as [e|rs] eqn:Hout.
  - by injection Eb as <- <-.
  - destruct (k rs _) as [rk ek] eqn:Ek.
    match type of Ek with k rs ?h' = _ => pose proof (Hk rs h') as Hek end.
    rewrite Ek in Hek. simpl in Hek. subst ek. by injection Eb as <- <-.
Qed.

End SessionExact.

Section CallOrder.
Context {rt : PyRuntime} (W : World).

Lemma get_user_calls self user_string base credentials attributes json_safe
    h r evs b :
  EasyAD.get_user W self user_string base credentials attributes json_safe h
    = (r, evs) ->
  EasyAD.base_or_default self base = Ok b ->
  session_of W h (EasyAD.config self) credentials b
    (EasyAD.user_filter user_string)
    (default (EasyAD.user_attributes self) attributes) evs.
Proof.
  unfold EasyAD.get_user. intros Hrun Hb. rewrite Hb in Hrun.
  rewrite and_then_lift_ok in Hrun. revert Hrun. apply session_exact.
  intros rs h'. unfold and_then, lift, past. simpl.
  repeat case_match; by simplify_eq.
Qed.

Lemma get_group_calls self group_string base credentials attributes json_safe
    h r evs b :
  EasyAD.get_group W self group_string base credentials attributes json_safe h
    = (r, evs) ->
  EasyAD.base_or_default self base = Ok b ->
  session_of W h (EasyAD.config self) credentials b
    (EasyAD.group_filter group_string)
    (default (EasyAD.group_attributes self) attributes) evs.
Proof.
  unfold EasyAD.get_group. intros Hrun Hb. rewrite Hb in Hrun.
  rewrite and_then_lift_ok in Hrun. unfold and_then at 1 in Hrun.
  destruct (and_then _ _ h) as [r1 e1] eqn:Hsession.
  apply session_exact in Hsession.
  2:{ intros rs h'. unfold and_then, lift, ret. simpl.
      repeat case_match; by simplify_eq. }
  destruct r1 as [results|x]; [|by injection Hrun as <- <-].
  revert Hrun. unfold and_then, lift. simpl.
  destruct (EasyAD.first results); simpl; intros [= <- <-];
    by rewrite ?app_nil_r.
Qed.

(** X1.  [get_user] and [get_group] talk to the library in one fixed order.
    Without a base DN they raise before any call, and without [AD_SERVER]
    they make no call either.  Otherwise the calls are exactly
    [ldap.initialize] on [ldap://<AD_SERVER>] and the options of the new
    connection; then a [bind_s] with the identity and password [bind]
    settles on, unless it finds none; then, if and only if the directory
    accepted the bind, one [search_s] with the base, the filter built from
    the escaped identifier and the attribute list, recorded with the
    directory's answer; and [unbind] as the last call. *)
Theorem lookup_calls (self : EasyAD.t) (h : list event) :
  (forall user_string base credentials attributes json_safe r evs,
     EasyAD.get_user W self user_string base credentials attributes
       json_safe h = (r, evs) ->
     match EasyAD.base_or_default self base with
     | Ok b =>
       session_of W h (EasyAD.config self) credentials b
         (EasyAD.user_filter user_string)
         (default (EasyAD.user_attributes self) attributes) evs
     | Raise x => evs = [] /\ r = Raise x
     end) /\
  (forall group_string base credentials attributes json_safe r evs,
     EasyAD.get_group W self group_string base credentials attributes
       json_safe h = (r, evs) ->
     match EasyAD.base_or_default self base with
     | Ok b =>
       session_of W h (EasyAD.config self) credentials b
         (EasyAD.group_filter group_string)
         (default (EasyAD.group_attributes self) attributes) evs
     | Raise x => evs = [] /\ r = Raise x
     end).
Proof.
  split.
  - intros user_string base credentials attributes json_safe r evs Hrun.
    destruct (EasyAD.base_or_default self base) as [b|x] eqn:Hb.
    + by eapply get_user_calls.
    + unfold EasyAD.get_user in Hrun. rewrite Hb in Hrun.
      by injection Hrun as <- <-.
  - intros group_string base credentials attributes json_safe r evs Hrun.
    destruct (EasyAD.base_or_default self base) as [b|x] eqn:Hb.
    + by eapply get_group_calls.
    + unfold EasyAD.get_group in Hrun. rewrite Hb in Hrun.
      by injection Hrun as <- <-.
Qed.

End CallOrder.

(** ** The outcome of a unique lookup *)

Lemma bound_as_functional config credentials who cred who' cred' :
  bound_as config credentials who cred ->
  bound_as config credentials who' cred' ->
  who = who' /\ cred = cred'.
Proof. intros (c & Hc & Hw & Hp) (c' & Hc' & Hw' & Hp'). split; congruence. Qed.

(** A session on a directory that accepts the bind and answers the search
    with [results] shows that search. *)
Lemma session_of_searched (W : World) h config credentials base filterstr
    attrlist evs who cred results :
  session_of W h config credentials base filterstr attrlist evs ->
  is_Some (config !! "AD_SERVER") ->
  bound_as config credentials who cred ->
  (forall h' c, ldap_bind_s W h' c who cred = None) ->
  (forall h' c, ldap_search_s W h' c base filterstr attrlist = inr results) ->
  searched evs results.
Proof.
  unfold session_of. intros Hsession [server Hserver] Hb Hbind Hsearch.
  rewrite Hserver in Hsession.
  destruct Hsession as (options & calls & _ & -> & Hcalls).
  cbv zeta in Hcalls.
  destruct Hcalls as [[Hnone _]|(who' & cred' & Hb' & Hcalls)];
    [by destruct (Hnone who cred)|].
  destruct (bound_as_functional _ _ _ _ _ _ Hb Hb') as [<- <-].
  rewrite Hbind, Hsearch in Hcalls. subst calls.
  exists (connections h), base, filterstr, attrlist.
  right. apply in_or_app. right. right. by left.
Qed.

Lemma sorted_attribute_list {rt : PyRuntime} k entry result :
  sorted_attribute k entry result -> sorted_list_attribute k entry result.
Proof.
  unfold sorted_attribute, sorted_list_attribute. intros H l Hl.
  by rewrite Hl in H.
Qed.

Section UniqueLookup.
Context {rt : PyRuntime} (W : World).

(** X17.  Take the search [get_user] or [get_group] made and the entries
    [decode_ldap_results] keeps of what it returned.  With no entry the
    operation raises [ValueError] "No such user" ("No such group"); with two
    or more it raises [ValueError] "The query returned more than one
    result".  With exactly one entry, typed as the directory's schema types
    it, the operation returns; and whatever it returns is that entry in
    which every [memberOf] and [showInAddressBook] ([member] for a group)
    that holds a list -- an attribute with two values or more -- holds the
    same values in case-insensitive ascending order, the attributes
    [get_user] does not decode being unchanged.  And the search is made: on
    a client
    with a server and a base DN, once [bind] has an identity and the
    directory accepts it, the answer of the directory to the search is in
    the trace. *)
Theorem unique_lookup_outcomes (self : EasyAD.t) (h : list event)
    (json_safe : bool) (results : list raw_result) :
  let entries := decode_ldap_results results json_safe in
  (forall user_string base credentials attributes r evs,
     EasyAD.get_user W self user_string base credentials attributes
       json_safe h = (r, evs) ->
     searched evs results ->
     (entries = [] -> r = Raise (ValueError "No such user")) /\
     ((2 <= length entries)%nat ->
      r = Raise (ValueError "The query returned more than one result")) /\
     (forall entry, entries = [entry] ->
        (user_schema entry -> exists user, r = Ok user) /\
        (forall user, r = Ok user ->
           sorted_list_attribute "memberOf" entry user /\
           sorted_list_attribute "showInAddressBook" entry user /\
           forall k, k ∉ processed_keys -> user !! k = entry !! k))) /\
  (forall group_string base credentials attributes r evs,
     EasyAD.get_group W self group_string base credentials attributes
       json_safe h = (r, evs) ->
     searched evs results ->
     (entries = [] -> r = Raise (ValueError "No such group")) /\
     ((2 <= length entries)%nat ->
      r = Raise (ValueError "The query returned more than one result")) /\
     (forall entry, entries = [entry] ->
        (attribute_is sortable "member" entry -> exists group, r = Ok group) /\
        (forall group, r = Ok group ->
           sorted_list_attribute "member" entry group /\
           forall k, k <> "member" -> group !! k = entry !! k))) /\
  (forall user_string base b credentials attributes who cred,
     EasyAD.base_or_default self base = Ok b ->
     is_Some (EasyAD.config self !! "AD_SERVER") ->
     bound_as (EasyAD.config self) credentials who cred ->
     (forall h' c, ldap_bind_s W h' c who cred = None) ->
     (forall h' c,
        ldap_search_s W h' c b (EasyAD.user_filter user_string)
          (default (EasyAD.user_attributes self) attributes)
        = inr results) ->
     searched
       (EasyAD.get_user W self user_string base credentials attributes
          json_safe h).2 results) /\
  (forall group_string base b credentials attributes who cred,
     EasyAD.base_or_default self base = Ok b ->
     is_Some (EasyAD.config self !! "AD_SERVER") ->
     bound_as (EasyAD.config self) credentials who cred ->
     (forall h' c, ldap_bind_s W h' c who cred = None) ->
     (forall h' c,
        ldap_search_s W h' c b (EasyAD.group_filter group_string)
          (default (EasyAD.group_attributes self) attributes)
        = inr results) ->
     searched
       (EasyAD.get_group W self group_string base credentials attributes
          json_safe h).2 results).
Proof.
  intros entries. split; [|split; [|split]].
  - intros user_string base credentials attributes r evs Hrun Hs.
    destruct (get_user_outcome W _ _ _ _ _ _ _ _ _ _ Hrun Hs) as [now ->].
    fold entries. cbv zeta. split; [|split].
    + by intros ->.
    + destruct entries as [|e1 [|e2 l]]; simpl; try lia. done.
    + intros entry ->. simpl. split; [apply process_user_ok|].
      intros user Hr.
      apply process_user_inv in Hr as (Hmember & Hshow & Hother).
      by repeat split; try apply sorted_attribute_list.
  - intros group_string base credentials attributes r evs Hrun Hs.
    rewrite (get_group_outcome W _ _ _ _ _ _ _ _ _ _ Hrun Hs).
    fold entries. cbv zeta. split; [|split].
    + by intros ->.
    + destruct entries as [|e1 [|e2 l]]; simpl; try lia. done.
    + intros entry ->. simpl. split.
      * intros Hm. apply update_if_present_ok. intros v Hv.
        destruct (sorted_lower_sortable v (Hm v Hv)) as [l ->]. by eexists.
      * intros group Hsort. split.
        -- by apply sorted_attribute_list, sort_if_present_sorted.
        -- intros k Hk. by apply (update_if_present_other _ _ _ _ k Hsort).
  - intros user_string base b credentials attributes who cred Hb Hserver
      Hbound Hbind Hsearch.
    destruct (EasyAD.get_user _ _ _ _ _ _ _ _) as [r evs] eqn:Hrun. simpl.
    eapply session_of_searched; [|done..].
    by eapply get_user_calls.
  - intros group_string base b credentials attributes who cred Hb Hserver
      Hbound Hbind Hsearch.
    destruct (EasyAD.get_group _ _ _ _ _ _ _ _) as [r evs] eqn:Hrun. simpl.
    eapply session_of_searched; [|done..].
    by eapply get_group_calls.
Qed.

End UniqueLookup.

(** ** Who binds *)

Lemma session_calls_bind h config credentials base filterstr attrlist evs
    c who cred out :
  session_calls h config credentials base filterstr attrlist evs ->
  In (EBind c who cred out) evs ->
  bound_as config credentials who cred.
Proof.
  intros [->|(url & options & calls & -> & Hopt & Hcalls)] Hin; [done|].
  destruct Hin as [Hin|Hin]; [done|].
  apply in_app_or in Hin as [Hin|Hin].
  { rewrite Forall_forall in Hopt. apply list_elem_of_In, Hopt in Hin. done. }
  apply in_app_or in Hin as [Hin|[Hin|[]]]; [|done].
  destruct Hcalls as [->|[(w & p & e & Hb & ->)|(w & p & o & Hb & ->)]].
  - done.
  - destruct Hin as [Hin|[]]. by simplify_eq.
  - destruct Hin as [Hin|[Hin|[]]]; by simplify_eq.
Qed.

Lemma bound_as_given config username password who cred :
  bound_as config (Some (credentials_of username password)) who cred ->
  cred = CStr password /\
  ADConnection.bind_username config (credentials_of username password)
  = Ok who.
Proof.
  intros (c & Hc & Hw & Hp). revert Hc.
  unfold ADConnection.effective_credentials, ADConnection.needs_defaults.
  rewrite (has_key_true _ "username" (CStr username)),
    (has_key_true _ "password" (CStr password)).
  - simpl. intros [= <-]. split; [|done].
    unfold credentials_of in Hp. rewrite lookup_insert_eq in Hp.
    by injection Hp.
  - apply lookup_insert_eq.
  - unfold credentials_of. rewrite lookup_insert_ne by done.
    apply lookup_insert_eq.
Qed.

Section WhoBinds.
Context {rt : PyRuntime} (W : World).

Lemma authenticate_user_calls self username password base attributes
    json_safe h :
  (EasyAD.authenticate_user W self username password base attributes
     json_safe h).2
  = (EasyAD.get_user W self username base
       (Some (credentials_of username password)) attributes json_safe h).2.
Proof.
  unfold EasyAD.authenticate_user, except_invalid_credentials, and_then.
  change (<["password" := CStr password]> (<["username" := CStr username]> ∅))
    with (credentials_of username password).
  destruct (EasyAD.get_user _ _ _ _ _ _ _ _) as [r evs].
  destruct r as [user|x]; simpl; [by rewrite app_nil_r|].
  destruct x as [| | | | | |[]]; simpl; by rewrite ?app_nil_r.
Qed.

(** X2.  Every bind [authenticate_user] makes uses the password it was
    given and the identity [bind] derives from the username it was given:
    it never falls back on the configured [AD_BIND_USERNAME] and
    [AD_BIND_PASSWORD]. *)
Theorem authenticate_user_binds_as_given (self : EasyAD.t)
    (username password : string) (base : option libarg)
    (attributes : option (list string)) (json_safe : bool) (h : list event)
    (c : nat) (who : string) (cred : cfgval) (out : option ldap_error) :
  In (EBind c who cred out)
     (EasyAD.authenticate_user W self username password base attributes
        json_safe h).2 ->
  cred = CStr password /\
  ADConnection.bind_username (EasyAD.config self)
    (credentials_of username password) = Ok who.
Proof.
  rewrite authenticate_user_calls.
  destruct (EasyAD.get_user _ _ _ _ _ _ _ _) as [r evs] eqn:Hrun. simpl.
  intros Hin. unfold EasyAD.get_user in Hrun.
  destruct (EasyAD.base_or_default self base) as [b|x];
    [|by injection Hrun as <- <-].
  rewrite and_then_lift_ok in Hrun.
  apply session_trace_calls in Hrun.
  - apply bound_as_given. by eapply session_calls_bind.
  - intros rs h'. unfold and_then, lift, past. simpl.
    repeat case_match; by simplify_eq.
Qed.

End WhoBinds.

(** ** Transitive searches *)

Lemma mapM_inv {A B} (f : A -> result B) l l' :
  mapM f l = Ok l' -> Forall2 (fun x y => f x = Ok y) l l'.
Proof.
  revert l'. induction l as [|x l IH]; simpl; intros l'.
  - intros [= <-]. constructor.
  - destruct (f x) as [y|] eqn:Hx; simpl; [|done].
    destruct (mapM f l) as [ys|]; simpl; [|done].
    intros [= <-]. constructor; [done|by apply IH].
Qed.

(** What the tail of a transitive search returns: the [distinguishedName]
    of every entry, each a single value, in case-insensitive ascending
    order. *)
Lemma sorted_dns_inv {rt : PyRuntime} results json_safe dns :
  EasyAD.sorted_dns results json_safe = Ok dns ->
  exists names,
    Forall2 (fun entry a => entry !! "distinguishedName" = Some (VAtom a))
            (decode_ldap_results results json_safe) names /\
    Permutation names dns /\ sorted_ci dns.
Proof.
  unfold EasyAD.sorted_dns, sort_values.
  destruct (mapM _ (decode_ldap_results _ _)) as [values|] eqn:H1; [|done].
  simpl. destruct (mapM _ values) as [names|] eqn:H2; [|done]. simpl.
  intros Hsort. apply sort_atoms_inv in Hsort as [Hsorted Hperm].
  exists names. split; [|done].
  apply mapM_inv in H1, H2. clear -H1 H2.
  revert names H2. induction H1 as [|entry v entries values Hv _ IH];
    intros names H2; inversion H2 as [|? a ? names' Ha Hrest]; subst;
    constructor.
  - unfold getitem in Hv. destruct (entry !! "distinguishedName"); [|done].
    injection Hv as ->. by destruct v; simplify_eq.
  - by apply IH.
Qed.

Section Transitive.
Context {rt : PyRuntime} (W : World).

(** The session of a transitive search: its calls, and where its result
    comes from. *)
Lemma transitive_session config credentials base filterstr json_safe h r evs :
  (conn <~ ADConnection.init config ;;
   try_finally
     (ADConnection.bind W conn credentials ;;;
      results <~ ADConnection.search_s W conn base filterstr
                   ["distinguishedName"] ;;
      lift (EasyAD.sorted_dns results json_safe))
     (ADConnection.unbind conn)) h = (r, evs) ->
  session_calls h config credentials base filterstr ["distinguishedName"] evs /\
  forall dns, r = Ok dns ->
    exists results, searched evs results /\
                    EasyAD.sorted_dns results json_safe = Ok dns.
Proof.
  intros Hrun.
  assert (forall rs h',
            (lift (EasyAD.sorted_dns rs json_safe) h').2 = []) as Hk by done.
  split; [by eapply session_trace_calls; [exact Hk|exact Hrun]|].
  apply (session_trace W) in Hrun; [|done].
  intros dns ->.
  destruct Hrun as [[_ ?]|(url & options & _ & Hcases)]; [done|].
  cbv zeta in Hcases.
  destruct Hcases as [[_ [x ?]]|[(who & cred & e & _ & _ & ?)
                               |(who & cred & out & _ & -> & Hout)]];
    try done.
  destruct out as [e|rs]; [done|]. destruct Hout as [h' Hr].
  exists rs. split; [|done].
  exists (connections h), base, filterstr, ["distinguishedName"].
  apply in_or_app. right. right. by left.
Qed.

(** X3.  Whenever [get_all_user_groups] or [get_all_users_in_group]
    returns, one of its searches returned results in which every entry has a
    single [distinguishedName], and the list returned holds exactly these
    names, in case-insensitive ascending order: their forms lowered by
    [str.lower()], which are the keys [sorted] is given, do not decrease. *)
Theorem transitive_searches_sorted (self : EasyAD.t) (h : list event) :
  (forall user base credentials json_safe dns evs,
     EasyAD.get_all_user_groups W self user base credentials json_safe h
       = (Ok dns, evs) ->
     exists results names,
       searched evs results /\
       Forall2 (fun entry a => entry !! "distinguishedName" = Some (VAtom a))
               (decode_ldap_results results json_safe) names /\
       Permutation names dns /\ sorted_ci dns) /\
  (forall group base credentials json_safe dns evs,
     EasyAD.get_all_users_in_group W self group base credentials json_safe h
       = (Ok dns, evs) ->
     exists results names,
       searched evs results /\
       Forall2 (fun entry a => entry !! "distinguishedName" = Some (VAtom a))
               (decode_ldap_results results json_safe) names /\
       Permutation names dns /\ sorted_ci dns).
Proof.
  split.
  - intros user base credentials json_safe dns evs.
    unfold EasyAD.get_all_user_groups. unfold and_then at 1.
    destruct (EasyAD.resolve_user_dn _ _ _ _ _ _ _) as [[dn|x] e1];
      [|done].
    destruct (EasyAD.base_or_default self base) as [b|x];
      [|by rewrite and_then_lift_raise].
    rewrite and_then_lift_ok.
    destruct (escape_value dn) as [escaped|x];
      [|by rewrite and_then_lift_raise].
    rewrite and_then_lift_ok.
    destruct (and_then _ _ (h ++ e1)) as [r2 e2] eqn:Hrun.
    intros [= -> <-].
    apply transitive_session in Hrun as [_ Hok].
    destruct (Hok dns eq_refl) as (results & Hs & Hdns).
    apply sorted_dns_inv in Hdns as (names & Hnames & Hperm & Hsorted).
    exists results, names. split; [|done].
    apply searched_app. by right.
  - intros group base credentials json_safe dns evs.
    unfold EasyAD.get_all_users_in_group. unfold and_then at 1.
    destruct (EasyAD.resolve_group_dn _ _ _ _ _ _ _) as [[dn|x] e1];
      [|done].
    destruct (EasyAD.base_or_default self base) as [b|x];
      [|by rewrite and_then_lift_raise].
    rewrite and_then_lift_ok.
    destruct (escape_value dn) as [escaped|x];
      [|by rewrite and_then_lift_raise].
    rewrite and_then_lift_ok.
    destruct (and_then _ _ (h ++ e1)) as [r2 e2] eqn:Hrun.
    intros [= -> <-].
    apply transitive_session in Hrun as [_ Hok].
    destruct (Hok dns eq_refl) as (results & Hs & Hdns).
    apply sorted_dns_inv in Hdns as (names & Hnames & Hperm & Hsorted).
    exists results, names. split; [|done].
    apply searched_app. by right.
Qed.

Lemma bind_unset_username self h :
  unset (ADConnection.config self) "AD_BIND_USERNAME" ->
  ADConnection.bind W self None h
  = (Raise (ValueError "AD_BIND_USERNAME must be set"), []).
Proof.
  intros Hu. apply missing_or_none_unset in Hu.
  unfold ADConnection.bind, ADConnection.effective_credentials. simpl.
  by rewrite Hu.
Qed.

Lemma unset_username_session {A} config (k : ADConnection.t -> M A) h r evs :
  unset config "AD_BIND_USERNAME" ->
  is_Some (config !! "AD_SERVER") ->
  (conn <~ ADConnection.init config ;;
   try_finally (ADConnection.bind W conn None ;;; k conn)
     (ADConnection.unbind conn)) h = (r, evs) ->
  r = Raise (ValueError "AD_BIND_USERNAME must be set").
Proof.
  intros Hu [server Hs]. unfold and_then at 1.
  destruct (ADConnection.init _ h) as [r0 e0] eqn:Einit.
  apply init_trace in Einit
    as [(Hnone & _)|(conn & url & options & -> & _ & Hcfg & -> & _)];
    [congruence|].
  unfold try_finally. unfold and_then at 1.
  rewrite bind_unset_username by by rewrite Hcfg.
  simpl. by intros [= <- <-].
Qed.

Lemma base_or_default_present self b :
  EasyAD.config self !! "AD_BASE_DN" = Some b ->
  EasyAD.base_or_default self None = Ok (ArgCfg b).
Proof. intros Hb. unfold EasyAD.base_or_default, getitem. by rewrite Hb. Qed.

(** X4.  [get_all_user_groups] and [get_all_users_in_group] resolve a name
    that is not a distinguished name with the configured bind credentials,
    whatever credentials the caller passes: on a client that has a server
    and a base DN but no [AD_BIND_USERNAME], both raise [ValueError]
    "AD_BIND_USERNAME must be set". *)
Theorem transitive_lookup_needs_configured_bind (self : EasyAD.t) (s : string)
    (base : option libarg) (credentials : option (gmap string cfgval))
    (json_safe : bool) (h : list event) :
  String.prefix "cn=" (lower s) = false ->
  unset (EasyAD.config self) "AD_BIND_USERNAME" ->
  is_Some (EasyAD.config self !! "AD_SERVER") ->
  is_Some (EasyAD.config self !! "AD_BASE_DN") ->
  (EasyAD.get_all_user_groups W self (RefStr s) base credentials json_safe
     h).1
  = Raise (ValueError "AD_BIND_USERNAME must be set") /\
  (EasyAD.get_all_users_in_group W self (RefStr s) base credentials json_safe
     h).1
  = Raise (ValueError "AD_BIND_USERNAME must be set").
Proof.
  intros Hdn Hu Hs [b Hb]. split.
  - destruct (EasyAD.get_all_user_groups _ _ _ _ _ _ _) as [r evs] eqn:Hrun.
    simpl. revert Hrun.
    unfold EasyAD.get_all_user_groups, EasyAD.resolve_user_dn.
    rewrite Hdn. simpl. unfold and_then at 1. unfold and_then at 1.
    destruct (EasyAD.get_user _ _ _ _ _ _ _ _) as [r1 e1] eqn:Hget.
    unfold EasyAD.get_user in Hget.
    rewrite (base_or_default_present _ _ Hb), and_then_lift_ok in Hget.
    apply unset_username_session in Hget; [|done..].
    subst r1. by intros [= <- <-].
  - destruct (EasyAD.get_all_users_in_group _ _ _ _ _ _ _) as [r evs]
      eqn:Hrun.
    simpl. revert Hrun.
    unfold EasyAD.get_all_users_in_group, EasyAD.resolve_group_dn.
    rewrite Hdn. simpl. unfold and_then at 1. unfold and_then at 1.
    destruct (EasyAD.get_group _ _ _ _ _ _ _ _) as [r1 e1] eqn:Hget.
    unfold EasyAD.get_group in Hget.
    rewrite (base_or_default_present _ _ Hb), and_then_lift_ok in Hget.
    unfold and_then at 1 in Hget.
    destruct (and_then _ _ h) as [r2 e2] eqn:Hsession.
    apply unset_username_session in Hsession; [|done..].
    subst r2. injection Hget as <- <-. by intros [= <- <-].
Qed.

Lemma sorted_dns_length results json_safe dns :
  EasyAD.sorted_dns results json_safe = Ok dns ->
  length dns = length (decode_ldap_results results json_safe).
Proof.
  intros H. apply sorted_dns_inv in H as (names & Hnames & Hperm & _).
  apply Forall2_length in Hnames. apply Permutation_length in Hperm.
  congruence.
Qed.

(** X5.  Given a user and a group that are both distinguished names,
    [user_is_member_of_group] makes one session whose search is rooted at the
    user's name -- the [base] it was given is not used -- with the chained
    [memberof] filter on the escaped group name; and when it returns, its
    answer is whether that search returned at least one entry. *)
Theorem membership_search (self : EasyAD.t) (u g : string)
    (base : option libarg) (credentials : option (gmap string cfgval))
    (h : list event) (r : result bool) (evs : list event) :
  String.prefix "cn=" (lower u) = true ->
  String.prefix "cn=" (lower g) = true ->
  EasyAD.user_is_member_of_group W self (RefStr u) (RefStr g) base credentials
    h = (r, evs) ->
  session_calls h (EasyAD.config self) credentials (ArgVal (VAtom (Str u)))
    ("(&(objectClass=user)(memberof:1.2.840.113556.1.4.1941:="
     +:+ escape_filter_chars g +:+ "))")
    ["distinguishedName"] evs /\
  forall b, r = Ok b ->
    exists results,
      searched evs results /\
      b = (0 <? length (decode_ldap_results results false))%nat.
Proof.
  intros Hu Hg.
  unfold EasyAD.user_is_member_of_group, EasyAD.resolve_user_dn,
    EasyAD.resolve_group_dn.
  rewrite Hu, Hg. cbn [negb].
  rewrite (and_then_ret (VAtom (Str u))), (and_then_ret (VAtom (Str g))).
  cbn [ref_of_value]. unfold and_then at 1.
  destruct (EasyAD.get_all_users_in_group _ _ _ _ _ _ _) as [r2 e2] eqn:Hrun.
  unfold EasyAD.get_all_users_in_group, EasyAD.resolve_group_dn in Hrun.
  rewrite Hg in Hrun. cbn [negb] in Hrun.
  rewrite (and_then_ret (VAtom (Str g))) in Hrun.
  cbn [EasyAD.base_or_default escape_value] in Hrun.
  rewrite (and_then_lift_ok (ArgVal (VAtom (Str u)))),
    (and_then_lift_ok (escape_filter_chars g)) in Hrun.
  apply transitive_session in Hrun as [Hcalls Hok].
  destruct r2 as [dns|x]; intros [= <- <-].
  - rewrite app_nil_r. split; [done|]. intros b [= <-].
    destruct (Hok dns eq_refl) as (results & Hs & Hdns).
    exists results. split; [done|]. by rewrite (sorted_dns_length _ _ _ Hdns).
  - by split.
Qed.

End Transitive.

(** ** Account flags *)

Lemma land_pow2_eqb a n :
  0 <= n -> (Z.land a (2 ^ n) =? 0) = negb (Z.testbit a n).
Proof.
  intros Hn. destruct (Z.testbit a n) eqn:Hb; simpl.
  - apply Z.eqb_neq. intros H0.
    assert (Z.testbit (Z.land a (2 ^ n)) n = true) as Hbit.
    { by rewrite Z.land_spec, Hb, Z.pow2_bits_true. }
    rewrite H0, Z.bits_0 in Hbit. done.
  - apply Z.eqb_eq, Z.bits_inj'. intros m Hm.
    rewrite Z.land_spec, Z.bits_0, Z.pow2_bits_eqb by done.
    destruct (Z.eqb_spec n m) as [->|Hne]; [by rewrite Hb|].
    apply andb_false_r.
Qed.

Lemma decode_account_control_bits d d' :
  EasyAD.decode_account_control d = Ok d' ->
  match d !! "userAccountControl" with
  | Some v =>
    exists uac, py_int v = Ok uac /\
      d' !! "userAccountControl" = Some (VInt uac) /\
      d' !! "disabled" = Some (VBool (Z.testbit uac 1)) /\
      d' !! "passwordExpired" = Some (VBool (Z.testbit uac 23)) /\
      d' !! "passwordNeverExpires" = Some (VBool (Z.testbit uac 16)) /\
      d' !! "smartcardRequired" = Some (VBool (Z.testbit uac 18))
  | None => d' = d
  end.
Proof.
  unfold EasyAD.decode_account_control.
  destruct (d !! "userAccountControl") as [v|]; [|by intros [= <-]].
  destruct (py_int v) as [uac|]; simpl; [|done]. intros [= <-].
  exists uac. split; [done|].
  change 2 with (2 ^ 1). change 8388608 with (2 ^ 23).
  change 65536 with (2 ^ 16). change 262144 with (2 ^ 18).
  rewrite !land_pow2_eqb, !negb_involutive by done.
  repeat split;
    repeat first [rewrite lookup_insert_eq | rewrite lookup_insert_ne by done];
    reflexivity.
Qed.

Section AccountFlags.
Context {rt : PyRuntime} (W : World).

Lemma process_user_account_control now json_safe entry user :
  EasyAD.process_user now json_safe entry = Ok user ->
  match entry !! "userAccountControl" with
  | Some v =>
    exists uac, py_int v = Ok uac /\
      user !! "userAccountControl" = Some (VInt uac) /\
      user !! "disabled" = Some (VBool (Z.testbit uac 1)) /\
      user !! "passwordExpired" = Some (VBool (Z.testbit uac 23)) /\
      user !! "passwordNeverExpires" = Some (VBool (Z.testbit uac 16)) /\
      user !! "smartcardRequired" = Some (VBool (Z.testbit uac 18))
  | None =>
    forall k, k ∈ ["disabled"; "passwordExpired"; "passwordNeverExpires";
                   "smartcardRequired"] ->
              user !! k = entry !! k
  end.
Proof.
  unfold EasyAD.process_user.
  destruct (sort_if_present "memberOf" entry) as [e1|] eqn:H1; [|done].
  simpl.
  destruct (sort_if_present "showInAddressBook" e1) as [e2|] eqn:H2; [|done].
  simpl.
  destruct (update_if_present "lastLogonTimestamp" _ e2) as [e3|] eqn:H3;
    [|done].
  simpl.
  destruct (update_if_present "lockoutTime" _ e3) as [e4|] eqn:H4; [|done].
  simpl.
  destruct (update_if_present "pwdLastSet" _ e4) as [e5|] eqn:H5; [|done].
  simpl. intros H6.
  assert (forall k,
            k ∉ ["memberOf"; "showInAddressBook"; "lastLogonTimestamp";
                 "lockoutTime"; "pwdLastSet"] ->
            e5 !! k = entry !! k) as Hearly.
  { intros k Hk.
    rewrite (update_if_present_other _ _ _ _ k H5) by other_key.
    rewrite (update_if_present_other _ _ _ _ k H4) by other_key.
    rewrite (update_if_present_other _ _ _ _ k H3) by other_key.
    rewrite (update_if_present_other _ _ _ _ k H2) by other_key.
    apply (update_if_present_other _ _ _ _ k H1). other_key. }
  apply decode_account_control_bits in H6.
  rewrite Hearly in H6 by other_key.
  destruct (entry !! "userAccountControl") as [v|]; [done|].
  subst user. intros k Hk. apply Hearly.
  intros Hin. revert Hk Hin. rewrite !elem_of_cons, !elem_of_nil.
  intros [->|[->|[->|[->|[]]]]]; intros [|[|[|[|[|[]]]]]]; done.
Qed.

(** X6.  When [get_user] returns the single entry of its search, an entry
    that has a [userAccountControl] comes back with that attribute as an
    integer and with four flags read off its bits: [disabled] is bit 1 (2),
    [passwordNeverExpires] bit 16 (65536), [smartcardRequired] bit 18
    (262144) and [passwordExpired] bit 23 (8388608).  An entry without the
    attribute gets none of the flags. *)
Theorem account_control_flags (self : EasyAD.t) (user_string : string)
    (base : option libarg) (credentials : option (gmap string cfgval))
    (attributes : option (list string)) (json_safe : bool) (h : list event)
    (evs : list event) (results : list raw_result)
    (entry user : gmap string pyval) :
  EasyAD.get_user W self user_string base credentials attributes json_safe h
    = (Ok user, evs) ->
  searched evs results ->
  decode_ldap_results results json_safe = [entry] ->
  match entry !! "userAccountControl" with
  | Some v =>
    exists uac, py_int v = Ok uac /\
      user !! "userAccountControl" = Some (VInt uac) /\
      user !! "disabled" = Some (VBool (Z.testbit uac 1)) /\
      user !! "passwordExpired" = Some (VBool (Z.testbit uac 23)) /\
      user !! "passwordNeverExpires" = Some (VBool (Z.testbit uac 16)) /\
      user !! "smartcardRequired" = Some (VBool (Z.testbit uac 18))
  | None =>
    forall k, k ∈ ["disabled"; "passwordExpired"; "passwordNeverExpires";
                   "smartcardRequired"] ->
              user !! k = entry !! k
  end.
Proof.
  intros Hrun Hs Hone.
  destruct (get_user_outcome W _ _ _ _ _ _ _ _ _ _ Hrun Hs) as [now Hr].
  rewrite Hone in Hr. simpl in Hr. symmetry in Hr.
  by apply process_user_account_control in Hr.
Qed.

End AccountFlags.

(** ** Options of a connection *)

Ltac in_inv H :=
  simpl in H;
  repeat (destruct H as [H|H]; [try discriminate H; simplify_eq|]);
  try contradiction.
Ltac ex_inv H :=
  repeat match type of H with
         | ex _ => destruct H as [? H]
         | _ /\ _ => let H1 := fresh in destruct H as [H1 H]
         end; simplify_eq.

(** X7.  A connection that [ADConnection(config)] creates has its protocol
    version set to 3 and referral chasing switched off.  TLS is demanded
    (option value 1) unless the configuration holds [AD_REQUIRE_TLS] with a
    false value -- [False], [None] or the empty string -- in which case the
    demand is switched off (0).  A CA certificate file is set exactly when
    [AD_CA_CERT_FILE] is configured with a true value.  Without [AD_SERVER]
    the constructor raises [KeyError] before any call. *)
Theorem connection_options (config : gmap string cfgval) (h : list event)
    (r : result ADConnection.t) (evs : list event) :
  ADConnection.init config h = (r, evs) ->
  let c := connections h in
  match config !! "AD_SERVER" with
  | None => r = Raise (KeyError "AD_SERVER") /\ evs = []
  | Some server =>
    r = Ok {| ADConnection.config := config; ADConnection.ad := c |} /\
    In (EInitialize c ("ldap://" +:+ py_format server)) evs /\
    In (ESetOption c OPT_PROTOCOL_VERSION (ArgInt 3)) evs /\
    In (ESetOption c OPT_REFERRALS (ArgInt 0)) evs /\
    (In (ESetOption c OPT_X_TLS_DEMAND (ArgInt 0)) evs <->
       exists v, config !! "AD_REQUIRE_TLS" = Some v /\ truthy v = false) /\
    (In (ESetOption c OPT_X_TLS_DEMAND (ArgInt 1)) evs <->
       ~ exists v, config !! "AD_REQUIRE_TLS" = Some v /\ truthy v = false) /\
    (forall value, In (ESetOption c OPT_X_TLS_DEMAND value) evs ->
                   value = ArgInt 0 \/ value = ArgInt 1) /\
    (forall value, In (ESetOption c OPT_X_TLS_CACERTFILE value) evs <->
       exists file, value = ArgCfg file /\
                    config !! "AD_CA_CERT_FILE" = Some file /\
                    truthy file = true)
  end.
Proof.
  unfold ADConnection.init, getitem.
  destruct (config !! "AD_SERVER") as [server|]; simpl;
    [|by intros [= <- <-]].
  rewrite and_then_lift_ok, and_then_past.
  unfold and_then, emit, ret, lift. simpl.
  destruct (config !! "AD_CA_CERT_FILE") as [file|] eqn:Hca;
    destruct (config !! "AD_REQUIRE_TLS") as [tls|] eqn:Htls; simpl;
    try destruct (truthy file) eqn:Hfile;
    try destruct (truthy tls) eqn:Htruthy; simpl;
    intros [= <- <-]; (split; [done|]); simpl;
    (split; [tauto|]); (split; [tauto|]); (split; [tauto|]).
  all: split; [split; [intros H; in_inv H; eauto
                      |intros H; ex_inv H; first [tauto|congruence]]|].
  all: split; [split; [intros H; in_inv H; intros H'; ex_inv H'; congruence
                      |intros H; try tauto; exfalso; apply H; eauto]|].
  all: split; [intros value H; in_inv H; auto|].
  all: intros value; split;
    [intros H; in_inv H; eauto
    |intros H; ex_inv H; first [tauto|congruence]].
Qed.

(** ** The age of the last logon *)

Section LastLogon.
Context {rt : PyRuntime}.

(** X8.  [_get_last_logon] compares whole days, as [timedelta.days] counts
    them: a last logon less than fifteen full days before [now] -- one
    later than [now] included -- is reported as the text ["<= 14 days"],
    and from fifteen days on the time itself is returned, as a [datetime]
    whatever [json_safe] is. *)
Theorem last_logon_threshold (now : Z) (timestamp : pyval) (json_safe : bool)
    (t : Z) :
  convert_ad_timestamp timestamp false "%x %X" = Ok (VDatetime t) ->
  (now - t < 15 * us_per_day ->
   _get_last_logon now timestamp json_safe = Ok (VAtom (Str "<= 14 days"))) /\
  (15 * us_per_day <= now - t ->
   _get_last_logon now timestamp json_safe = Ok (VDatetime t)).
Proof.
  intros Hconv. split.
  - intros Hrecent. unfold _get_last_logon. rewrite Hconv. simpl.
    assert ((now - t) / us_per_day < 15) as Hdays.
    { apply Z.div_lt_upper_bound; unfold us_per_day, us_per_second in *; lia. }
    destruct (Z.leb_spec ((now - t) / us_per_day) 14); [reflexivity|lia].
  - by apply get_last_logon_old.
Qed.

End LastLogon.

(** ** The timestamps of a user *)

Section UserTimestamps.
Context {rt : PyRuntime} (W : World).

Lemma process_user_times now json_safe entry user :
  EasyAD.process_user now json_safe entry = Ok user ->
  match entry !! "lastLogonTimestamp" with
  | Some v => exists v', _get_last_logon now v false = Ok v' /\
                         user !! "lastLogonTimestamp" = Some v'
  | None => user !! "lastLogonTimestamp" = None
  end /\
  forall k, k ∈ ["lockoutTime"; "pwdLastSet"] ->
    match entry !! k with
    | Some v => exists v', convert_ad_timestamp v json_safe "%x %X" = Ok v' /\
                           user !! k = Some v'
    | None => user !! k = None
    end.
Proof.
  unfold EasyAD.process_user.
  destruct (sort_if_present "memberOf" entry) as [e1|] eqn:H1; [|done].
  simpl.
  destruct (sort_if_present "showInAddressBook" e1) as [e2|] eqn:H2; [|done].
  simpl.
  destruct (update_if_present "lastLogonTimestamp" _ e2) as [e3|] eqn:H3;
    [|done].
  simpl.
  destruct (update_if_present "lockoutTime" _ e3) as [e4|] eqn:H4; [|done].
  simpl.
  destruct (update_if_present "pwdLastSet" _ e4) as [e5|] eqn:H5; [|done].
  simpl. intros H6.
  assert (forall k, k ∉ ["memberOf"; "showInAddressBook"] ->
                    e2 !! k = entry !! k) as Hearly.
  { intros k Hk.
    rewrite (update_if_present_other _ _ _ _ k H2) by other_key.
    apply (update_if_present_other _ _ _ _ k H1). other_key. }
  assert (forall k,
            k ∉ ["userAccountControl"; "disabled"; "passwordExpired";
                 "passwordNeverExpires"; "smartcardRequired"] ->
            user !! k = e5 !! k) as Hlate.
  { intros k Hk. apply (decode_account_control_other _ _ k H6). other_key. }
  split; [|intros k Hk; apply list_elem_of_In in Hk as [<-|[<-|[]]]].
  - rewrite Hlate by other_key.
    rewrite (update_if_present_other _ _ _ _ _ H5) by done.
    rewrite (update_if_present_other _ _ _ _ _ H4) by done.
    rewrite <- Hearly by other_key.
    revert H3. unfold update_if_present.
    destruct (e2 !! "lastLogonTimestamp") as [v|] eqn:Hv.
    + destruct (_get_last_logon now v false) as [v'|]; simpl; [|done].
      intros [= <-]. exists v'. by rewrite lookup_insert_eq.
    + by intros [= <-].
  - rewrite Hlate by other_key.
    rewrite (update_if_present_other _ _ _ _ _ H5) by done.
    rewrite <- Hearly by other_key.
    rewrite <- (update_if_present_other _ _ _ _ "lockoutTime" H3) by done.
    revert H4. unfold update_if_present.
    destruct (e3 !! "lockoutTime") as [v|] eqn:Hv.
    + destruct (convert_ad_timestamp v json_safe "%x %X") as [v'|]; simpl;
        [|done].
      intros [= <-]. exists v'. by rewrite lookup_insert_eq.
    + by intros [= <-].
  - rewrite Hlate by other_key.
    rewrite <- Hearly by other_key.
    rewrite <- (update_if_present_other _ _ _ _ "pwdLastSet" H3) by done.
    rewrite <- (update_if_present_other _ _ _ _ "pwdLastSet" H4) by done.
    revert H5. unfold update_if_present.
    destruct (e4 !! "pwdLastSet") as [v|] eqn:Hv.
    + destruct (convert_ad_timestamp v json_safe "%x %X") as [v'|]; simpl;
        [|done].
      intros [= <-]. exists v'. by rewrite lookup_insert_eq.
    + by intros [= <-].
Qed.

(** X9.  When [get_user] returns the single entry of its search,
    [lockoutTime] and [pwdLastSet] hold what [convert_ad_timestamp] makes of
    the entry's values with the caller's [json_safe], and
    [lastLogonTimestamp] holds what [_get_last_logon] makes of the entry's
    value for some reading of the clock, always with [json_safe] off.  An
    attribute the entry lacks is not added. *)
Theorem user_timestamps (self : EasyAD.t) (user_string : string)
    (base : option libarg) (credentials : option (gmap string cfgval))
    (attributes : option (list string)) (json_safe : bool) (h : list event)
    (evs : list event) (results : list raw_result)
    (entry user : gmap string pyval) :
  EasyAD.get_user W self user_string base credentials attributes json_safe h
    = (Ok user, evs) ->
  searched evs results ->
  decode_ldap_results results json_safe = [entry] ->
  (exists now,
     match entry !! "lastLogonTimestamp" with
     | Some v => exists v', _get_last_logon now v false = Ok v' /\
                            user !! "lastLogonTimestamp" = Some v'
     | None => user !! "lastLogonTimestamp" = None
     end) /\
  forall k, k ∈ ["lockoutTime"; "pwdLastSet"] ->
    match entry !! k with
    | Some v => exists v', convert_ad_timestamp v json_safe "%x %X" = Ok v' /\
                           user !! k = Some v'
    | None => user !! k = None
    end.
Proof.
  intros Hrun Hs Hone.
  destruct (get_user_outcome W _ _ _ _ _ _ _ _ _ _ Hrun Hs) as [now Hr].
  rewrite Hone in Hr. simpl in Hr. symmetry in Hr.
  apply process_user_times in Hr as [Hlast Hother].
  split; [by exists now|done].
Qed.

End UserTimestamps.

(** ** What the normalizer keeps *)





Lemma decode_value_payload v : atom_payload (decode_value false v) = v.
Proof. unfold decode_value, utf8_decode. by destruct (utf8_valid v). Qed.

Lemma values_of_decode_attribute json_safe values :
  values_of (decode_attribute json_safe values)
  = map (decode_value json_safe) values.
Proof. unfold decode_attribute. by destruct values as [|x [|y l]]. Qed.


(** X11.  With [json_safe] off the normalizer loses nothing: reading the
    bytes of the values of every attribute of every entry gives back the
    attribute dictionaries of the results, in order; a value is left as
    bytes exactly when it is not well-formed UTF-8. *)
Theorem raw_values_round_trip (results : list raw_result) :
  map (fmap (fun v => map atom_payload (values_of v)))
      (decode_ldap_results results false)
  = omap as_dict results /\
  forall x, is_str (decode_value false x) = utf8_valid x.
Proof.
  split.
  - unfold decode_ldap_results. rewrite map_map.
    rewrite <- (map_id (omap as_dict results)) at 2.
    apply map_ext. intros d. apply map_eq. intros k.
    rewrite !lookup_fmap. destruct (d !! k) as [values|]; [|done].
    simpl. f_equal. rewrite values_of_decode_attribute, map_map.
    rewrite <- (map_id values) at 2. apply map_ext, decode_value_payload.
  - intros x. unfold decode_value, utf8_decode. by destruct (utf8_valid x).
Qed.

(** ** Client construction: the base DN *)

Lemma ends_with_app c a b :
  ends_with c (a +:+ b)
  = match b with EmptyString => ends_with c a | _ => ends_with c b end.
Proof.
  induction a as [|x a IH].
  - rewrite append_empty_l. by destruct b.
  - rewrite append_cons. cbn [ends_with]. rewrite IH.
    destruct b as [|y b]; [by rewrite append_empty_r|].
    by destruct a.
Qed.

Lemma rstrip_app_sep c s :
  ends_with c s = false ->
  rstrip c (s +:+ String c EmptyString) = s.
Proof.
  induction s as [|a r IH]; intros Hend.
  - rewrite append_empty_l. simpl. by rewrite Ascii.eqb_refl.
  - rewrite append_cons. cbn [rstrip].
    destruct r as [|b r].
    + rewrite append_empty_l. simpl in *. by rewrite Ascii.eqb_refl, Hend.
    + rewrite IH by done. done.
Qed.

Lemma foldl_dc acc parts :
  foldl (fun base_dn part => base_dn +:+ "dc=" +:+ part +:+ ",") acc parts
  = acc +:+ foldr (fun part rest => "dc=" +:+ part +:+ "," +:+ rest) "" parts.
Proof.
  revert acc. induction parts as [|p ps IH]; intros acc; simpl.
  - by rewrite append_empty_r.
  - rewrite IH. by rewrite !append_assoc.
Qed.

Lemma foldr_dc_join parts :
  parts <> [] ->
  foldr (fun part rest => "dc=" +:+ part +:+ "," +:+ rest) "" parts
  = join "," (map (String.append "dc=") parts) +:+ ",".
Proof.
  induction parts as [|p [|q ps] IH]; [done| |]; intros _.
  - simpl. by rewrite !append_assoc, append_empty_r.
  - change (foldr _ "" (p :: q :: ps))
      with ("dc=" +:+ p +:+ ","
            +:+ foldr (fun part rest => "dc=" +:+ part +:+ "," +:+ rest) ""
                  (q :: ps)).
    rewrite IH by done.
    change (join "," (map (String.append "dc=") (p :: q :: ps)))
      with (("dc=" +:+ p)
            +:+ String "," (join "," (map (String.append "dc=") (q :: ps)))).
    rewrite !append_assoc. do 2 f_equal.
Qed.

Lemma join_ends_with c sep ws :
  Forall (fun w => w <> EmptyString) ws ->
  ends_with c (join sep ws) = ends_with c (List.last ws EmptyString).
Proof.
  induction 1 as [|w [|w' ws] Hw Hws IH]; [done|done|].
  change (join sep (w :: w' :: ws)) with (w +:+ String sep (join sep (w' :: ws))).
  rewrite ends_with_app.
  change (List.last (w :: w' :: ws) "") with (List.last (w' :: ws) "").
  rewrite <- IH. cbn [ends_with].
  destruct (join sep (w' :: ws)) eqn:Hj; [|done].
  exfalso. inversion Hws as [|? ? Hw' _]; subst.
  destruct ws; simpl in Hj; [done|].
  destruct w'; [done|]. by rewrite append_cons in Hj.
Qed.

Lemma last_map {A B} (f : A -> B) l d d' :
  l <> [] -> List.last (map f l) d' = f (List.last l d).
Proof.
  induction l as [|x [|y l] IH]; [done|done|]. intros _.
  change (List.last (map f (x :: y :: l)) d')
    with (List.last (map f (y :: l)) d').
  by rewrite IH.
Qed.

Lemma split_last_ends_with c sep s :
  c <> sep ->
  ends_with c (List.last (split sep s) EmptyString) = ends_with c s.
Proof.
  intros Hne.
  destruct (split_last_after_last sep s) as [_ [Hs|[p Hs]]];
    unfold last_item in Hs; [by rewrite <- Hs|].
  rewrite Hs at 2. rewrite ends_with_app. cbn [ends_with].
  destruct (List.last _ _); [|done].
  symmetry. apply Ascii.eqb_neq. congruence.
Qed.

(** X12.  The base DN the constructor derives is one [dc=] component per
    dot-separated part of the domain, joined by commas; this holds for every
    domain that does not end in a comma ([rstrip] would remove it). *)
Theorem derive_base_dn_join (domain : string) :
  ends_with "," domain = false ->
  EasyAD.derive_base_dn domain
  = join "," (map (String.append "dc=") (split "." domain)).
Proof.
  intros Hend. unfold EasyAD.derive_base_dn.
  rewrite foldl_dc, append_empty_l, foldr_dc_join by apply split_nonempty.
  apply rstrip_app_sep.
  rewrite join_ends_with.
  - rewrite (last_map (String.append "dc=") _ "") by apply split_nonempty.
    rewrite ends_with_app.
    destruct (List.last (split "." domain) "") eqn:Hlast; [done|].
    rewrite <- Hlast, split_last_ends_with; done.
  - apply Forall_forall. intros w (p & <- & _)%list_elem_of_In%in_map_iff. done.
Qed.

(** X13.  Whenever the constructor returns, the client's configuration is
    the caller's with at most [AD_BASE_DN] changed, and it holds an
    [AD_BASE_DN], so that an operation called without [base] always finds
    one.  The supplied [AD_BASE_DN] is kept only when the configuration also
    holds a [BASE_DN] that is not [None]; with [AD_BASE_DN] absent, or
    [BASE_DN] being [None], the derived base DN is stored in its place. *)
Theorem constructor_base_dn (config : gmap string cfgval) (self : EasyAD.t) :
  EasyAD.init config = Ok self ->
  exists domain,
    config !! "AD_DOMAIN" = Some (CStr domain) /\
    ((exists b v, config !! "AD_BASE_DN" = Some b /\
                  config !! "BASE_DN" = Some v /\ v <> CNone /\
                  EasyAD.config self = config) \/
     ((config !! "AD_BASE_DN" = None \/ config !! "BASE_DN" = Some CNone) /\
      EasyAD.config self
      = <["AD_BASE_DN" := CStr (EasyAD.derive_base_dn domain)]> config)) /\
    (forall k, k <> "AD_BASE_DN" -> EasyAD.config self !! k = config !! k) /\
    exists b, EasyAD.config self !! "AD_BASE_DN" = Some b /\
              EasyAD.base_or_default self None = Ok (ArgCfg b).
Proof.
  unfold EasyAD.init, getitem, EasyAD.base_or_default.
  destruct (config !! "AD_DOMAIN") as [[| |domain]|]; simpl; try done.
  unfold has_key. case_bool_decide as Hhas; simpl.
  - destruct Hhas as [b Hb].
    destruct (config !! "BASE_DN") as [v|] eqn:Hv; simpl; [|done].
    intros [= <-]. exists domain. split; [done|]. simpl.
    destruct v; simpl.
    + split; [right; by split; [right|]|].
      split; [intros k Hk; by rewrite lookup_insert_ne|].
      rewrite lookup_insert_eq. eexists. split; [reflexivity|].
      unfold getitem. by rewrite lookup_insert_eq.
    + split; [left; by exists b, (CBool b0)|]. split; [done|].
      rewrite Hb. eexists. split; [reflexivity|].
      unfold getitem. by rewrite Hb.
    + split; [left; by exists b, (CStr s)|]. split; [done|].
      rewrite Hb. eexists. split; [reflexivity|].
      unfold getitem. by rewrite Hb.
  - intros [= <-]. exists domain. split; [done|]. simpl.
    split; [right; split; [left|done]|].
    + destruct (config !! "AD_BASE_DN") eqn:Hb; [|done].
      exfalso. apply Hhas. by eexists.
    + split; [intros k Hk; by rewrite lookup_insert_ne|].
      rewrite lookup_insert_eq. eexists. split; [reflexivity|].
      unfold getitem. by rewrite lookup_insert_eq.
Qed.

(** ** Search filters *)

Lemma count_char_app c a b :
  count_char c (a +:+ b) = (count_char c a + count_char c b)%nat.
Proof.
  induction a as [|x a IH]; [by rewrite append_empty_l|].
  rewrite append_cons. cbn [count_char]. rewrite IH. lia.
Qed.

Lemma escape_filter_chars_specials c s :
  c ∈ filter_specials -> count_char c (escape_filter_chars s) = 0%nat.
Proof.
  intros Hc. induction s as [|x s IH]; [done|].
  cbn [escape_filter_chars].
  apply list_elem_of_In in Hc.
  repeat match goal with
         | |- context [Ascii.eqb x ?y] =>
           destruct (Ascii.eqb_spec x y) as [->|?]
         end;
    rewrite ?count_char_app, ?IH;
    repeat destruct Hc as [<-|Hc]; try done;
    cbn [count_char];
    rewrite IH; by rewrite (proj2 (Ascii.eqb_neq _ _)).
Qed.

(** X14.  The identifier enters the filter of [get_user] and of [get_group]
    escaped: whatever it is, the filter has the parentheses of the filter
    for the empty identifier and no more, and neither an asterisk nor a
    NUL. *)
Theorem filters_keep_their_structure (s : string) (c : ascii) :
  c ∈ filter_specials ->
  count_char c (EasyAD.user_filter s) = count_char c (EasyAD.user_filter "") /\
  count_char c (EasyAD.group_filter s) = count_char c (EasyAD.group_filter "").
Proof.
  intros Hc. unfold EasyAD.user_filter, EasyAD.group_filter. cbv zeta.
  rewrite !count_char_app, !escape_filter_chars_specials by done.
  done.
Qed.

(** ** References that need no lookup *)

Section GivenDN.
Context {rt : PyRuntime} (W : World).

Lemma resolve_given_dn self r v base credentials json_safe h :
  given_dn r = Some v ->
  EasyAD.resolve_user_dn W self r base credentials json_safe h = (Ok v, []) /\
  EasyAD.resolve_group_dn W self r base credentials json_safe h = (Ok v, []).
Proof.
  destruct r as [d|s|]; simpl; [| |done].
  - intros Hd. unfold lift, getitem. by rewrite Hd.
  - destruct (String.prefix "cn=" (lower s)); [|done]. by intros [= <-].
Qed.


(** X16.  A reference that is neither a dictionary nor a string, and a
    dictionary without a [distinguishedName], stop the three membership
    operations before any call to the library: with [ValueError] "User
    passed as an unsupported data type" ("Group ..." where a group is
    expected) in the first case and [KeyError] in the second.
    [user_is_member_of_group] looks at the user first, and at the group
    once the user is resolved. *)
Theorem reference_without_dn_raises (self : EasyAD.t) (r : ref)
    (base : option libarg) (credentials : option (gmap string cfgval))
    (json_safe : bool) (h : list event) :
  dead_reference r ->
  EasyAD.get_all_user_groups W self r base credentials json_safe h
    = (Raise (reference_error "User" r), []) /\
  EasyAD.get_all_users_in_group W self r base credentials json_safe h
    = (Raise (reference_error "Group" r), []) /\
  (forall group,
     EasyAD.user_is_member_of_group W self r group base credentials h
     = (Raise (reference_error "User" r), [])) /\
  (forall user dn,
     given_dn user = Some dn ->
     EasyAD.user_is_member_of_group W self user r base credentials h
     = (Raise (reference_error "Group" r), [])).
Proof.
  intros Hdead.
  assert (forall base credentials json_safe h,
            EasyAD.resolve_user_dn W self r base credentials json_safe h
            = (Raise (reference_error "User" r), []) /\
            EasyAD.resolve_group_dn W self r base credentials json_safe h
            = (Raise (reference_error "Group" r), [])) as Hres.
  { intros. destruct r as [d|s|]; simpl in *; [|done|done].
    unfold lift, getitem. by rewrite Hdead. }
  repeat split.
  - unfold EasyAD.get_all_user_groups, and_then.
    by rewrite (proj1 (Hres _ _ _ _)).
  - unfold EasyAD.get_all_users_in_group, and_then.
    by rewrite (proj2 (Hres _ _ _ _)).
  - intros group. unfold EasyAD.user_is_member_of_group. unfold and_then at 1.
    by rewrite (proj1 (Hres _ _ _ _)).
  - intros user dn Hdn. unfold EasyAD.user_is_member_of_group.
    unfold and_then at 1.
    rewrite (proj1 (resolve_given_dn self user _ base credentials false h Hdn)).
    unfold and_then at 1.
    by rewrite (proj2 (Hres _ _ _ _)).
Qed.

End GivenDN.

(** ** The further properties on the sample data *)

Lemma example_base_dn :
  EasyAD.base_or_default example_client None
  = Ok (ArgCfg (CStr "dc=example,dc=com")).
Proof. vm_compute. reflexivity. Qed.

Lemma lookup_calls_witness :
  session_of example_world [] (EasyAD.config example_client)
    (Some (credentials_of "bob" "secret"))
    (ArgCfg (CStr "dc=example,dc=com")) (EasyAD.user_filter "bob")
    EasyAD.default_user_attributes
    (@EasyAD.get_user floor_runtime example_world example_client "bob" None
       (Some (credentials_of "bob" "secret")) None false []).2 /\
  session_of example_world [] (EasyAD.config example_client)
    (Some (credentials_of "bob" "secret"))
    (ArgCfg (CStr "dc=example,dc=com")) (EasyAD.group_filter "staff")
    EasyAD.default_group_attributes
    (@EasyAD.get_group floor_runtime example_world example_client "staff" None
       (Some (credentials_of "bob" "secret")) None false []).2.
Proof.
  destruct (@lookup_calls floor_runtime example_world example_client [])
    as [Huser Hgroup].
  split.
  - pose proof (Huser "bob" None (Some (credentials_of "bob" "secret")) None
                  false _ _ (surjective_pairing _)) as Hcalls.
    rewrite example_base_dn in Hcalls. exact Hcalls.
  - pose proof (Hgroup "staff" None (Some (credentials_of "bob" "secret"))
                  None false _ _ (surjective_pairing _)) as Hcalls.
    rewrite example_base_dn in Hcalls. exact Hcalls.
Defined.

(** The group of the sample directory: its two members come back with
    [alice] before [bob]. *)
Lemma unique_lookup_outcomes_witness :
  let run := @EasyAD.get_group floor_runtime example_world example_client
               "staff" None (Some (credentials_of "bob" "secret")) None false
               [] in
  let members := [Str "CN=alice,OU=Staff,DC=example,DC=com";
                  Str "CN=bob,OU=Staff,DC=example,DC=com"] in
  exists group,
    run.1 = Ok group /\
    group !! "member" = Some (VList members) /\
    @sorted_ci floor_runtime members.
Proof.
  intros run members.
  set (group := match run.1 with Ok group => group | Raise _ => ∅ end).
  pose proof (eq_refl run <: run = (Ok group, run.2)) as Hrun.
  destruct (@unique_lookup_outcomes floor_runtime example_world example_client
              [] false example_group_results) as (_ & Hgroup & _ & Hsearch).
  assert (searched run.2 example_group_results) as Hs.
  { apply (Hsearch "staff" None (ArgCfg (CStr "dc=example,dc=com"))
             (Some (credentials_of "bob" "secret")) None "bob@example.com"
             (CStr "secret")).
    - exact example_base_dn.
    - eexists. vm_compute. reflexivity.
    - exists (credentials_of "bob" "secret").
      repeat split; vm_compute; reflexivity.
    - reflexivity.
    - reflexivity. }
  destruct (Hgroup "staff" None (Some (credentials_of "bob" "secret")) None
              (Ok group) run.2 Hrun Hs) as (_ & _ & Hone).
  destruct (Hone (decode_attribute false <$> example_group) eq_refl)
    as [_ Hsorted'].
  destruct (Hsorted' group eq_refl) as [Hmember _].
  destruct (Hmember [Str "CN=bob,OU=Staff,DC=example,DC=com";
                     Str "CN=alice,OU=Staff,DC=example,DC=com"])
    as (l' & Hl' & Hsorted & _).
  { vm_compute. reflexivity. }
  assert (group !! "member" = Some (VList members)) as Hmembers
    by (vm_compute; reflexivity).
  rewrite Hmembers in Hl'. injection Hl' as <-.
  exists group. split; [by rewrite Hrun|]. by split.
Defined.

Lemma authenticate_user_binds_as_given_witness :
  CStr "wrong" = CStr "wrong" /\
  ADConnection.bind_username (EasyAD.config example_client)
    (credentials_of "bob" "wrong") = Ok "bob@example.com".
Proof.
  apply (@authenticate_user_binds_as_given floor_runtime example_world
           example_client "bob" "wrong" None None false [] 0%nat
           "bob@example.com" (CStr "wrong") (Some INVALID_CREDENTIALS)).
  vm_compute. do 4 right. left. reflexivity.
Defined.

(** The two groups come back with [cn=admins] before [CN=Staff]. *)
Lemma transitive_searches_sorted_witness :
  let run := @EasyAD.get_all_user_groups floor_runtime membership_world
               example_client (RefStr bob_dn) None
               (Some (credentials_of "bob" "secret")) false [] in
  let dns := [Str "cn=admins,DC=example,DC=com";
              Str "CN=Staff,DC=example,DC=com"] in
  run.1 = Ok dns /\
  @sorted_ci floor_runtime dns /\
  exists results names,
    searched run.2 results /\
    Forall2 (fun entry a => entry !! "distinguishedName" = Some (VAtom a))
            (decode_ldap_results results false) names /\
    Permutation names dns.
Proof.
  intros run dns.
  pose proof (eq_refl run <: run = (Ok dns, run.2)) as Hrun.
  destruct (@transitive_searches_sorted floor_runtime membership_world
              example_client []) as [Hgroups _].
  destruct (Hgroups (RefStr bob_dn) None
              (Some (credentials_of "bob" "secret")) false dns run.2 Hrun)
    as (results & names & Hs & Hnames & Hperm & Hsorted).
  split; [by rewrite Hrun|]. split; [exact Hsorted|].
  by exists results, names.
Defined.

Lemma transitive_lookup_needs_configured_bind_witness :
  (@EasyAD.get_all_user_groups floor_runtime example_world example_client
     (RefStr "bob") None (Some (credentials_of "bob" "secret")) false []).1
  = Raise (ValueError "AD_BIND_USERNAME must be set").
Proof.
  apply (@transitive_lookup_needs_configured_bind floor_runtime example_world
           example_client "bob" None (Some (credentials_of "bob" "secret"))
           false []).
  - reflexivity.
  - left. vm_compute. reflexivity.
  - eexists. vm_compute. reflexivity.
  - eexists. vm_compute. reflexivity.
Defined.

Lemma membership_search_witness :
  let run := @EasyAD.user_is_member_of_group floor_runtime example_world
               example_client (RefStr bob_dn) (RefStr staff_dn) None
               (Some (credentials_of "bob" "secret")) [] in
  run.1 = Ok true /\
  session_calls [] (EasyAD.config example_client)
    (Some (credentials_of "bob" "secret")) (ArgVal (VAtom (Str bob_dn)))
    ("(&(objectClass=user)(memberof:1.2.840.113556.1.4.1941:="
     +:+ escape_filter_chars staff_dn +:+ "))")
    ["distinguishedName"] run.2.
Proof.
  intros run. split; [vm_compute; reflexivity|].
  apply (@membership_search floor_runtime example_world example_client bob_dn
           staff_dn None (Some (credentials_of "bob" "secret")) [] run.1 run.2).
  - reflexivity.
  - reflexivity.
  - apply surjective_pairing.
Defined.

Lemma account_control_flags_witness :
  exists user,
    (@EasyAD.get_user floor_runtime example_world example_client "bob" None
       (Some (credentials_of "bob" "secret")) None false []).1 = Ok user /\
    user !! "userAccountControl" = Some (VInt 514) /\
    user !! "disabled" = Some (VBool true) /\
    user !! "smartcardRequired" = Some (VBool false).
Proof.
  set (run := @EasyAD.get_user floor_runtime example_world example_client
                "bob" None (Some (credentials_of "bob" "secret")) None false
                []).
  set (user := match run.1 with Ok user => user | Raise _ => ∅ end).
  pose proof (eq_refl run <: run = (Ok user, run.2)) as Hrun.
  assert (searched run.2 example_user_results) as Hs.
  { exists 0%nat, (ArgCfg (CStr "dc=example,dc=com")),
           (EasyAD.user_filter "bob"), EasyAD.default_user_attributes.
    vm_compute. do 5 right. left. reflexivity. }
  exists user. split; [by rewrite Hrun|].
  pose proof (@account_control_flags floor_runtime example_world
                example_client "bob" None
                (Some (credentials_of "bob" "secret")) None false [] run.2
                example_user_results (decode_attribute false <$> example_user)
                user Hrun Hs eq_refl) as Hflags.
  destruct decode_example_user as (_ & _ & Huac). rewrite Huac in Hflags.
  destruct Hflags as (uac & Hint & H0 & H1 & _ & _ & H4).
  vm_compute in Hint. injection Hint as <-. by repeat split.
Defined.

Lemma connection_options_witness :
  In (ESetOption 0 OPT_X_TLS_DEMAND (ArgInt 1))
     (ADConnection.init example_config []).2.
Proof.
  pose proof (connection_options example_config [] _ _
                (surjective_pairing _)) as Hopt.
  cbv zeta in Hopt.
  assert (example_config !! "AD_SERVER" = Some (CStr "dc1.example.com"))
    as Hserver by (vm_compute; reflexivity).
  rewrite Hserver in Hopt.
  destruct Hopt as (_ & _ & _ & _ & _ & Hdemand & _).
  apply Hdemand. intros (v & Hv & _). vm_compute in Hv. discriminate Hv.
Defined.

(** Fourteen and a half days before the clock's reading. *)
Lemma last_logon_threshold_witness :
  @_get_last_logon floor_runtime 13100000000000000
    (VAtom (Str "130987472000000000")) true
  = Ok (VAtom (Str "<= 14 days")).
Proof.
  apply (@last_logon_threshold floor_runtime 13100000000000000
           (VAtom (Str "130987472000000000")) true 13098747200000000).
  - vm_compute. reflexivity.
  - vm_compute. reflexivity.
Defined.

Lemma user_timestamps_witness :
  exists user,
    (@EasyAD.get_user floor_runtime example_world example_client "bob" None
       (Some (credentials_of "bob" "secret")) None true []).1 = Ok user /\
    user !! "lockoutTime" = Some VNone /\
    user !! "pwdLastSet" = Some (VAtom (Str "02/15/16 08:53:20")).
Proof.
  set (run := @EasyAD.get_user floor_runtime example_world example_client
                "bob" None (Some (credentials_of "bob" "secret")) None true
                []).
  set (user := match run.1 with Ok user => user | Raise _ => ∅ end).
  pose proof (eq_refl run <: run = (Ok user, run.2)) as Hrun.
  assert (searched run.2 example_user_results) as Hs.
  { exists 0%nat, (ArgCfg (CStr "dc=example,dc=com")),
           (EasyAD.user_filter "bob"), EasyAD.default_user_attributes.
    vm_compute. do 5 right. left. reflexivity. }
  exists user. split; [by rewrite Hrun|].
  destruct (@user_timestamps floor_runtime example_world example_client "bob"
              None (Some (credentials_of "bob" "secret")) None true [] run.2
              example_user_results (decode_attribute true <$> example_user)
              user Hrun Hs eq_refl) as [_ Htimes].
  split.
  - assert ("lockoutTime" ∈ ["lockoutTime"; "pwdLastSet"]) as Hk
      by (apply list_elem_of_In; by left).
    apply Htimes in Hk.
    assert ((decode_attribute true <$> example_user) !! "lockoutTime"
            = Some (VAtom (Str "0"))) as Hv by (vm_compute; reflexivity).
    rewrite Hv in Hk. destruct Hk as (v' & Hconv & Huser).
    vm_compute in Hconv. injection Hconv as <-. exact Huser.
  - assert ("pwdLastSet" ∈ ["lockoutTime"; "pwdLastSet"]) as Hk
      by (apply list_elem_of_In; right; by left).
    apply Htimes in Hk.
    assert ((decode_attribute true <$> example_user) !! "pwdLastSet"
            = Some (VAtom (Str "131000000000000000"))) as Hv
      by (vm_compute; reflexivity).
    rewrite Hv in Hk. destruct Hk as (v' & Hconv & Huser).
    vm_compute in Hconv. injection Hconv as <-. exact Huser.
Defined.


Lemma derive_base_dn_join_witness :
  EasyAD.derive_base_dn "corp.example.com" = "dc=corp,dc=example,dc=com".
Proof.
  etransitivity; [apply derive_base_dn_join; reflexivity|reflexivity].
Defined.

Lemma constructor_base_dn_witness :
  exists b, EasyAD.config example_client !! "AD_BASE_DN" = Some b /\
            EasyAD.base_or_default example_client None = Ok (ArgCfg b).
Proof.
  destruct (constructor_base_dn example_config example_client init_example_client)
    as (domain & _ & _ & _ & Hbase).
  exact Hbase.
Defined.

Lemma filters_keep_their_structure_witness :
  count_char "(" (EasyAD.user_filter "*)(uid=*") = 7%nat /\
  count_char "(" (EasyAD.group_filter "*)(cn=*") = 5%nat.
Proof.
  destruct (filters_keep_their_structure "*)(uid=*" "(") as [Huser _];
    [constructor|].
  destruct (filters_keep_their_structure "*)(cn=*" "(") as [_ Hgroup];
    [constructor|].
  rewrite Huser, Hgroup. split; reflexivity.
Defined.


Lemma reference_without_dn_raises_witness :
  @EasyAD.get_all_user_groups floor_runtime example_world example_client
    RefOther None None false []
  = (Raise (ValueError "User passed as an unsupported data type"), []).
Proof.
  apply (@reference_without_dn_raises floor_runtime example_world
           example_client RefOther None None false [] I).
Defined.
